(** * hts: the server half of httptunnel (src/hts.c)

    A shallow embedding of [parse_arguments] and [main] of hts.c.

    The program is a sequential C program that talks to its environment
    through library calls (getopt_long, fopen, poll, time, the tunnel
    library of tunnel.c, ...).  It is embedded in a small state-and-exit
    monad: the state is a [world] holding the answers the environment will
    give to the coming calls and the chronological trace of the calls made
    so far; [exit] stops the program with a status.  The two endless loops
    of [main] take a fuel argument. *)

From Stdlib Require Import ZArith List String Ascii Bool Lia Streams.
From Stdlib Require Import DecimalString.
From Stdlib Require DecimalPos DecimalZ.
Import ListNotations.
Local Open Scope string_scope.
Local Open Scope list_scope.
Local Open Scope Z_scope.

Infix "+++" := String.append (right associativity, at level 60).

(** ** C integers

    [int] is 32 bits, [long], [time_t] and [size_t] are 64 bits (LP64); a
    conversion to a signed type of [w] bits keeps the value modulo [2^w],
    and so does a conversion to an unsigned type. *)

Definition wrap (w : Z) (z : Z) : Z := (z + 2 ^ (w - 1)) mod 2 ^ w - 2 ^ (w - 1).
Definition to_int (z : Z) : Z := wrap 32 z.
Definition to_time_t (z : Z) : Z := wrap 64 z.
Definition to_uint (z : Z) : Z := z mod 2 ^ 32.
Definition to_size_t (z : Z) : Z := z mod 2 ^ 64.

Definition INT_MIN : Z := - 2 ^ 31.
Definition INT_MAX : Z := 2 ^ 31 - 1.
Definition LONG_MIN : Z := - 2 ^ 63.
Definition LONG_MAX : Z := 2 ^ 63 - 1.
Definition in_int (z : Z) : Prop := INT_MIN <= z <= INT_MAX.

Definition FALSE : Z := 0.
Definition TRUE : Z := 1.

(** A character constant such as ['d'] is an [int]. *)
Definition chr (a : ascii) : Z := Z.of_nat (nat_of_ascii a).

(** ** printf conversions *)

Definition LF : string := String "010"%char EmptyString.
Definition DQ : string := String "034"%char EmptyString.

(** [%d] *)
Definition fmt_d (z : Z) : string := NilZero.string_of_int (Z.to_int z).

Fixpoint oct_digits (fuel : nat) (z : Z) (acc : string) : string :=
  match fuel with
  | O => acc
  | S f =>
      let acc' := String (ascii_of_nat (48 + Z.to_nat (z mod 8))%nat) acc in
      if z / 8 =? 0 then acc' else oct_digits f (z / 8) acc'
  end.

(** [%o] of an [int]: the octal digits of its unsigned value. *)
Definition fmt_o (z : Z) : string := oct_digits 11 (to_uint z) "".

(** A [char *] that may be null. *)
Definition cstr : Type := option string.

(** ** The environment *)

Inductive stream_id : Type := Stdout | Stderr.

Inductive level : Type := LogError | LogNotice | LogDebug | LogVerbose | LogAnnoying.

(** A [FILE *]: [NULL], [stdout], or a stream opened by [fopen]. *)
Inductive FILEp : Type :=
| NULLF
| stdoutF
| fileF (h : Z).

Definition FILEp_of (h : Z) : FILEp := if h =? 0 then NULLF else fileF h.

Definition is_NULLF (f : FILEp) : bool :=
  match f with NULLF => true | _ => false end.

(** One entry per call that leaves the program, with its arguments and,
    where the program reads it, its result.  A log call keeps its level and
    its format string. *)
Inductive event : Type :=
| EPrint (f : stream_id) (s : string)
| ELog (l : level) (fmt : string)
| EFopen (path : cstr) (mode : string) (r : Z)
| EFprintf (file : Z) (s : string)
| EFclose (file : Z) (r : Z)
| EErrno (r : Z)                          (* the value read from errno *)
| EDaemon (nochdir noclose : Z)
| EOpenlog (ident : string)
| ESignalSIGPIPE (handler : string)
| EGetpid (r : Z)
| ETunnelNewServer (port content_length : Z) (r : Z)
| ETunnelSetopt (tunnel : Z) (name : string) (value : Z) (r : Z)
| EOpenDevice (path : string) (r : Z)
| ETunnelAccept (tunnel : Z) (r : Z)
| ESetAddress (host : option string) (port : Z) (r : Z)
| EDoConnect (r : Z)
| ETime (r : Z)
| ETunnelPollinFd (tunnel : Z) (r : Z)
| EPoll (fd0 fd1 timeout : Z) (n revents0 revents1 : Z)
| ETunnelPadding (tunnel : Z) (length : Z)
| EHandleInput (type : string) (tunnel fd revents : Z) (handler : string)
               (closed_in closed_out : Z)
| EClose (fd : Z)
| ETunnelClose (tunnel : Z)
| ETunnelDestroy (tunnel : Z).

(** The world: [script] is what the environment answers to the coming
    calls, in call order (pointers and descriptors are integers, a null
    pointer is 0); [trace] is the calls made so far, oldest first. *)
Record world : Type := World {
  script : Stream Z;
  trace : list event
}.

(** ** The monad *)

Inductive outcome (A : Type) : Type :=
| Ok (a : A) (w : world)
| Exit (status : Z) (w : world)
| OutOfFuel (w : world).
Arguments Ok {A} a w.
Arguments Exit {A} status w.
Arguments OutOfFuel {A} w.

Definition M (A : Type) : Type := world -> outcome A.

Definition ret {A} (a : A) : M A := fun w => Ok a w.

Definition bind {A B} (m : M A) (k : A -> M B) : M B :=
  fun w =>
    match m w with
    | Ok a w' => k a w'
    | Exit s w' => Exit s w'
    | OutOfFuel w' => OutOfFuel w'
    end.

Notation "x <- m ;; k" := (bind m (fun x => k))
  (at level 61, m at next level, right associativity).
Notation "m ;; k" := (bind m (fun _ => k))
  (at level 61, right associativity).

(** [exit (status)] *)
Definition exit {A} (status : Z) : M A := fun w => Exit status w.

Definition out_of_fuel {A} : M A := fun w => OutOfFuel w.

(** A call whose result the program does not read. *)
Definition emit (e : event) : M unit :=
  fun w => Ok tt (World (script w) (trace w ++ [e])).

(** A call whose result the program reads: the environment's next answer. *)
Definition call (e : Z -> event) : M Z :=
  fun w =>
    match script w with
    | Cons r rest => Ok r (World rest (trace w ++ [e r]))
    end.

Definition when (b : bool) (m : M unit) : M unit := if b then m else ret tt.

Definition print (f : stream_id) (s : string) : M unit := emit (EPrint f s).
Definition log (l : level) (fmt : string) : M unit := emit (ELog l fmt).

(** [poll] answers three integers: its return value and the [revents] it
    stored for the two descriptors. *)
Definition call3 (e : Z -> Z -> Z -> event) : M (Z * Z * Z) :=
  fun w =>
    match script w with
    | Cons n (Cons r0 (Cons r1 rest)) =>
        Ok (n, r0, r1) (World rest (trace w ++ [e n r0 r1]))
    end.

(** [%s] (glibc prints a null pointer as "(null)"). *)
Definition fmt_s (s : cstr) : string :=
  match s with Some x => x | None => "(null)" end.

Definition is_NULL {A} (p : option A) : bool :=
  match p with None => true | Some _ => false end.

(** ** What hts.c takes from common.h, config.h and the C library

    None of these is in src/: the constants and helpers of common.h, the
    compile-time switch DEBUG_MODE, [POLLIN] of <sys/poll.h>, [strerror]
    and [atoi].
    The program is parametrised by them. *)
Class Common : Type := {
  DEBUG_MODE : bool;
  DEFAULT_HOST_PORT : Z;
  DEFAULT_CONTENT_LENGTH : Z;
  DEFAULT_KEEP_ALIVE : Z;
  DEFAULT_MAX_CONNECTION_AGE : Z;
  DEFAULT_CONNECTION_MAX_TIME : Z;
  BUG_REPORT_EMAIL : string;
  PACKAGE : string;
  VERSION : string;
  POLLIN : Z;
  strerror : Z -> string;
  atoi : cstr -> Z;
  atoi_with_postfix : cstr -> Z;
  (** [name_and_port (nameport, &name, &port)]: the new [name] and [port]
      from the old ones. *)
  name_and_port : cstr -> cstr * Z -> cstr * Z
}.

(** [log_exit (status)] of common.h ends the process with [status]. *)
Definition log_exit {A} (status : Z) : M A := exit status.

(** ** Arguments (hts.c, lines 19-34) *)

(** The numbers are [int]s, except [content_length], which is a [size_t]:
    what the program stores in it is converted with [to_size_t]. *)
Record Arguments : Type := mkArguments {
  me : string;
  device : cstr;
  port : Z;
  forward_host : cstr;
  forward_port : Z;
  content_length : Z;
  pid_filename : cstr;
  strict_content_length : Z;
  keep_alive : Z;
  max_connection_age : Z
}.

(** The two globals [debug_level] and [debug_file]. *)
Record globals : Type := mkGlobals {
  debug_level : Z;
  debug_file : FILEp
}.

Definition set_device (a : Arguments) (v : cstr) : Arguments :=
  mkArguments (me a) v (port a) (forward_host a) (forward_port a)
    (content_length a) (pid_filename a) (strict_content_length a)
    (keep_alive a) (max_connection_age a).
Definition set_port (a : Arguments) (v : Z) : Arguments :=
  mkArguments (me a) (device a) v (forward_host a) (forward_port a)
    (content_length a) (pid_filename a) (strict_content_length a)
    (keep_alive a) (max_connection_age a).
Definition set_forward (a : Arguments) (v : cstr * Z) : Arguments :=
  mkArguments (me a) (device a) (port a) (fst v) (snd v)
    (content_length a) (pid_filename a) (strict_content_length a)
    (keep_alive a) (max_connection_age a).
Definition set_content_length (a : Arguments) (v : Z) : Arguments :=
  mkArguments (me a) (device a) (port a) (forward_host a) (forward_port a)
    v (pid_filename a) (strict_content_length a)
    (keep_alive a) (max_connection_age a).
Definition set_pid_filename (a : Arguments) (v : cstr) : Arguments :=
  mkArguments (me a) (device a) (port a) (forward_host a) (forward_port a)
    (content_length a) v (strict_content_length a)
    (keep_alive a) (max_connection_age a).
Definition set_strict_content_length (a : Arguments) (v : Z) : Arguments :=
  mkArguments (me a) (device a) (port a) (forward_host a) (forward_port a)
    (content_length a) (pid_filename a) v
    (keep_alive a) (max_connection_age a).
Definition set_keep_alive (a : Arguments) (v : Z) : Arguments :=
  mkArguments (me a) (device a) (port a) (forward_host a) (forward_port a)
    (content_length a) (pid_filename a) (strict_content_length a)
    v (max_connection_age a).
Definition set_max_connection_age (a : Arguments) (v : Z) : Arguments :=
  mkArguments (me a) (device a) (port a) (forward_host a) (forward_port a)
    (content_length a) (pid_filename a) (strict_content_length a)
    (keep_alive a) v.

(** ** The command line

    [getopt_long] is the C library's.  A command line is given by what it
    makes of [argv]: the options it returns one after the other until it
    returns -1, and the operands [argv[optind]] ... [argv[argc - 1]] it
    leaves. *)
Record getopt_ret : Type := mkOpt {
  opt_c : Z;              (* the value returned *)
  optarg : cstr;          (* the global optarg *)
  option_index : nat      (* *longindex *)
}.

Record cmdline : Type := mkCmdline {
  argv0 : string;
  options : list getopt_ret;
  operands : list string
}.

(** The option [c] occurs among the options scanned. *)
Definition given (c : ascii) (cl : cmdline) : bool :=
  existsb (fun o => opt_c o =? chr c) (options cl).

(** [getopt_long] never hands -1 to the [switch], and an option declared
    with [required_argument] comes with its argument. *)
Definition getopt_wf (cl : cmdline) : Prop :=
  Forall (fun o => opt_c o <> -1 /\ (opt_c o = chr "d" -> optarg o <> None))
         (options cl).

Fixpoint unlines (l : list string) : string :=
  match l with
  | [] => ""
  | s :: l' => s +++ LF +++ unlines l'
  end.

Section Hts.
Context {cfg : Common}.

(** ** usage (hts.c, lines 36-68) *)

Definition usage_text (me : string) : string :=
  unlines ([]
    ++ ["Usage: " +++ me +++ " [OPTION]... [PORT]"]
    ++ ["Listen for incoming httptunnel connections at PORT (default port is " +++ fmt_d DEFAULT_HOST_PORT +++ ")."]
    ++ ["When a connection is made, I/O is redirected to the destination specified"]
    ++ ["by the --device or --forward-port switch."]
    ++ [""]
    ++ ["  -c, --content-length BYTES     use HTTP PUT requests of BYTES size"]
    ++ ["                                 (k, M, and G postfixes recognized)"]
    ++ ["  -d, --device DEVICE            use DEVICE for input and output"]
    ++ (if DEBUG_MODE then ["  -D, --debug [LEVEL]            enable debug mode"] else [])
    ++ ["  -F, --forward-port HOST:PORT   connect to PORT at HOST and use it for "]
    ++ ["                                 input and output"]
    ++ ["  -h, --help                     display this help and exit"]
    ++ ["  -k, --keep-alive SECONDS       send keepalive bytes every SECONDS seconds"]
    ++ ["                                 (default is " +++ fmt_d DEFAULT_KEEP_ALIVE +++ ")"]
    ++ (if DEBUG_MODE then ["  -l, --logfile FILE             specify logfile for debug output"] else [])
    ++ ["  -M, --max-connection-age SEC   maximum time a connection will stay"]
    ++ ["                                 open is SEC seconds (default is " +++ fmt_d DEFAULT_MAX_CONNECTION_AGE +++ ")"]
    ++ ["  -S, --strict-content-length    always write Content-Length bytes in requests"]
    ++ ["  -V, --version                  output version information and exit"]
    ++ ["  -p, --pid-file LOCATION        write a PID file to LOCATION"]
    ++ [""]
    ++ ["Report bugs to " +++ BUG_REPORT_EMAIL +++ "."]).

Definition usage (f : stream_id) (me : string) : M unit :=
  print f (usage_text me).

(** ** parse_arguments (hts.c, lines 70-238) *)

(** The [name] fields of [long_options]. *)
Definition long_options : list string :=
  ["help"; "strict"; "version"]
  ++ (if DEBUG_MODE then ["debug"; "logfile"] else [])
  ++ ["device"; "pid-file"; "keep-alive"; "forward-port"; "content-length";
      "max-connection-age"].

(** Lines 77-86. *)
Definition defaults (argv0 : string) : Arguments :=
  {| me := argv0;
     port := DEFAULT_HOST_PORT;
     device := None;
     forward_host := None;
     forward_port := -1;
     content_length := to_size_t DEFAULT_CONTENT_LENGTH;
     pid_filename := None;
     strict_content_length := FALSE;
     keep_alive := DEFAULT_KEEP_ALIVE;
     max_connection_age := DEFAULT_CONNECTION_MAX_TIME |}.

(** The [switch (c)] of lines 120-196, for one value returned by
    [getopt_long]. *)
Definition option_switch (o : getopt_ret) (st : Arguments * globals)
  : M (Arguments * globals) :=
  let arg := fst st in
  let g := snd st in
  let c := opt_c o in
  if c =? 0 then
    print Stdout ("option " +++ nth (option_index o) long_options "(null)") ;;
    when (negb (is_NULL (optarg o)))
      (print Stdout (" with arg " +++ fmt_s (optarg o))) ;;
    print Stdout LF ;;
    ret st
  else if c =? chr "c" then
    ret (set_content_length arg (to_size_t (atoi_with_postfix (optarg o))), g)
  else if c =? chr "d" then
    ret (set_device arg (optarg o), g)
  else if DEBUG_MODE && (c =? chr "D") then
    ret (arg, {| debug_level := if is_NULL (optarg o) then 1 else atoi (optarg o);
                 debug_file := debug_file g |})
  else if DEBUG_MODE && (c =? chr "l") then
    h <- call (EFopen (optarg o) "w") ;;
    if is_NULLF (FILEp_of h) then
      print Stderr (me arg +++ ": couldn't open file " +++ fmt_s (optarg o)
                    +++ " for writing" +++ LF) ;;
      log_exit 1
    else
      ret (arg, {| debug_level := debug_level g; debug_file := FILEp_of h |})
  else if c =? chr "F" then
    let arg' := set_forward arg
                  (name_and_port (optarg o) (forward_host arg, forward_port arg)) in
    if forward_port arg' =? -1 then
      print Stderr (me arg' +++ ": you must specify a port number." +++ LF
                    +++ me arg' +++ ": try '" +++ me arg' +++ " --help' for help."
                    +++ LF) ;;
      exit 1
    else ret (arg', g)
  else if c =? chr "h" then
    usage Stdout (me arg) ;;
    exit 0
  else if c =? chr "k" then
    ret (set_keep_alive arg (atoi (optarg o)), g)
  else if c =? chr "M" then
    ret (set_max_connection_age arg (atoi (optarg o)), g)
  else if c =? chr "S" then
    ret (set_strict_content_length arg TRUE, g)
  else if c =? chr "V" then
    print Stdout ("hts (" +++ PACKAGE +++ ") " +++ VERSION +++ LF) ;;
    exit 0
  else if c =? chr "p" then
    ret (set_pid_filename arg (optarg o), g)
  else if c =? chr "?" then
    ret st
  else
    print Stdout ("?? getopt returned character code 0" +++ fmt_o c +++ " ??" +++ LF) ;;
    ret st.

(** The [for (;;)] of lines 88-197: it ends when [getopt_long] returns -1,
    which it does once the options are used up. *)
Fixpoint scan_options (opts : list getopt_ret) (st : Arguments * globals)
  : M (Arguments * globals) :=
  match opts with
  | [] => ret st
  | o :: opts' =>
      if opt_c o =? -1 then ret st
      else st' <- option_switch o st ;; scan_options opts' st'
  end.

Definition parse_arguments (cl : cmdline) (g0 : globals) : M (Arguments * globals) :=
  st <- scan_options (options cl) (defaults (argv0 cl), g0) ;;
  let g := snd st in
  (* lines 199-205: argc - 1 == optind, argc - 1 > optind *)
  arg <- match operands cl with
         | [] => ret (fst st)
         | [p] => ret (set_port (fst st) (atoi (Some p)))
         | _ :: _ :: _ => usage Stderr (me (fst st)) ;; exit 1
         end ;;
  when (is_NULL (device arg) && (forward_port arg =? -1))
    (print Stderr (me arg +++ ": one of --device or --forward-port must be used."
                   +++ LF +++ me arg +++ ": try '" +++ me arg +++ " -help' for help."
                   +++ LF) ;;
     exit 1) ;;
  when (negb (is_NULL (device arg)) && negb (forward_port arg =? -1))
    (print Stderr (me arg +++ ": --device can't be used together with "
                   +++ "--forward-port." +++ LF
                   +++ me arg +++ ": try '" +++ me arg +++ " --help' for help."
                   +++ LF) ;;
     exit 1) ;;
  when ((debug_level g =? 0) && negb (is_NULLF (debug_file g)))
    (print Stderr (me arg +++ ": --logfile can't be used without debugging" +++ LF) ;;
     exit 1) ;;
  when (Bool.eqb (is_NULL (device arg)) (forward_port arg =? -1)
        || (port arg =? -1)
        || negb (Bool.eqb (is_NULL (forward_host arg)) (forward_port arg =? -1)))
    (usage Stderr (me arg) ;; exit 1) ;;
  ret (arg, g).

(** ** main (hts.c, lines 240-421) *)

(** Lines 251-259. *)
Definition start_logging (g : globals) : M globals :=
  when ((debug_level g =? 0) || negb (is_NULLF (debug_file g)))
    (emit (EDaemon 0 1)) ;;
  if DEBUG_MODE then
    if negb (debug_level g =? 0) && is_NULLF (debug_file g)
    then ret {| debug_level := debug_level g; debug_file := stdoutF |}
    else ret g
  else
    emit (EOpenlog "hts") ;;
    ret g.

(** Lines 261-271. *)
Definition log_arguments : M unit :=
  log LogNotice "hts (%s) %s started with arguments:" ;;
  log LogNotice "  me = %s" ;;
  log LogNotice "  device = %s" ;;
  log LogNotice "  port = %d" ;;
  log LogNotice "  forward_port = %d" ;;
  log LogNotice "  forward_host = %s" ;;
  log LogNotice "  content_length = %d" ;;
  log LogNotice "  debug_level = %d" ;;
  log LogNotice "  pid_filename = %s".

(** Lines 273-278. *)
Definition create_tunnel (arg : Arguments) : M Z :=
  tunnel <- call (ETunnelNewServer (port arg) (content_length arg)) ;;
  if tunnel =? 0 then
    log LogError "couldn't create tunnel" ;;
    log_exit 1
  else ret tunnel.

(** Lines 280-291. *)
Definition set_options (arg : Arguments) (tunnel : Z) : M unit :=
  r <- call (ETunnelSetopt tunnel "strict_content_length"
               (strict_content_length arg)) ;;
  when (r =? -1) (log LogDebug "tunnel_setopt strict_content_length error: %s") ;;
  r <- call (ETunnelSetopt tunnel "keep_alive" (keep_alive arg)) ;;
  when (r =? -1) (log LogDebug "tunnel_setopt keep_alive error: %s") ;;
  r <- call (ETunnelSetopt tunnel "max_connection_age" (max_connection_age arg)) ;;
  when (r =? -1) (log LogDebug "tunnel_setopt max_connection_age error: %s").

(** Lines 293-297. *)
Definition ignore_sigpipe : M unit :=
  emit (ESignalSIGPIPE (if DEBUG_MODE then "log_sigpipe" else "SIG_IGN")).

(** Lines 299-316. *)
Definition write_pid_file (arg : Arguments) : M unit :=
  match pid_filename arg with
  | None => ret tt
  | Some path =>
      pid_file <- call (EFopen (Some path) "w+") ;;
      if pid_file =? 0 then
        e <- call EErrno ;;
        print Stderr ("Couldn't open pid file " +++ path +++ ": " +++ strerror e
                      +++ LF)
      else
        pid <- call EGetpid ;;
        emit (EFprintf pid_file (fmt_d (to_int pid) +++ LF)) ;;
        r <- call (EFclose pid_file) ;;
        if r =? 0 then ret tt
        else
          e <- call EErrno ;;
          print Stderr ("Error closing pid file: " +++ strerror e +++ LF)
  end.

(** Lines 379-382: [timeout = 1000 * (arg.keep_alive - (t -
    last_tunnel_write))], computed in [time_t] and stored in an [int], then
    raised to 0 when negative. *)
Definition poll_timeout (keep_alive t last_tunnel_write : Z) : Z :=
  let timeout :=
    to_int (to_time_t (1000 * to_time_t (keep_alive
                                         - to_time_t (t - last_tunnel_write)))) in
  if timeout <? 0 then 0 else timeout.

(** The [while (!closed)] of lines 367-409.  [handle_input] (common.h) is
    handed [&closed]: its answer is the value it leaves there. *)
Fixpoint bridge (fuel : nat) (arg : Arguments) (tunnel fd : Z)
    (closed last_tunnel_write : Z) : M unit :=
  if closed =? 0 then
    match fuel with
    | O => out_of_fuel
    | S fuel' =>
        pollfd1 <- call (ETunnelPollinFd tunnel) ;;
        t <- call ETime ;;
        let timeout := poll_timeout (keep_alive arg) t last_tunnel_write in
        log LogAnnoying "poll () ..." ;;
        p <- call3 (EPoll fd pollfd1 timeout) ;;
        let n := fst (fst p) in
        let revents0 := snd (fst p) in
        let revents1 := snd p in
        log LogAnnoying "... = %d" ;;
        if n =? -1 then
          log LogError ("poll error: %s" +++ LF) ;;
          log_exit 1
        else if n =? 0 then
          log LogVerbose "poll() timed out" ;;
          emit (ETunnelPadding tunnel 1) ;;
          last_tunnel_write' <- call ETime ;;
          bridge fuel' arg tunnel fd closed last_tunnel_write'
        else
          log LogAnnoying "revents[0] = %x, revents[1] = %x, POLLIN = %x" ;;
          closed1 <- call (EHandleInput "device or port" tunnel fd revents0
                             "handle_device_input" closed) ;;
          closed2 <- call (EHandleInput "tunnel" tunnel fd revents1
                             "handle_tunnel_input" closed1) ;;
          last_tunnel_write' <-
            (if Z.land revents0 POLLIN =? 0 then ret last_tunnel_write
             else call ETime) ;;
          bridge fuel' arg tunnel fd closed2 last_tunnel_write'
    end
  else ret tt.

(** Lines 324-334. *)
Definition open_downstream_device (arg : Arguments) (fd : Z) : M Z :=
  match device arg with
  | None => ret fd
  | Some dev =>
      fd' <- call (EOpenDevice dev) ;;
      log LogDebug ("open_device (" +++ DQ +++ "%s" +++ DQ +++ ") = %d") ;;
      if fd' =? -1 then
        log LogError "couldn't open %s: %s" ;;
        log_exit 1
      else ret fd'
  end.

(** Lines 343-363. *)
Definition connect_forward_port (arg : Arguments) (fd : Z) : M Z :=
  if forward_port arg =? -1 then ret fd
  else
    r <- call (ESetAddress (forward_host arg) (forward_port arg)) ;;
    if r =? -1 then
      log LogError ("couldn't forward port to %s:%d: %s" +++ LF) ;;
      log_exit 1
    else
      fd' <- call EDoConnect ;;
      log LogDebug ("do_connect (" +++ DQ +++ "%s:%d" +++ DQ +++ ") = %d") ;;
      if fd' =? -1 then
        log LogError ("couldn't connect to %s:%d: %s" +++ LF) ;;
        log_exit 1
      else ret fd'.

(** Lines 411-414. *)
Definition end_session (tunnel fd : Z) : M unit :=
  log LogDebug "closing tunnel" ;;
  emit (EClose fd) ;;
  emit (ETunnelClose tunnel) ;;
  log LogNotice "disconnected from FIXME:hostname:port".

(** Lines 322-336: wait for a peer; the descriptor in [fd] and what
    [tunnel_accept] returned. *)
Definition await_peer (arg : Arguments) (tunnel fd : Z) : M (Z * Z) :=
  log LogDebug "waiting for tunnel connection" ;;
  fd <- open_downstream_device arg fd ;;
  r <- call (ETunnelAccept tunnel) ;;
  ret (fd, r).

(** Lines 341-414: one session with the peer accepted; the descriptor in
    [fd] when it is over. *)
Definition session (fuel : nat) (arg : Arguments) (tunnel fd : Z) : M Z :=
  log LogNotice "connected to FIXME:hostname:port" ;;
  fd <- connect_forward_port arg fd ;;
  last_tunnel_write <- call ETime ;;
  bridge fuel arg tunnel fd FALSE last_tunnel_write ;;
  end_session tunnel fd ;;
  ret fd.

(** The [for (;;)] of lines 318-415; [fd] is declared outside it and keeps
    its value from one iteration to the next. *)
Fixpoint serve (fuel : nat) (arg : Arguments) (tunnel fd : Z) : M unit :=
  match fuel with
  | O => out_of_fuel
  | S fuel' =>
      p <- await_peer arg tunnel fd ;;
      if snd p =? -1 then
        log LogNotice "couldn't accept connection: %s" ;;
        serve fuel' arg tunnel (fst p)                      (* continue *)
      else
        fd' <- session fuel' arg tunnel (fst p) ;;
        serve fuel' arg tunnel fd'
  end.

(** Lines 273-316: from the creation of the tunnel to the PID file. *)
Definition startup (arg : Arguments) : M Z :=
  tunnel <- create_tunnel arg ;;
  set_options arg tunnel ;;
  ignore_sigpipe ;;
  write_pid_file arg ;;
  ret tunnel.

Definition initial_globals : globals := {| debug_level := 0; debug_file := NULLF |}.

(** Lines 251-271. *)
Definition announce (g : globals) : M unit :=
  _ <- start_logging g ;;
  log_arguments.

(** Lines 417-420. *)
Definition shutdown (tunnel : Z) : M unit :=
  log LogDebug "destroying tunnel" ;;
  emit (ETunnelDestroy tunnel) ;;
  log_exit 0.

Definition main (fuel : nat) (cl : cmdline) : M unit :=
  st <- parse_arguments cl initial_globals ;;
  announce (snd st) ;;
  tunnel <- startup (fst st) ;;
  serve fuel (fst st) tunnel (-1) ;;
  shutdown tunnel.

(** What [announce] adds to the trace. *)
Definition announce_events (g : globals) : list event :=
  (if (debug_level g =? 0) || negb (is_NULLF (debug_file g))
   then [EDaemon 0 1] else [])
  ++ (if DEBUG_MODE then [] else [EOpenlog "hts"])
  ++ [ELog LogNotice "hts (%s) %s started with arguments:";
      ELog LogNotice "  me = %s";
      ELog LogNotice "  device = %s";
      ELog LogNotice "  port = %d";
      ELog LogNotice "  forward_port = %d";
      ELog LogNotice "  forward_host = %s";
      ELog LogNotice "  content_length = %d";
      ELog LogNotice "  debug_level = %d";
      ELog LogNotice "  pid_filename = %s"].

(** ** What parse_arguments prints before it ends the process *)

(** Line 160. *)
Definition port_hint (me : string) : string :=
  me +++ ": you must specify a port number." +++ LF
  +++ me +++ ": try '" +++ me +++ " --help' for help." +++ LF.

(** Line 209. *)
Definition neither_hint (me : string) : string :=
  me +++ ": one of --device or --forward-port must be used." +++ LF
  +++ me +++ ": try '" +++ me +++ " -help' for help." +++ LF.

(** Line 217. *)
Definition both_hint (me : string) : string :=
  me +++ ": --device can't be used together with --forward-port." +++ LF
  +++ me +++ ": try '" +++ me +++ " --help' for help." +++ LF.

(** Line 149. *)
Definition logfile_error (me : string) (file : cstr) : string :=
  me +++ ": couldn't open file " +++ fmt_s file +++ " for writing" +++ LF.

(** Line 226. *)
Definition logfile_without_debug (me : string) : string :=
  me +++ ": --logfile can't be used without debugging" +++ LF.

(** Line 184. *)
Definition version_line : string :=
  "hts (" +++ PACKAGE +++ ") " +++ VERSION +++ LF.

(** The messages that tell how to call the program: the usage text and
    the three that end in "try ... for help". *)
Definition usage_hints (me : string) : list string :=
  [usage_text me; port_hint me; neither_hint me; both_hint me].

(** The ways in which the option loop ends the process: the status and
    the last thing printed. *)
Inductive scan_exit (me : string) (opts : list getopt_ret) : Z -> event -> Prop :=
| SE_help :
    existsb (fun o => opt_c o =? chr "h") opts = true ->
    scan_exit me opts 0 (EPrint Stdout (usage_text me))
| SE_version :
    existsb (fun o => opt_c o =? chr "V") opts = true ->
    scan_exit me opts 0 (EPrint Stdout version_line)
| SE_port :
    existsb (fun o => opt_c o =? chr "F") opts = true ->
    scan_exit me opts 1 (EPrint Stderr (port_hint me))
| SE_logfile file :
    DEBUG_MODE = true ->
    scan_exit me opts 1 (EPrint Stderr (logfile_error me file)).

(** The ways in which [parse_arguments] ends the process. *)
Inductive parse_exit (cl : cmdline) : Z -> event -> Prop :=
| PE_scan s e :
    scan_exit (argv0 cl) (options cl) s e ->
    parse_exit cl s e
| PE_operands :
    (2 <= List.length (operands cl))%nat ->
    parse_exit cl 1 (EPrint Stderr (usage_text (argv0 cl)))
| PE_neither :
    (getopt_wf cl -> given "d" cl = false /\ given "F" cl = false) ->
    parse_exit cl 1 (EPrint Stderr (neither_hint (argv0 cl)))
| PE_both :
    (getopt_wf cl -> given "d" cl = true /\ given "F" cl = true) ->
    parse_exit cl 1 (EPrint Stderr (both_hint (argv0 cl)))
| PE_logfile_without_debug :
    (getopt_wf cl -> xorb (given "d" cl) (given "F" cl) = true) ->
    parse_exit cl 1 (EPrint Stderr (logfile_without_debug (argv0 cl)))
| PE_usage :
    (getopt_wf cl -> xorb (given "d" cl) (given "F" cl) = true) ->
    parse_exit cl 1 (EPrint Stderr (usage_text (argv0 cl))).

End Hts.

(** ** One build of hts, for running the program on examples *)

(** [isspace] in the C locale: space, and the control characters from
    tab to carriage return. *)
Definition isspace (c : ascii) : bool :=
  (chr c =? 32) || ((9 <=? chr c) && (chr c <=? 13)).

Fixpoint skip_blanks (s : string) : string :=
  match s with
  | String c s' => if isspace c then skip_blanks s' else s
  | EmptyString => s
  end.

Fixpoint digits_value (s : string) (acc : Z) : Z :=
  match s with
  | String c s' =>
      let d := chr c - 48 in
      if (0 <=? d) && (d <=? 9) then digits_value s' (10 * acc + d) else acc
  | EmptyString => acc
  end.

(** [strtol] keeps a value that does not fit a [long] at LONG_MIN or
    LONG_MAX. *)
Definition strtol_value (z : Z) : Z := Z.max LONG_MIN (Z.min LONG_MAX z).

(** [atoi (s)] is [(int) strtol (s, NULL, 10)]. *)
Definition atoi_string (s : string) : Z :=
  match skip_blanks s with
  | String "-" s' => to_int (strtol_value (- digits_value s' 0))
  | String "+" s' => to_int (strtol_value (digits_value s' 0))
  | s' => to_int (strtol_value (digits_value s' 0))
  end.

Fixpoint last_char (s : string) : option ascii :=
  match s with
  | EmptyString => None
  | String c EmptyString => Some c
  | String _ s' => last_char s'
  end.

Definition postfix_factor (s : string) : Z :=
  match last_char s with
  | Some "G"%char => 1024 * 1024 * 1024
  | Some "M"%char => 1024 * 1024
  | Some "k"%char => 1024
  | _ => 1
  end.

Fixpoint split_colon (s : string) : string * option string :=
  match s with
  | EmptyString => (EmptyString, None)
  | String c s' =>
      if (c =? ":")%char then (EmptyString, Some s')
      else let r := split_colon s' in (String c (fst r), snd r)
  end.

(** Modelled from the spec: common.h and config.h are not in src/.  The
    spec gives the defaults (port 8888, a content length of 64 KiB, a
    keep-alive of 5 seconds), the [k]/[M]/[G] postfixes of
    [--content-length] and the [HOST:PORT] form of [--forward-port]; the
    other constants are sample values.  This build has DEBUG_MODE off. *)
Definition httptunnel : Common := {|
  DEBUG_MODE := false;
  DEFAULT_HOST_PORT := 8888;
  DEFAULT_CONTENT_LENGTH := 65536;
  DEFAULT_KEEP_ALIVE := 5;
  DEFAULT_MAX_CONNECTION_AGE := 300;
  DEFAULT_CONNECTION_MAX_TIME := 300;
  BUG_REPORT_EMAIL := "bug-httptunnel@gnu.org";
  PACKAGE := "httptunnel";
  VERSION := "3.0";
  POLLIN := 1;
  strerror := fun e => "error " +++ fmt_d e;
  atoi := fun s => match s with Some x => atoi_string x | None => 0 end;
  atoi_with_postfix := fun s =>
    match s with
    | Some x => to_int (postfix_factor x * atoi_string x)
    | None => 0
    end;
  name_and_port := fun nameport old =>
    match nameport with
    | Some x =>
        let r := split_colon x in
        (Some (fst r),
         match snd r with Some p => atoi_string p | None => snd old end)
    | None => old
    end
|}.

(** The same build with DEBUG_MODE on. *)
Definition httptunnel_debug : Common := {|
  DEBUG_MODE := true;
  DEFAULT_HOST_PORT := 8888;
  DEFAULT_CONTENT_LENGTH := 65536;
  DEFAULT_KEEP_ALIVE := 5;
  DEFAULT_MAX_CONNECTION_AGE := 300;
  DEFAULT_CONNECTION_MAX_TIME := 300;
  BUG_REPORT_EMAIL := "bug-httptunnel@gnu.org";
  PACKAGE := "httptunnel";
  VERSION := "3.0";
  POLLIN := 1;
  strerror := fun e => "error " +++ fmt_d e;
  atoi := @atoi httptunnel;
  atoi_with_postfix := @atoi_with_postfix httptunnel;
  name_and_port := @name_and_port httptunnel
|}.

(** An environment that gives the answers of [l] and then 0 for ever. *)
Fixpoint answers (l : list Z) : Stream Z :=
  match l with
  | [] => Streams.const 0
  | a :: l' => Cons a (answers l')
  end.

Definition start (l : list Z) : world := World (answers l) [].

(** Options as [getopt_long] returns them. *)
Definition opt (c : ascii) (a : cstr) : getopt_ret := mkOpt (chr c) a 0.

(** What an outcome shows from outside. *)
Definition status_of {A} (o : outcome A) : option Z :=
  match o with
  | Exit s _ => Some s
  | _ => None
  end.

(** The run did not stop for lack of fuel. *)
Definition finished {A} (o : outcome A) : Prop :=
  match o with
  | OutOfFuel _ => False
  | _ => True
  end.

Definition world_of {A} (o : outcome A) : world :=
  match o with
  | Ok _ w => w
  | Exit _ w => w
  | OutOfFuel w => w
  end.

Definition is_new_server (e : event) : bool :=
  match e with ETunnelNewServer _ _ _ => true | _ => false end.

Definition is_print_to (f : stream_id) (e : event) : bool :=
  match e, f with
  | EPrint Stdout _, Stdout => true
  | EPrint Stderr _, Stderr => true
  | _, _ => false
  end.

Definition is_log (e : event) : bool :=
  match e with ELog _ _ => true | _ => false end.

(** The last call made that is not a log call. *)
Definition last_call (tr : list event) : option event :=
  fold_left (fun acc e => if is_log e then acc else Some e) tr None.

(** The calls after which the program gives up: a message on stderr, a
    tunnel that could not be created, a device that could not be opened, a
    forward address or connection that failed, a failed [poll]. *)
Definition fatal (e : event) : bool :=
  match e with
  | EPrint Stderr _ => true
  | ETunnelNewServer _ _ r => r =? 0
  | EOpenDevice _ r => r =? -1
  | ESetAddress _ _ r => r =? -1
  | EDoConnect r => r =? -1
  | EPoll _ _ _ n _ _ => n =? -1
  | _ => false
  end.

(** The process ends with status [s] in world [w]: with status 1, the
    last call made being one of those. *)
Definition fatal_exit (s : Z) (w : world) : Prop :=
  s = 1 /\ exists e, last_call (trace w) = Some e /\ fatal e = true.

Fixpoint remove_one (fd : Z) (l : list Z) : list Z :=
  match l with
  | [] => []
  | x :: l' => if x =? fd then l' else x :: remove_one fd l'
  end.

(** The descriptors the program has obtained for the downstream side and
    not closed, newest first. *)
Definition descriptors_after (open : list Z) (e : event) : list Z :=
  match e with
  | EOpenDevice _ r => if r =? -1 then open else r :: open
  | EDoConnect r => if r =? -1 then open else r :: open
  | EClose fd => remove_one fd open
  | _ => open
  end.

Definition open_descriptors (tr : list event) : list Z :=
  fold_left descriptors_after tr [].

(** What [serve] adds to the trace in one iteration whose [tunnel_accept]
    fails, in device mode. *)
Definition failed_accept_events (dev : string) (tunnel fd : Z) : list event :=
  [ELog LogDebug "waiting for tunnel connection";
   EOpenDevice dev fd;
   ELog LogDebug ("open_device (" +++ DQ +++ "%s" +++ DQ +++ ") = %d");
   ETunnelAccept tunnel (-1);
   ELog LogNotice "couldn't accept connection: %s"].

(** The answers of the environment in such iterations, one per descriptor
    that [open_device] returns. *)
Fixpoint failed_accepts (fds : list Z) (rest : Stream Z) : Stream Z :=
  match fds with
  | [] => rest
  | fd :: fds' => Cons fd (Cons (-1) (failed_accepts fds' rest))
  end.

(** The events of lines 411-414. *)
Definition end_session_events (tunnel fd : Z) : list event :=
  [ELog LogDebug "closing tunnel";
   EClose fd;
   ETunnelClose tunnel;
   ELog LogNotice "disconnected from FIXME:hostname:port"].

(** The events of lines 301-310 when the PID file opens: [fopen] returns
    [h], [getpid] returns [pid] and [fclose] returns [r]. *)
Definition pid_file_events (path : string) (h pid r : Z) : list event :=
  [EFopen (Some path) "w+" h;
   EGetpid pid;
   EFprintf h (fmt_d (to_int pid) +++ LF);
   EFclose h r].

Definition is_fprintf (e : event) : bool :=
  match e with EFprintf _ _ => true | _ => false end.

Definition is_accept (e : event) : bool :=
  match e with ETunnelAccept _ _ => true | _ => false end.

(** The events of lines 376-386 in one pass of the bridge loop:
    [tunnel_pollin_fd] returns [pollfd1], [time] returns [t], and [poll]
    returns [n] with the two [revents]. *)
Definition poll_events (keep_alive tunnel fd last_tunnel_write : Z)
    (pollfd1 t n revents0 revents1 : Z) : list event :=
  [ETunnelPollinFd tunnel pollfd1;
   ETime t;
   ELog LogAnnoying "poll () ...";
   EPoll fd pollfd1 (poll_timeout keep_alive t last_tunnel_write) n revents0 revents1;
   ELog LogAnnoying "... = %d"].

(** The events of lines 400-405: the two [handle_input] calls leave
    [closed1] and then [closed2] in [closed]. *)
Definition input_events (tunnel fd revents0 revents1 closed closed1 closed2 : Z)
  : list event :=
  [ELog LogAnnoying "revents[0] = %x, revents[1] = %x, POLLIN = %x";
   EHandleInput "device or port" tunnel fd revents0 "handle_device_input"
     closed closed1;
   EHandleInput "tunnel" tunnel fd revents1 "handle_tunnel_input" closed1 closed2].

(** The debug message of a [tunnel_setopt] that returned [r]. *)
Definition setopt_events (tunnel : Z) (name : string) (value r : Z) : list event :=
  ETunnelSetopt tunnel name value r
  :: (if r =? -1 then [ELog LogDebug ("tunnel_setopt " +++ name +++ " error: %s")]
      else []).

(** ** Some runs of this build *)

(** The run of `hts -d /dev/ttyS0` in which the three [tunnel_setopt]
    calls fail, the device opens as descriptor 3 and a peer is accepted:
    the process is then in a session, waiting in [poll]. *)
Definition setopt_failure_run : outcome unit :=
  main (cfg := httptunnel) 2
    (mkCmdline "hts" [opt "d" (Some "/dev/ttyS0")] [])
    (start [1; -1; -1; -1; 3; 0; 100; 9; 100; 0; 0; 0; 105]).

(** A session of `hts -d /dev/ttyS0`: the device opens as 3, a peer is
    accepted, [poll] reports input on the tunnel side and
    [handle_tunnel_input] finds the tunnel closed. *)
Definition one_session_world : world :=
  start [3; 0; 100; 9; 100; 1; 0; 1; 0; 1; 4; 0].

(** `hts -d /dev/ttyS0` in a session when [poll] fails, and
    `hts -F localhost:23` when the connection to localhost:23 fails. *)
Definition poll_failure_run : outcome unit :=
  main (cfg := httptunnel) 2
    (mkCmdline "hts" [opt "d" (Some "/dev/ttyS0")] [])
    (start [1; 0; 0; 0; 3; 0; 100; 9; 100; -1; 0; 0]).

Definition connect_failure_run : outcome unit :=
  main (cfg := httptunnel) 2
    (mkCmdline "hts" [opt "F" (Some "localhost:23")] [])
    (start [1; 0; 0; 0; 0; 0; -1]).

(** The answers of the environment to [n] calls of [tunnel_accept] that
    fail one after the other, when there is no device to open. *)
Fixpoint refused_accepts (n : nat) (rest : Stream Z) : Stream Z :=
  match n with
  | O => rest
  | S n' => Cons (-1) (refused_accepts n' rest)
  end.

(** What [serve] adds to the trace in one such iteration. *)
Definition refused_accept_events (tunnel : Z) : list event :=
  [ELog LogDebug "waiting for tunnel connection";
   ETunnelAccept tunnel (-1);
   ELog LogNotice "couldn't accept connection: %s"].

(** `hts -d /dev/ttyS0`: [tunnel_accept] fails, and in the next iteration
    the device cannot be opened. *)
Definition failed_accept_then_device_run : outcome unit :=
  main (cfg := httptunnel) 2
    (mkCmdline "hts" [opt "d" (Some "/dev/ttyS0")] [])
    (start [1; 0; 0; 0; 3; -1; -1]).


(** `hts -d /dev/ttyS0` with the default keep-alive of 5 seconds: the
    session starts when the clock reads 0, and at the first pass of the
    bridge loop it reads 1700000000. *)
Definition clock_step_run : outcome unit :=
  main (cfg := httptunnel) 2
    (mkCmdline "hts" [opt "d" (Some "/dev/ttyS0")] [])
    (start [1; 0; 0; 0; 3; 0; 0; 9; 1700000000; 0; 0; 0; 1700000000]).








(** ** More ways to look at a trace *)

(** The argument of the last occurrence of the option [c], if any. *)
Fixpoint last_optarg (c : Z) (opts : list getopt_ret) : option cstr :=
  match opts with
  | [] => None
  | o :: opts' =>
      match last_optarg c opts' with
      | Some a => Some a
      | None => if opt_c o =? c then Some (optarg o) else None
      end
  end.

(** How many events of [l] satisfy [f]. *)
Definition count (f : event -> bool) (l : list event) : nat :=
  List.length (filter f l).

(** A [poll] that timed out. *)
Definition is_timeout (e : event) : bool :=
  match e with EPoll _ _ _ n _ _ => n =? 0 | _ => false end.

Definition is_padding (e : event) : bool :=
  match e with ETunnelPadding _ _ => true | _ => false end.

Definition is_destroy (e : event) : bool :=
  match e with ETunnelDestroy _ => true | _ => false end.

(** The calls that leave the downstream descriptors as they are. *)
Definition keeps_descriptors (e : event) : bool :=
  match e with
  | EOpenDevice _ _ | EDoConnect _ | EClose _ => false
  | _ => true
  end.

(** The calls of a session on [tunnel] and [fd] while it lasts (lines
    367-409): [poll] on [fd] with a timeout that fits a non-negative [int],
    one byte of padding, the two input handlers, the clock and the log. *)
Definition bridge_call (tunnel fd : Z) (e : event) : bool :=
  match e with
  | ELog _ _ | ETime _ => true
  | ETunnelPollinFd t _ => t =? tunnel
  | EPoll fd0 _ timeout _ _ _ =>
      (fd0 =? fd) && (0 <=? timeout) && (timeout <=? INT_MAX)
  | ETunnelPadding t n => (t =? tunnel) && (n =? 1)
  | EHandleInput _ t d _ _ _ _ => (t =? tunnel) && (d =? fd)
  | _ => false
  end.

(** The calls of the accept loop on [tunnel] (lines 318-415). *)
Definition serve_call (tunnel : Z) (e : event) : bool :=
  match e with
  | ELog _ _ | EOpenDevice _ _ | ESetAddress _ _ _ | EDoConnect _ | ETime _
  | EClose _ => true
  | EPoll _ _ timeout _ _ _ => (0 <=? timeout) && (timeout <=? INT_MAX)
  | ETunnelAccept t _ | ETunnelPollinFd t _ | ETunnelClose t => t =? tunnel
  | ETunnelPadding t n => (t =? tunnel) && (n =? 1)
  | EHandleInput _ t _ _ _ _ _ => t =? tunnel
  | _ => false
  end.

(** Whatever the state of the world, [m] adds to the trace only calls that
    satisfy [P], and takes nothing away from it. *)
Definition adds {A} (P : event -> bool) (m : M A) : Prop :=
  forall w, exists added,
    trace (world_of (m w)) = trace w ++ added /\ forallb P added = true.

(** ** Proof tools *)

#[local] Arguments usage_text : simpl never.
#[local] Arguments fmt_d : simpl never.
#[local] Arguments fmt_o : simpl never.
#[local] Arguments String.append : simpl never.
#[local] Arguments poll_timeout : simpl never.
#[local] Arguments to_size_t : simpl never.

(** Two traces equal up to the bracketing of [++]. *)
Ltac trace_eq :=
  cbn [trace script];
  first [ reflexivity
        | symmetry; apply app_nil_r
        | rewrite <- !app_assoc; reflexivity ].

Ltac added_events :=
  eexists; split; [trace_eq | reflexivity].

(** One [case] of the [switch (c)]. *)
Ltac switch_on c k :=
  destruct (Z.eqb_spec c k) as [->|?].

(** * Properties *)

(** ** The monad *)

Lemma bind_Ok {A B} (m : M A) (k : A -> M B) w a w' :
  m w = Ok a w' -> bind m k w = k a w'.
Proof. unfold bind. intros ->. reflexivity. Qed.

Lemma bind_Exit {A B} (m : M A) (k : A -> M B) w s w' :
  m w = Exit s w' -> bind m k w = Exit s w'.
Proof. unfold bind. intros ->. reflexivity. Qed.

Lemma bind_inv_Ok {A B} (m : M A) (k : A -> M B) w b w' :
  bind m k w = Ok b w' -> exists a w1, m w = Ok a w1 /\ k a w1 = Ok b w'.
Proof.
  unfold bind. destruct (m w) as [a w1|s w1|w1]; try discriminate.
  intros E. exists a, w1. auto.
Qed.

Lemma bind_inv_Exit {A B} (m : M A) (k : A -> M B) w s w' :
  bind m k w = Exit s w' ->
  m w = Exit s w' \/ exists a w1, m w = Ok a w1 /\ k a w1 = Exit s w'.
Proof.
  unfold bind. destruct (m w) as [a w1|s1 w1|w1]; try discriminate.
  - intros E. right. exists a, w1. auto.
  - intros E. left. injection E as -> ->. reflexivity.
Qed.

Lemma last_call_snoc tr e :
  last_call (tr ++ [e]) = if is_log e then last_call tr else Some e.
Proof. unfold last_call. rewrite fold_left_app. reflexivity. Qed.

Lemma existsb_snoc {A} (f : A -> bool) l a :
  existsb f (l ++ [a]) = existsb f l || f a.
Proof. rewrite existsb_app. simpl. rewrite orb_false_r. reflexivity. Qed.

(** ** Option scanning *)

Lemma scan_exit_site {cfg : Common} me opts s e tr tr1 added :
  tr1 = tr ++ added ->
  existsb is_new_server added = false ->
  scan_exit me opts s e ->
  exists added' e',
    tr1 ++ [e] = tr ++ added' ++ [e'] /\
    existsb is_new_server added' = false /\
    scan_exit me opts s e'.
Proof.
  intros -> Hnl He. exists added, e. split; [|split; assumption].
  rewrite <- app_assoc. reflexivity.
Qed.

(** What one pass through the [switch] can do. *)
Lemma option_switch_cases {cfg : Common} o st w :
  match option_switch o st w with
  | Ok st' w' =>
      me (fst st') = me (fst st) /\
      is_NULL (device (fst st')) =
        (if opt_c o =? chr "d" then is_NULL (optarg o)
         else is_NULL (device (fst st))) /\
      (forward_port (fst st') =? -1) =
        (if opt_c o =? chr "F" then false else forward_port (fst st) =? -1) /\
      exists added,
        trace w' = trace w ++ added /\ existsb is_new_server added = false
  | Exit s w' =>
      exists added e,
        trace w' = trace w ++ added ++ [e] /\
        existsb is_new_server added = false /\
        scan_exit (me (fst st)) [o] s e
  | OutOfFuel _ => False
  end.
Proof.
  destruct o as [c a i], st as [arg g], w as [sc tr].
  unfold option_switch.
  cbn [opt_c optarg option_index fst snd].
  destruct (Z.eqb_spec c 0) as [->|N0].
  { destruct a; cbn; repeat split; added_events. }
  switch_on c (chr "c"). { cbn. repeat split. added_events. }
  switch_on c (chr "d"). { cbn. repeat split. added_events. }
  destruct (DEBUG_MODE && (c =? chr "D")) eqn:ED.
  { apply andb_prop in ED. destruct ED as [_ ED]. apply Z.eqb_eq in ED. subst c.
    cbn. repeat split. added_events. }
  destruct (DEBUG_MODE && (c =? chr "l")) eqn:EL.
  { apply andb_prop in EL. destruct EL as [EL Ec]. apply Z.eqb_eq in Ec. subst c.
    destruct sc as [h sc']. cbn [bind call script trace].
    destruct (is_NULLF (FILEp_of h)).
    - cbn [bind print emit log_exit exit script trace].
      apply (scan_exit_site _ _ _ _ tr _ [EFopen a "w" h] eq_refl eq_refl).
      apply SE_logfile. exact EL.
    - cbn. repeat split. added_events. }
  switch_on c (chr "F").
  { cbn [forward_port set_forward me].
    destruct (snd (name_and_port a (forward_host arg, forward_port arg)) =? -1) eqn:EF.
    - cbn [bind print emit exit script trace].
      apply (scan_exit_site _ _ _ _ tr _ [] (eq_sym (app_nil_r tr)) eq_refl).
      apply SE_port. reflexivity.
    - cbn. rewrite EF. repeat split. added_events. }
  switch_on c (chr "h").
  { cbn [bind usage print emit exit script trace].
    apply (scan_exit_site _ _ _ _ tr _ [] (eq_sym (app_nil_r tr)) eq_refl).
    apply SE_help. reflexivity. }
  switch_on c (chr "k"). { cbn. repeat split. added_events. }
  switch_on c (chr "M"). { cbn. repeat split. added_events. }
  switch_on c (chr "S"). { cbn. repeat split. added_events. }
  switch_on c (chr "V").
  { cbn [bind usage print emit exit script trace].
    apply (scan_exit_site _ _ _ _ tr _ [] (eq_sym (app_nil_r tr)) eq_refl).
    apply SE_version. reflexivity. }
  switch_on c (chr "p"). { cbn. repeat split. added_events. }
  switch_on c (chr "?"). { cbn. repeat split. added_events. }
  cbn. repeat split. added_events.
Qed.

Lemma scan_exit_head {cfg : Common} me o opts s e :
  scan_exit me [o] s e -> scan_exit me (o :: opts) s e.
Proof.
  intros He. destruct He as [Hh|Hv|Hf|file Hd].
  - apply SE_help. cbn [existsb] in *. rewrite orb_false_r in Hh.
    rewrite Hh. reflexivity.
  - apply SE_version. cbn [existsb] in *. rewrite orb_false_r in Hv.
    rewrite Hv. reflexivity.
  - apply SE_port. cbn [existsb] in *. rewrite orb_false_r in Hf.
    rewrite Hf. reflexivity.
  - apply SE_logfile. exact Hd.
Qed.

Lemma scan_exit_tail {cfg : Common} me o opts s e :
  scan_exit me opts s e -> scan_exit me (o :: opts) s e.
Proof.
  intros He. destruct He as [Hh|Hv|Hf|file Hd].
  - apply SE_help. cbn [existsb]. rewrite Hh. apply orb_true_r.
  - apply SE_version. cbn [existsb]. rewrite Hv. apply orb_true_r.
  - apply SE_port. cbn [existsb]. rewrite Hf. apply orb_true_r.
  - apply SE_logfile. exact Hd.
Qed.

Lemma scan_options_cases {cfg : Common} opts : forall st w,
  match scan_options opts st w with
  | Ok st' w' =>
      me (fst st') = me (fst st) /\
      (Forall (fun o => opt_c o <> -1 /\ (opt_c o = chr "d" -> optarg o <> None))
              opts ->
       is_NULL (device (fst st')) =
         is_NULL (device (fst st))
         && negb (existsb (fun o => opt_c o =? chr "d") opts) /\
       (forward_port (fst st') =? -1) =
         (forward_port (fst st) =? -1)
         && negb (existsb (fun o => opt_c o =? chr "F") opts)) /\
      exists added,
        trace w' = trace w ++ added /\ existsb is_new_server added = false
  | Exit s w' =>
      exists added e,
        trace w' = trace w ++ added ++ [e] /\
        existsb is_new_server added = false /\
        scan_exit (me (fst st)) opts s e
  | OutOfFuel _ => False
  end.
Proof.
  induction opts as [|o opts IH]; intros st w.
  - cbn. split; [reflexivity|]. split.
    + intros _. rewrite !andb_true_r. split; reflexivity.
    + exists []. split; [symmetry; apply app_nil_r | reflexivity].
  - cbn [scan_options].
    destruct (Z.eqb_spec (opt_c o) (-1)) as [E1|N1].
    + cbn. split; [reflexivity|]. split.
      * intros W. inversion W as [|? ? [W1 _] _]. contradiction.
      * exists []. split; [symmetry; apply app_nil_r | reflexivity].
    + unfold bind.
      pose proof (option_switch_cases o st w) as HS.
      destruct (option_switch o st w) as [st1 w1|s w1|w1]; [| |exact HS].
      2:{ destruct HS as (added & e & Htr & Hnl & Hs).
          exists added, e. split; [exact Htr|]. split; [exact Hnl|].
          apply scan_exit_head. exact Hs. }
      destruct HS as (Hme & Hdev & Hfp & add1 & Htr1 & Hnl1).
      specialize (IH st1 w1).
      destruct (scan_options opts st1 w1) as [st2 w2|s w2|w2]; [| |exact IH].
      * destruct IH as (Hme2 & Hinv & add2 & Htr2 & Hnl2).
        split; [congruence|]. split.
        { intros W. inversion W as [|? ? [_ Wd] W']; subst.
          destruct (Hinv W') as [Hd2 Hf2]. rewrite Hd2, Hf2, Hdev, Hfp.
          cbn [existsb].
          split.
          - destruct (Z.eqb_spec (opt_c o) (chr "d")) as [Ed|Nd].
            + destruct (optarg o);
                [cbn; rewrite andb_false_r; reflexivity
                | exfalso; apply (Wd Ed); reflexivity].
            + reflexivity.
          - destruct (opt_c o =? chr "F"); [|reflexivity].
            rewrite andb_false_r. reflexivity. }
        { exists (add1 ++ add2). split.
          - rewrite Htr2, Htr1, app_assoc. reflexivity.
          - rewrite existsb_app, Hnl1, Hnl2. reflexivity. }
      * destruct IH as (add2 & e & Htr2 & Hnl2 & Hs).
        exists (add1 ++ add2), e. split; [|split].
        { rewrite Htr2, Htr1, <- !app_assoc. reflexivity. }
        { rewrite existsb_app, Hnl1, Hnl2. reflexivity. }
        { rewrite <- Hme. apply scan_exit_tail. exact Hs. }
Qed.

Lemma parse_exit_site {cfg : Common} cl s e tr tr1 added :
  tr1 = tr ++ added ->
  existsb is_new_server added = false ->
  parse_exit cl s e ->
  exists added' e',
    tr1 ++ [e] = tr ++ added' ++ [e'] /\
    existsb is_new_server added' = false /\
    parse_exit cl s e'.
Proof.
  intros -> Hnl He. exists added, e. split; [|split; assumption].
  rewrite <- app_assoc. reflexivity.
Qed.

(** How [parse_arguments] ends: with the arguments, and then exactly one of
    --device and --forward-port was given; or with the process ended, at
    one of the places of [parse_exit]. *)
Lemma parse_arguments_cases {cfg : Common} cl g0 w :
  match parse_arguments cl g0 w with
  | Ok st w' =>
      (getopt_wf cl -> xorb (given "d" cl) (given "F" cl) = true) /\
      exists added,
        trace w' = trace w ++ added /\ existsb is_new_server added = false
  | Exit s w' =>
      exists added e,
        trace w' = trace w ++ added ++ [e] /\
        existsb is_new_server added = false /\
        parse_exit cl s e
  | OutOfFuel _ => False
  end.
Proof.
  unfold parse_arguments. unfold bind at 1.
  pose proof (scan_options_cases (options cl) (defaults (argv0 cl), g0) w) as HS.
  destruct (scan_options (options cl) (defaults (argv0 cl), g0) w)
    as [[arg1 g1] w1|s w1|w1]; [| |exact HS].
  2:{ destruct HS as (added & e & Htr & Hnl & Hs).
      exists added, e. split; [exact Htr|]. split; [exact Hnl|].
      apply PE_scan. exact Hs. }
  destruct HS as (Hme & Hinv & add1 & Htr1 & Hnl1).
  cbn [fst snd defaults me device forward_port is_NULL Z.eqb Pos.eqb andb] in *.
  assert (Hg : getopt_wf cl ->
               is_NULL (device arg1) = negb (given "d" cl) /\
               (forward_port arg1 =? -1) = negb (given "F" cl)).
  { intros W. exact (Hinv W). }
  clear Hinv.
  assert (Hchecks : forall arg,
    me arg = argv0 cl ->
    is_NULL (device arg) = is_NULL (device arg1) ->
    (forward_port arg =? -1) = (forward_port arg1 =? -1) ->
    match
      (when (is_NULL (device arg) && (forward_port arg =? -1))
         (print Stderr
            (me arg +++ ": one of --device or --forward-port must be used."
             +++ LF +++ me arg +++ ": try '" +++ me arg +++ " -help' for help."
             +++ LF) ;;
          exit 1) ;;
       when (negb (is_NULL (device arg)) && negb (forward_port arg =? -1))
         (print Stderr
            (me arg +++ ": --device can't be used together with "
             +++ "--forward-port." +++ LF
             +++ me arg +++ ": try '" +++ me arg +++ " --help' for help."
             +++ LF) ;;
          exit 1) ;;
       when ((debug_level g1 =? 0) && negb (is_NULLF (debug_file g1)))
         (print Stderr
            (me arg +++ ": --logfile can't be used without debugging" +++ LF) ;;
          exit 1) ;;
       when (Bool.eqb (is_NULL (device arg)) (forward_port arg =? -1)
             || (port arg =? -1)
             || negb (Bool.eqb (is_NULL (forward_host arg))
                               (forward_port arg =? -1)))
         (usage Stderr (me arg) ;; exit 1) ;;
       ret (arg, g1)) w1
    with
    | Ok st w' =>
        (getopt_wf cl -> xorb (given "d" cl) (given "F" cl) = true) /\
        exists added,
          trace w' = trace w ++ added /\ existsb is_new_server added = false
    | Exit s w' =>
        exists added e,
          trace w' = trace w ++ added ++ [e] /\
          existsb is_new_server added = false /\
          parse_exit cl s e
    | OutOfFuel _ => False
    end).
  { intros arg Hm Hd Hf. rewrite Hm.
    destruct (is_NULL (device arg)) eqn:Ed, (forward_port arg =? -1) eqn:Ef;
      cbn [andb negb when bind print emit exit ret trace script].
    - apply (parse_exit_site cl 1 _ (trace w) _ add1 Htr1 Hnl1).
      apply PE_neither. intros W. destruct (Hg W) as [Hd' Hf'].
      rewrite <- Hd in Hd'. rewrite <- Hf in Hf'.
      destruct (given "d" cl), (given "F" cl); try discriminate; split; reflexivity.
    - assert (Hxor : getopt_wf cl -> xorb (given "d" cl) (given "F" cl) = true).
      { intros W. destruct (Hg W) as [Hd' Hf'].
        rewrite <- Hd in Hd'. rewrite <- Hf in Hf'.
        destruct (given "d" cl), (given "F" cl); try discriminate; reflexivity. }
      destruct ((debug_level g1 =? 0) && negb (is_NULLF (debug_file g1)));
        cbn [andb negb when bind print emit exit ret trace script].
      { apply (parse_exit_site cl 1 _ (trace w) _ add1 Htr1 Hnl1).
        apply PE_logfile_without_debug. exact Hxor. }
      cbn [Bool.eqb orb].
      destruct ((port arg =? -1)
                || negb (Bool.eqb (is_NULL (forward_host arg)) false));
        cbn [andb negb when bind print emit exit ret trace script usage].
      { apply (parse_exit_site cl 1 _ (trace w) _ add1 Htr1 Hnl1).
        apply PE_usage. exact Hxor. }
      split; [exact Hxor|]. exists add1. split; assumption.
    - assert (Hxor : getopt_wf cl -> xorb (given "d" cl) (given "F" cl) = true).
      { intros W. destruct (Hg W) as [Hd' Hf'].
        rewrite <- Hd in Hd'. rewrite <- Hf in Hf'.
        destruct (given "d" cl), (given "F" cl); try discriminate; reflexivity. }
      destruct ((debug_level g1 =? 0) && negb (is_NULLF (debug_file g1)));
        cbn [andb negb when bind print emit exit ret trace script].
      { apply (parse_exit_site cl 1 _ (trace w) _ add1 Htr1 Hnl1).
        apply PE_logfile_without_debug. exact Hxor. }
      cbn [Bool.eqb orb].
      destruct ((port arg =? -1)
                || negb (Bool.eqb (is_NULL (forward_host arg)) true));
        cbn [andb negb when bind print emit exit ret trace script usage].
      { apply (parse_exit_site cl 1 _ (trace w) _ add1 Htr1 Hnl1).
        apply PE_usage. exact Hxor. }
      split; [exact Hxor|]. exists add1. split; assumption.
    - apply (parse_exit_site cl 1 _ (trace w) _ add1 Htr1 Hnl1).
      apply PE_both. intros W. destruct (Hg W) as [Hd' Hf'].
      rewrite <- Hd in Hd'. rewrite <- Hf in Hf'.
      destruct (given "d" cl), (given "F" cl); try discriminate; split; reflexivity. }
  destruct (operands cl) as [|p [|q ops]] eqn:Eops.
  - cbn [bind ret]. apply Hchecks; [exact Hme|reflexivity|reflexivity].
  - cbn [bind ret]. apply Hchecks; [exact Hme|reflexivity|reflexivity].
  - cbn [bind usage print emit exit trace script]. rewrite Hme.
    apply (parse_exit_site cl 1 _ (trace w) _ add1 Htr1 Hnl1).
    apply PE_operands. rewrite Eops. cbn [List.length]. lia.
Qed.

Lemma scan_options_app {cfg : Common} pre : forall l st w,
  Forall (fun o => opt_c o <> -1) pre ->
  scan_options (pre ++ l) st w = bind (scan_options pre st) (scan_options l) w.
Proof.
  induction pre as [|o pre IH]; intros l st w W.
  - reflexivity.
  - inversion W as [|? ? N W']; subst.
    cbn [scan_options app]. apply Z.eqb_neq in N. rewrite N.
    unfold bind at 1 2 3.
    destruct (option_switch o st w) as [st1 w1|s w1|w1]; try reflexivity.
    rewrite (IH l st1 w1 W'). reflexivity.
Qed.

(** [parse_arguments] ends the process with status 0 after printing on
    stdout, which takes --help or --version, or with status 1 after
    printing on stderr. *)
Lemma parse_exit_status {cfg : Common} cl s e :
  parse_exit cl s e ->
  (s = 0 /\ given "h" cl || given "V" cl = true /\
   exists text, e = EPrint Stdout text)
  \/ (s = 1 /\ exists text, e = EPrint Stderr text).
Proof.
  intros He. destruct He as [s e [Hh|Hv|Hf|file Hd]|Hops|Hn|Hb|Hl|Hu];
    try (right; split; [reflexivity|]; eexists; reflexivity).
  - left. split; [reflexivity|]. unfold given. rewrite Hh. split; [reflexivity|].
    eexists. reflexivity.
  - left. split; [reflexivity|]. unfold given. rewrite Hv, orb_true_r.
    split; [reflexivity|]. eexists. reflexivity.
Qed.

Lemma main_parse_exit {cfg : Common} fuel cl w s w' :
  parse_arguments cl initial_globals w = Exit s w' ->
  main fuel cl w = Exit s w'.
Proof. intros E. unfold main. apply bind_Exit. exact E. Qed.

(** ** C1: --device xor --forward-port *)

(** C1, as amended.  When neither or both of --device and --forward-port
    are among the options, the process ends before a listener is bound (no
    [tunnel_new_server] call).  It ends with status 1 after a usage hint on
    stderr (or, in a DEBUG_MODE build, after the message about a log file
    that cannot be opened); or, when --help or --version is among the
    options, possibly with status 0 after the usage text or the version
    line on stdout. *)
Theorem device_xor_forward_port {cfg : Common} fuel cl w :
  getopt_wf cl ->
  Bool.eqb (given "d" cl) (given "F" cl) = true ->
  exists status w' added f text,
    main fuel cl w = Exit status w' /\
    trace w' = trace w ++ added ++ [EPrint f text] /\
    existsb is_new_server added = false /\
    ((status = 1 /\ f = Stderr /\
      (In text (usage_hints (argv0 cl)) \/
       (DEBUG_MODE = true /\ exists file, text = logfile_error (argv0 cl) file)))
     \/
     (status = 0 /\ f = Stdout /\
      ((given "h" cl = true /\ text = usage_text (argv0 cl)) \/
       (given "V" cl = true /\ text = version_line)))).
Proof.
  intros W Hx.
  assert (Hnx : xorb (given "d" cl) (given "F" cl) = true -> False).
  { destruct (given "d" cl), (given "F" cl); discriminate. }
  pose proof (parse_arguments_cases cl initial_globals w) as HP.
  destruct (parse_arguments cl initial_globals w) as [st w1|s w1|w1] eqn:EP.
  - destruct HP as [Hxor _]. destruct (Hnx (Hxor W)).
  - destruct HP as (added & e & Htr & Hnl & Hs).
    apply main_parse_exit with (fuel := fuel) in EP.
    destruct Hs as [s e [Hh|Hv|Hf|file Hd]|Hops|Hn|Hb|Hl|Hu].
    + exists 0, w1, added, Stdout, (usage_text (argv0 cl)).
      repeat (split; [assumption|]). right. repeat (split; [reflexivity|]).
      left. split; [exact Hh|reflexivity].
    + exists 0, w1, added, Stdout, version_line.
      repeat (split; [assumption|]). right. repeat (split; [reflexivity|]).
      right. split; [exact Hv|reflexivity].
    + exists 1, w1, added, Stderr, (port_hint (argv0 cl)).
      repeat (split; [assumption|]). left. repeat (split; [reflexivity|]).
      left. cbn. tauto.
    + exists 1, w1, added, Stderr, (logfile_error (argv0 cl) file).
      repeat (split; [assumption|]). left. repeat (split; [reflexivity|]).
      right. split; [exact Hd|]. exists file. reflexivity.
    + exists 1, w1, added, Stderr, (usage_text (argv0 cl)).
      repeat (split; [assumption|]). left. repeat (split; [reflexivity|]).
      left. cbn. tauto.
    + exists 1, w1, added, Stderr, (neither_hint (argv0 cl)).
      repeat (split; [assumption|]). left. repeat (split; [reflexivity|]).
      left. cbn. tauto.
    + exists 1, w1, added, Stderr, (both_hint (argv0 cl)).
      repeat (split; [assumption|]). left. repeat (split; [reflexivity|]).
      left. cbn. tauto.
    + destruct (Hnx (Hl W)).
    + destruct (Hnx (Hu W)).
  - contradiction.
Qed.

(** Run with no option at all: the hint of line 209 on stderr, status 1
    and no [tunnel_new_server]. *)
Lemma device_xor_forward_port_witness :
  let cl := mkCmdline "hts" [] [] in
  getopt_wf cl /\
  Bool.eqb (given "d" cl) (given "F" cl) = true /\
  main (cfg := httptunnel) 1 cl (start [])
  = Exit 1 (World (Streams.const 0)
              [EPrint Stderr (neither_hint "hts")]) /\
  exists status w' added f text,
    main (cfg := httptunnel) 1 cl (start []) = Exit status w' /\
    trace w' = trace (start []) ++ added ++ [EPrint f text] /\
    existsb is_new_server added = false /\
    ((status = 1 /\ f = Stderr /\
      (In text (usage_hints (cfg := httptunnel) "hts") \/
       (DEBUG_MODE (Common := httptunnel) = true /\
        exists file, text = logfile_error "hts" file)))
     \/
     (status = 0 /\ f = Stdout /\
      ((given "h" cl = true /\ text = usage_text (cfg := httptunnel) "hts") \/
       (given "V" cl = true /\ text = version_line (cfg := httptunnel))))).
Proof.
  split; [constructor|]. split; [reflexivity|]. split; [reflexivity|].
  apply (device_xor_forward_port (cfg := httptunnel) 1 (mkCmdline "hts" [] []) (start [])).
  - constructor.
  - reflexivity.
Defined.

(** C1 as stated fails: with --help alone neither option is given, and the
    process exits with status 0. *)
Lemma device_xor_forward_port_help_counterexample :
  ~ (forall fuel cl w,
       getopt_wf cl ->
       Bool.eqb (given "d" cl) (given "F" cl) = true ->
       exists w',
         main (cfg := httptunnel) fuel cl w = Exit 1 w' /\
         existsb (is_print_to Stderr) (trace w') = true /\
         existsb is_new_server (trace w') = false).
Proof.
  intros Hclaim.
  destruct (Hclaim 1%nat (mkCmdline "hts" [opt "h" None] []) (start []))
    as (w' & E & _).
  - constructor; [|constructor].
    split; intros E; vm_compute in E; discriminate E.
  - reflexivity.
  - vm_compute in E. discriminate E.
Qed.

(** The runs behind it. *)
Example help_alone_status :
  status_of (main (cfg := httptunnel) 1 (mkCmdline "hts" [opt "h" None] []) (start []))
  = Some 0.
Proof. reflexivity. Qed.

Example no_option_run :
  main (cfg := httptunnel) 1 (mkCmdline "hts" [] []) (start [])
  = Exit 1 (World (Streams.const 0)
      [EPrint Stderr ("hts: one of --device or --forward-port must be used."
                      +++ LF +++ "hts: try 'hts -help' for help." +++ LF)]).
Proof. reflexivity. Qed.

Example both_options_run :
  main (cfg := httptunnel) 1
    (mkCmdline "hts" [opt "d" (Some "/dev/ttyS0"); opt "F" (Some "localhost:23")] [])
    (start [])
  = Exit 1 (World (Streams.const 0)
      [EPrint Stderr ("hts: --device can't be used together with --forward-port."
                      +++ LF +++ "hts: try 'hts --help' for help." +++ LF)]).
Proof. reflexivity. Qed.

(** In a DEBUG_MODE build, a log file that cannot be opened. *)
Example logfile_error_run :
  main (cfg := httptunnel_debug) 1
    (mkCmdline "hts" [opt "l" (Some "/var/log/hts")] []) (start [0])
  = Exit 1 (World (Streams.const 0)
      [EFopen (Some "/var/log/hts") "w" 0;
       EPrint Stderr ("hts: couldn't open file /var/log/hts for writing" +++ LF)]).
Proof. reflexivity. Qed.

(** ** C10: --help and --version *)

Lemma option_switch_help {cfg : Common} o st w :
  opt_c o = chr "h" ->
  option_switch o st w
  = Exit 0 (World (script w) (trace w ++ [EPrint Stdout (usage_text (me (fst st)))])).
Proof.
  intros E. unfold option_switch. rewrite E.
  destruct DEBUG_MODE; reflexivity.
Qed.

Lemma option_switch_version {cfg : Common} o st w :
  opt_c o = chr "V" ->
  option_switch o st w
  = Exit 0 (World (script w) (trace w ++ [EPrint Stdout version_line])).
Proof.
  intros E. unfold option_switch. rewrite E.
  destruct DEBUG_MODE; reflexivity.
Qed.

(** C10.  As soon as option scanning meets --help or --version the
    process exits with status 0, after the usage text or the version line
    on stdout: whatever the options before it were (as long as scanning
    got through them), whatever follows on the command line, and whether or
    not --device or --forward-port is given. *)
Theorem help_and_version_exit_0 {cfg : Common} fuel cl pre o post st w w1 :
  options cl = pre ++ o :: post ->
  Forall (fun o' => opt_c o' <> -1) pre ->
  scan_options pre (defaults (argv0 cl), initial_globals) w = Ok st w1 ->
  opt_c o = chr "h" \/ opt_c o = chr "V" ->
  main fuel cl w
  = Exit 0 (World (script w1)
              (trace w1 ++
               [EPrint Stdout
                  (if opt_c o =? chr "h" then usage_text (argv0 cl)
                   else version_line)])).
Proof.
  intros Hopts Wpre Hscan Hc.
  apply main_parse_exit. unfold parse_arguments. apply bind_Exit.
  rewrite Hopts, (scan_options_app pre (o :: post) _ _ Wpre).
  rewrite (bind_Ok _ _ _ _ _ Hscan).
  pose proof (scan_options_cases pre (defaults (argv0 cl), initial_globals) w) as HS.
  rewrite Hscan in HS. destruct HS as (Hme & _). cbn in Hme.
  cbn [scan_options].
  destruct Hc as [Hc|Hc]; rewrite Hc.
  - cbn [Z.eqb chr nat_of_ascii Z.of_nat Pos.of_succ_nat Pos.succ Pos.eqb].
    apply bind_Exit. rewrite (option_switch_help o st w1 Hc), Hme. reflexivity.
  - cbn [Z.eqb chr nat_of_ascii Z.of_nat Pos.of_succ_nat Pos.succ Pos.eqb].
    apply bind_Exit. exact (option_switch_version o st w1 Hc).
Qed.

(** `hts --help` and `hts --version`: status 0, nothing on stderr, although
    neither --device nor --forward-port is given. *)
Lemma help_and_version_exit_0_witness :
  let help := mkCmdline "hts" [opt "h" None] [] in
  let version := mkCmdline "hts" [opt "V" None] [] in
  given "d" help = false /\ given "F" help = false /\
  main (cfg := httptunnel) 1 help (start [])
  = Exit 0 (World (Streams.const 0)
              [EPrint Stdout (usage_text (cfg := httptunnel) "hts")]) /\
  main (cfg := httptunnel) 1 version (start [])
  = Exit 0 (World (Streams.const 0) [EPrint Stdout ("hts (httptunnel) 3.0" +++ LF)]).
Proof.
  split; [reflexivity|]. split; [reflexivity|]. split.
  - apply (help_and_version_exit_0 (cfg := httptunnel) 1
             (mkCmdline "hts" [opt "h" None] []) [] (opt "h" None) []
             (defaults (cfg := httptunnel) "hts", initial_globals)
             (start []) (start [])).
    + reflexivity.
    + constructor.
    + reflexivity.
    + left. reflexivity.
  - apply (help_and_version_exit_0 (cfg := httptunnel) 1
             (mkCmdline "hts" [opt "V" None] []) [] (opt "V" None) []
             (defaults (cfg := httptunnel) "hts", initial_globals)
             (start []) (start [])).
    + reflexivity.
    + constructor.
    + reflexivity.
    + right. reflexivity.
Defined.

(** ** Start-up *)

Lemma announce_run {cfg : Common} g w :
  announce g w = Ok tt (World (script w) (trace w ++ announce_events g)).
Proof.
  unfold announce, announce_events, start_logging, log_arguments.
  destruct w as [sc tr].
  destruct ((debug_level g =? 0) || negb (is_NULLF (debug_file g)));
    destruct DEBUG_MODE;
    try destruct (negb (debug_level g =? 0) && is_NULLF (debug_file g));
    unfold log, emit, bind, ret, when; cbn; rewrite <- ?app_assoc; reflexivity.
Qed.

Lemma main_reaches_serve {cfg : Common} fuel cl w st w1 tunnel w2 :
  parse_arguments cl initial_globals w = Ok st w1 ->
  startup (fst st) (World (script w1) (trace w1 ++ announce_events (snd st)))
  = Ok tunnel w2 ->
  main fuel cl w = (serve fuel (fst st) tunnel (-1) ;; shutdown tunnel) w2.
Proof.
  intros EP ES. unfold main.
  rewrite (bind_Ok _ _ _ _ _ EP).
  rewrite (bind_Ok _ _ _ _ _ (announce_run (snd st) w1)).
  rewrite (bind_Ok _ _ _ _ _ ES). reflexivity.
Qed.

(** [%d] prints the decimal numeral of its argument. *)
Lemma fmt_d_decimal z :
  option_map Z.of_int (NilZero.int_of_string (fmt_d z)) = Some z.
Proof.
  unfold fmt_d. rewrite NilZero.isi.
  - cbn. rewrite DecimalZ.of_to. reflexivity.
  - destruct z; cbn; try discriminate.
    intros E. injection E as E. revert E. apply DecimalPos.Unsigned.to_uint_nonnil.
  - destruct z; cbn; try discriminate.
    intros E. injection E as E. revert E. apply DecimalPos.Unsigned.to_uint_nonnil.
Qed.

Lemma to_int_in_int z : in_int z -> to_int z = z.
Proof.
  unfold in_int, INT_MIN, INT_MAX, to_int, wrap. intros Hz.
  rewrite Z.mod_small; lia.
Qed.

Lemma set_options_run {cfg : Common} arg tunnel r1 r2 r3 rest tr :
  set_options arg tunnel (World (Cons r1 (Cons r2 (Cons r3 rest))) tr)
  = Ok tt (World rest
      (tr ++ setopt_events tunnel "strict_content_length"
               (strict_content_length arg) r1
          ++ setopt_events tunnel "keep_alive" (keep_alive arg) r2
          ++ setopt_events tunnel "max_connection_age"
               (max_connection_age arg) r3)).
Proof.
  unfold set_options, setopt_events, bind, call, when, log, emit, ret.
  cbn [script trace].
  destruct (r1 =? -1); cbn [script trace];
    destruct (r2 =? -1); cbn [script trace];
    destruct (r3 =? -1); cbn [script trace];
    rewrite <- ?app_assoc; reflexivity.
Qed.

(** The PID file part never ends the process. *)
Lemma write_pid_file_run {cfg : Common} arg w :
  exists w' added,
    write_pid_file arg w = Ok tt w' /\
    trace w' = trace w ++ added /\
    match pid_filename arg, script w with
    | None, _ => added = [] /\ script w' = script w
    | Some path, Cons h (Cons pid (Cons r rest)) =>
        if h =? 0 then True
        else exists after,
          added = pid_file_events path h pid r ++ after /\
          existsb is_fprintf after = false /\
          existsb is_accept after = false /\
          (r = 0 -> after = [] /\ script w' = rest)
    end.
Proof.
  unfold write_pid_file. destruct w as [sc tr].
  destruct (pid_filename arg) as [path|].
  - destruct sc as [h [pid [r [e rest]]]].
    unfold bind, call, print, emit, ret; cbn [script trace].
    destruct (h =? 0) eqn:Eh.
    + cbn [script trace]. eexists. eexists. split; [reflexivity|]. split; [|exact I].
      cbn [trace]. rewrite <- !app_assoc. reflexivity.
    + cbn [script trace]. destruct (r =? 0) eqn:Er.
      * eexists. eexists. split; [reflexivity|]. split.
        { cbn [trace]. rewrite <- !app_assoc. reflexivity. }
        exists []. split; [reflexivity|]. split; [reflexivity|].
        split; [reflexivity|]. intros _. split; reflexivity.
      * cbn [script trace]. eexists. eexists. split; [reflexivity|]. split.
        { cbn [trace]. rewrite <- !app_assoc. reflexivity. }
        eexists. split; [reflexivity|]. split; [reflexivity|].
        split; [reflexivity|]. intros ->. discriminate Er.
  - exists (World sc tr), []. split; [reflexivity|]. split.
    + symmetry. apply app_nil_r.
    + split; reflexivity.
Qed.

Lemma startup_run {cfg : Common} arg t r1 r2 r3 rest tr :
  t <> 0 ->
  startup arg (World (Cons t (Cons r1 (Cons r2 (Cons r3 rest)))) tr)
  = (write_pid_file arg ;; ret t)
      (World rest
         (tr ++ [ETunnelNewServer (port arg) (content_length arg) t]
             ++ setopt_events t "strict_content_length"
                  (strict_content_length arg) r1
             ++ setopt_events t "keep_alive" (keep_alive arg) r2
             ++ setopt_events t "max_connection_age" (max_connection_age arg) r3
             ++ [ESignalSIGPIPE (if DEBUG_MODE then "log_sigpipe" else "SIG_IGN")])).
Proof.
  intros Ht. apply Z.eqb_neq in Ht.
  unfold startup, create_tunnel.
  unfold bind at 1 2. unfold call at 1. cbn [script trace]. rewrite Ht.
  unfold ret at 1. unfold bind at 1.
  rewrite set_options_run. unfold bind at 1. unfold ignore_sigpipe, emit at 1.
  cbn [script trace]. rewrite <- !app_assoc. reflexivity.
Qed.

Lemma startup_no_tunnel {cfg : Common} arg rest tr :
  startup arg (World (Cons 0 rest) tr)
  = Exit 1 (World rest (tr ++ [ETunnelNewServer (port arg) (content_length arg) 0;
                               ELog LogError "couldn't create tunnel"])).
Proof.
  unfold startup, create_tunnel, bind, call, log, emit, log_exit, exit.
  cbn [script trace Z.eqb]. rewrite <- app_assoc. reflexivity.
Qed.

(** ** C4: a failed tunnel_setopt *)

(** C4, as amended.  A bad combination of --device and --forward-port is
    fatal: the process exits with status 1 (when no --help or --version
    ends it with 0 first).  A [tunnel_setopt] that returns -1 is not: it is
    logged at debug level, and whatever the three calls return the process
    goes on to the accept loop. *)
Theorem setopt_failure_is_logged_only {cfg : Common} fuel cl w :
  (getopt_wf cl ->
   Bool.eqb (given "d" cl) (given "F" cl) = true ->
   given "h" cl || given "V" cl = false ->
   exists w', main fuel cl w = Exit 1 w') /\
  (forall st w1 t r1 r2 r3 rest,
     parse_arguments cl initial_globals w = Ok st w1 ->
     script w1 = Cons t (Cons r1 (Cons r2 (Cons r3 rest))) ->
     t <> 0 ->
     exists w2 pid_events,
       main fuel cl w = (serve fuel (fst st) t (-1) ;; shutdown t) w2 /\
       trace w2
       = trace w1 ++ announce_events (snd st)
           ++ [ETunnelNewServer (port (fst st)) (content_length (fst st)) t]
           ++ setopt_events t "strict_content_length"
                (strict_content_length (fst st)) r1
           ++ setopt_events t "keep_alive" (keep_alive (fst st)) r2
           ++ setopt_events t "max_connection_age"
                (max_connection_age (fst st)) r3
           ++ [ESignalSIGPIPE (if DEBUG_MODE then "log_sigpipe" else "SIG_IGN")]
           ++ pid_events).
Proof.
  split.
  - intros W Hx Hhv.
    pose proof (parse_arguments_cases cl initial_globals w) as HP.
    destruct (parse_arguments cl initial_globals w) as [st w1|s w1|w1] eqn:EP.
    + destruct HP as [Hxor _]. specialize (Hxor W).
      destruct (given "d" cl), (given "F" cl); discriminate.
    + destruct HP as (added & e & _ & _ & Hs).
      destruct (parse_exit_status cl s e Hs) as [(_ & Hhv' & _)|(-> & _)].
      * rewrite Hhv in Hhv'. discriminate.
      * exists w1. apply main_parse_exit. exact EP.
    + contradiction.
  - intros st w1 t r1 r2 r3 rest EP Hsc Ht.
    destruct w1 as [sc1 tr1]. cbn [script] in Hsc. subst sc1.
    pose proof (startup_run (fst st) t r1 r2 r3 rest
                  (tr1 ++ announce_events (snd st)) Ht) as ES.
    match type of ES with _ = _ ?w => 
      destruct (write_pid_file_run (fst st) w) as (w2 & added & EW & Htr & _)
    end.
    rewrite (bind_Ok _ _ _ _ _ EW) in ES. unfold ret in ES.
    exists w2, added. split.
    + apply (main_reaches_serve fuel cl w st _ t w2 EP). exact ES.
    + rewrite Htr. cbn [trace]. rewrite <- !app_assoc. reflexivity.
Qed.

(** `hts` alone is fatal; `hts -d /dev/ttyS0` with three failing
    [tunnel_setopt] calls goes on to the accept loop. *)
Lemma setopt_failure_is_logged_only_witness :
  let bad := mkCmdline "hts" [] [] in
  let cl := mkCmdline "hts" [opt "d" (Some "/dev/ttyS0")] [] in
  let arg := set_device (defaults (cfg := httptunnel) "hts") (Some "/dev/ttyS0") in
  (exists w', main (cfg := httptunnel) 1 bad (start []) = Exit 1 w') /\
  (exists w2 pid_events,
     main (cfg := httptunnel) 1 cl (start [1; -1; -1; -1])
     = (serve (cfg := httptunnel) 1 arg 1 (-1) ;; shutdown 1) w2 /\
     trace w2
     = [] ++ announce_events (cfg := httptunnel) initial_globals
          ++ [ETunnelNewServer 8888 65536 1]
          ++ setopt_events 1 "strict_content_length" 0 (-1)
          ++ setopt_events 1 "keep_alive" 5 (-1)
          ++ setopt_events 1 "max_connection_age" 300 (-1)
          ++ [ESignalSIGPIPE "SIG_IGN"]
          ++ pid_events).
Proof.
  split.
  - apply (proj1 (setopt_failure_is_logged_only (cfg := httptunnel) 1
                    (mkCmdline "hts" [] []) (start []))).
    + constructor.
    + reflexivity.
    + reflexivity.
  - apply (proj2 (setopt_failure_is_logged_only (cfg := httptunnel) 1
                    (mkCmdline "hts" [opt "d" (Some "/dev/ttyS0")] [])
                    (start [1; -1; -1; -1]))
             (set_device (defaults (cfg := httptunnel) "hts") (Some "/dev/ttyS0"),
              initial_globals)
             (start [1; -1; -1; -1]) 1 (-1) (-1) (-1) (Streams.const 0)).
    + reflexivity.
    + reflexivity.
    + discriminate.
Defined.

(** C4 as stated fails: the three calls return -1 and the process has not
    exited with status 1 but accepted a peer. *)
Lemma setopt_failure_counterexample :
  ~ (forall o : outcome unit,
       o = setopt_failure_run ->
       (exists name value,
          In (ETunnelSetopt 1 name value (-1)) (trace (world_of o))) ->
       status_of o = Some 1 /\ existsb is_accept (trace (world_of o)) = false).
Proof.
  intros Hclaim.
  destruct (Hclaim setopt_failure_run eq_refl) as [Hs _].
  - exists "keep_alive", 5. vm_compute. tauto.
  - vm_compute in Hs. discriminate Hs.
Qed.

Example setopt_failure_run_trace :
  trace (world_of setopt_failure_run)
  = announce_events (cfg := httptunnel) initial_globals
    ++ [ETunnelNewServer 8888 65536 1;
        ETunnelSetopt 1 "strict_content_length" 0 (-1);
        ELog LogDebug "tunnel_setopt strict_content_length error: %s";
        ETunnelSetopt 1 "keep_alive" 5 (-1);
        ELog LogDebug "tunnel_setopt keep_alive error: %s";
        ETunnelSetopt 1 "max_connection_age" 300 (-1);
        ELog LogDebug "tunnel_setopt max_connection_age error: %s";
        ESignalSIGPIPE "SIG_IGN";
        ELog LogDebug "waiting for tunnel connection";
        EOpenDevice "/dev/ttyS0" 3;
        ELog LogDebug ("open_device (" +++ DQ +++ "%s" +++ DQ +++ ") = %d");
        ETunnelAccept 1 0;
        ELog LogNotice "connected to FIXME:hostname:port";
        ETime 100;
        ETunnelPollinFd 1 9;
        ETime 100;
        ELog LogAnnoying "poll () ...";
        EPoll 3 9 5000 0 0 0;
        ELog LogAnnoying "... = %d";
        ELog LogVerbose "poll() timed out";
        ETunnelPadding 1 1;
        ETime 105].
Proof. reflexivity. Qed.

(** ** C8: the PID file *)

Lemma announce_events_quiet {cfg : Common} g :
  existsb is_fprintf (announce_events g) = false /\
  existsb is_accept (announce_events g) = false.
Proof.
  unfold announce_events.
  destruct ((debug_level g =? 0) || negb (is_NULLF (debug_file g))), DEBUG_MODE;
    split; reflexivity.
Qed.

Lemma setopt_events_quiet tunnel name value r :
  existsb is_fprintf (setopt_events tunnel name value r) = false /\
  existsb is_accept (setopt_events tunnel name value r) = false.
Proof. unfold setopt_events. destruct (r =? -1); split; reflexivity. Qed.

(** C8.  With --pid-file PATH, when [fopen] succeeds the process writes
    to that stream the decimal numeral of what [getpid] returned and a
    newline, once, and nothing else; it does so before the accept loop:
    [main] enters [serve] with these calls already made and no
    [tunnel_accept] yet. *)
Theorem pid_file_written {cfg : Common} fuel cl w st w1 path t r1 r2 r3 h pid r rest :
  parse_arguments cl initial_globals w = Ok st w1 ->
  pid_filename (fst st) = Some path ->
  script w1
  = Cons t (Cons r1 (Cons r2 (Cons r3 (Cons h (Cons pid (Cons r rest)))))) ->
  t <> 0 -> h <> 0 -> in_int pid ->
  exists w2 before after,
    main fuel cl w = (serve fuel (fst st) t (-1) ;; shutdown t) w2 /\
    trace w2
    = trace w1 ++ before
        ++ [EFopen (Some path) "w+" h; EGetpid pid;
            EFprintf h (fmt_d pid +++ LF); EFclose h r]
        ++ after /\
    existsb is_fprintf (before ++ after) = false /\
    existsb is_accept (before ++ after) = false /\
    option_map Z.of_int (NilZero.int_of_string (fmt_d pid)) = Some pid.
Proof.
  intros EP Hpid Hsc Ht Hh Hin.
  destruct w1 as [sc1 tr1]. cbn [script] in Hsc. subst sc1.
  pose proof (startup_run (fst st) t r1 r2 r3 (Cons h (Cons pid (Cons r rest)))
                (tr1 ++ announce_events (snd st)) Ht) as ES.
  match type of ES with _ = _ ?w0 =>
    destruct (write_pid_file_run (fst st) w0) as (w2 & added & EW & Htr & Hadd)
  end.
  rewrite Hpid in Hadd. cbn [script] in Hadd.
  apply Z.eqb_neq in Hh. rewrite Hh in Hadd.
  destruct Hadd as (after & -> & Hf & Ha & _).
  rewrite (bind_Ok _ _ _ _ _ EW) in ES. unfold ret in ES.
  exists w2.
  exists (announce_events (snd st)
          ++ [ETunnelNewServer (port (fst st)) (content_length (fst st)) t]
          ++ setopt_events t "strict_content_length"
               (strict_content_length (fst st)) r1
          ++ setopt_events t "keep_alive" (keep_alive (fst st)) r2
          ++ setopt_events t "max_connection_age" (max_connection_age (fst st)) r3
          ++ [ESignalSIGPIPE (if DEBUG_MODE then "log_sigpipe" else "SIG_IGN")]).
  exists after. split; [|split; [|split; [|split]]].
  - apply (main_reaches_serve fuel cl w st _ t w2 EP). exact ES.
  - rewrite Htr. unfold pid_file_events. rewrite (to_int_in_int pid Hin).
    cbn [trace]. rewrite <- !app_assoc. reflexivity.
  - rewrite !existsb_app, Hf, (proj1 (announce_events_quiet _)),
      !(proj1 (setopt_events_quiet _ _ _ _)). reflexivity.
  - rewrite !existsb_app, Ha, (proj2 (announce_events_quiet _)),
      !(proj2 (setopt_events_quiet _ _ _ _)). reflexivity.
  - apply fmt_d_decimal.
Qed.

(** `hts -d /dev/ttyS0 -p /run/hts.pid` as process 4242: the file gets
    "4242" and a newline. *)
Lemma pid_file_written_witness :
  let cl := mkCmdline "hts"
              [opt "d" (Some "/dev/ttyS0"); opt "p" (Some "/run/hts.pid")] [] in
  let arg := set_pid_filename
               (set_device (defaults (cfg := httptunnel) "hts") (Some "/dev/ttyS0"))
               (Some "/run/hts.pid") in
  let w := start [1; 0; 0; 0; 7; 4242; 0] in
  fmt_d 4242 +++ LF = "4242" +++ LF /\
  exists w2 before after,
    main (cfg := httptunnel) 1 cl w
    = (serve (cfg := httptunnel) 1 arg 1 (-1) ;; shutdown 1) w2 /\
    trace w2
    = [] ++ before
        ++ [EFopen (Some "/run/hts.pid") "w+" 7; EGetpid 4242;
            EFprintf 7 (fmt_d 4242 +++ LF); EFclose 7 0]
        ++ after /\
    existsb is_fprintf (before ++ after) = false /\
    existsb is_accept (before ++ after) = false /\
    option_map Z.of_int (NilZero.int_of_string (fmt_d 4242)) = Some 4242.
Proof.
  split; [reflexivity|].
  apply (pid_file_written (cfg := httptunnel) 1
           (mkCmdline "hts"
              [opt "d" (Some "/dev/ttyS0"); opt "p" (Some "/run/hts.pid")] [])
           (start [1; 0; 0; 0; 7; 4242; 0])
           (set_pid_filename
              (set_device (defaults (cfg := httptunnel) "hts") (Some "/dev/ttyS0"))
              (Some "/run/hts.pid"), initial_globals)
           (start [1; 0; 0; 0; 7; 4242; 0])
           "/run/hts.pid" 1 0 0 0 7 4242 0 (Streams.const 0)).
  - reflexivity.
  - reflexivity.
  - reflexivity.
  - discriminate.
  - discriminate.
  - unfold in_int, INT_MIN, INT_MAX. lia.
Defined.

(** ** The poll timeout *)

Lemma to_int_range z : INT_MIN <= to_int z <= INT_MAX.
Proof.
  unfold to_int, wrap, INT_MIN, INT_MAX.
  pose proof (Z.mod_pos_bound (z + 2 ^ (32 - 1)) (2 ^ 32) ltac:(lia)). lia.
Qed.

Lemma to_time_t_shift z : exists k, to_time_t z = z + k * 2 ^ 64.
Proof.
  exists (- ((z + 2 ^ (64 - 1)) / 2 ^ 64)).
  unfold to_time_t, wrap. rewrite Z.mod_eq by lia. lia.
Qed.

Lemma to_int_shift z k : to_int (z + k * 2 ^ 64) = to_int z.
Proof.
  unfold to_int, wrap.
  replace (z + k * 2 ^ 64 + 2 ^ (32 - 1))
    with (z + 2 ^ (32 - 1) + (k * 2 ^ 32) * 2 ^ 32) by lia.
  rewrite Z_mod_plus_full. reflexivity.
Qed.

(** The value is computed modulo [2^64] and stored modulo [2^32]: only the
    second shows. *)
Lemma poll_timeout_to_int keep_alive t last :
  poll_timeout keep_alive t last
  = Z.max 0 (to_int (1000 * (keep_alive - (t - last)))).
Proof.
  unfold poll_timeout.
  destruct (to_time_t_shift (t - last)) as [k1 ->].
  destruct (to_time_t_shift (keep_alive - (t - last + k1 * 2 ^ 64))) as [k2 ->].
  destruct (to_time_t_shift
              (1000 * (keep_alive - (t - last + k1 * 2 ^ 64) + k2 * 2 ^ 64)))
    as [k3 ->].
  rewrite to_int_shift.
  replace (1000 * (keep_alive - (t - last + k1 * 2 ^ 64) + k2 * 2 ^ 64))
    with (1000 * (keep_alive - (t - last)) + (1000 * (k2 - k1)) * 2 ^ 64) by lia.
  rewrite to_int_shift.
  destruct (Z.ltb_spec (to_int (1000 * (keep_alive - (t - last)))) 0); lia.
Qed.

(** When the product fits an [int], the timeout is the remaining part of
    the keep-alive interval in milliseconds, or 0 when it is over. *)
Lemma poll_timeout_in_range keep_alive t last :
  in_int (1000 * (keep_alive - (t - last))) ->
  poll_timeout keep_alive t last = Z.max 0 (keep_alive - (t - last)) * 1000.
Proof.
  intros Hin. rewrite poll_timeout_to_int, (to_int_in_int _ Hin). lia.
Qed.

(** The wait never goes beyond the keep-alive interval, unless the
    interval was exceeded by more than [2^31] ms already. *)
Lemma poll_timeout_bound keep_alive t last :
  INT_MIN <= 1000 * (keep_alive - (t - last)) ->
  0 <= poll_timeout keep_alive t last
    <= Z.max 0 (1000 * (keep_alive - (t - last))).
Proof.
  intros Hlo. rewrite poll_timeout_to_int.
  pose proof (to_int_range (1000 * (keep_alive - (t - last)))) as Hr.
  destruct (Z.le_gt_cases (1000 * (keep_alive - (t - last))) INT_MAX) as [Hhi|Hhi].
  - rewrite to_int_in_int by (unfold in_int; lia). lia.
  - lia.
Qed.

(** When the product is too large for an [int], the timeout is smaller
    than the remaining part of the keep-alive interval. *)
Lemma poll_timeout_overflow keep_alive t last :
  INT_MAX < 1000 * (keep_alive - (t - last)) ->
  poll_timeout keep_alive t last < Z.max 0 (keep_alive - (t - last)) * 1000.
Proof.
  intros Hhi. rewrite poll_timeout_to_int.
  pose proof (to_int_range (1000 * (keep_alive - (t - last)))) as Hr.
  unfold INT_MAX, INT_MIN in *. lia.
Qed.

(** ** The bridge loop *)

(** One pass of the loop, by what [poll] returned. *)
Lemma bridge_pass {cfg : Common} fuel arg tunnel fd last pfd t n r0 r1 rest tr :
  bridge (S fuel) arg tunnel fd FALSE last
    (World (Cons pfd (Cons t (Cons n (Cons r0 (Cons r1 rest))))) tr)
  = let tr1 := tr ++ poll_events (keep_alive arg) tunnel fd last pfd t n r0 r1 in
    if n =? -1 then
      Exit 1 (World rest (tr1 ++ [ELog LogError ("poll error: %s" +++ LF)]))
    else if n =? 0 then
      match rest with
      | Cons t' rest' =>
          bridge fuel arg tunnel fd FALSE t'
            (World rest' (tr1 ++ [ELog LogVerbose "poll() timed out";
                                  ETunnelPadding tunnel 1; ETime t']))
      end
    else
      match rest with
      | Cons c1 (Cons c2 rest') =>
          if Z.land r0 POLLIN =? 0 then
            bridge fuel arg tunnel fd c2 last
              (World rest' (tr1 ++ input_events tunnel fd r0 r1 FALSE c1 c2))
          else
            match rest' with
            | Cons t' rest'' =>
                bridge fuel arg tunnel fd c2 t'
                  (World rest'' (tr1 ++ input_events tunnel fd r0 r1 FALSE c1 c2
                                     ++ [ETime t']))
            end
      end.
Proof.
  cbn [bridge]. change (FALSE =? 0) with true. cbv iota.
  unfold poll_events, input_events.
  unfold bind, call, call3, log, emit, ret, log_exit, exit.
  cbn [script trace fst snd].
  destruct (n =? -1).
  - cbn [script trace]. rewrite <- !app_assoc. reflexivity.
  - destruct (n =? 0).
    + destruct rest as [t' rest']. cbn [script trace].
      rewrite <- !app_assoc. reflexivity.
    + destruct rest as [c1 [c2 rest']]. cbn [script trace].
      destruct (Z.land r0 POLLIN =? 0).
      * cbn [script trace]. rewrite <- !app_assoc. reflexivity.
      * destruct rest' as [t' rest'']. cbn [script trace].
        rewrite <- !app_assoc. reflexivity.
Qed.

Lemma bridge_closed {cfg : Common} fuel arg tunnel fd closed last w :
  closed <> 0 -> bridge fuel arg tunnel fd closed last w = Ok tt w.
Proof.
  intros Hc. apply Z.eqb_neq in Hc. destruct fuel; cbn [bridge]; rewrite Hc; reflexivity.
Qed.

(** ** C3: the value of the timeout *)

(** C3 fails on the code for a large keep-alive: with `-k 3000000` the
    product 3000000000 does not fit the [int] it is stored in, the stored
    value is negative and is raised to 0, so [poll] is called with a
    timeout of 0 where the claim has 3000000000 ms. *)
Theorem keep_alive_overflow_polls_with_timeout_0 :
  let cl := mkCmdline "hts"
              [opt "k" (Some "3000000"); opt "d" (Some "/dev/ttyS0")] [] in
  let o := main (cfg := httptunnel) 2 cl
             (start [1; 0; 0; 0; 3; 0; 100; 9; 100; 0; 0; 0; 100]) in
  In (EPoll 3 9 0 0 0 0) (trace (world_of o)) /\
  poll_timeout 3000000 100 100 = 0 /\
  Z.max 0 (3000000 - (100 - 100)) * 1000 = 3000000000.
Proof.
  split; [|split].
  - vm_compute. tauto.
  - reflexivity.
  - reflexivity.
Qed.

(** ** Where the process can end *)

Lemma last_call_app tr l :
  last_call (tr ++ l)
  = match last_call l with Some e => Some e | None => last_call tr end.
Proof.
  induction l as [|e l IH] using rev_ind.
  - rewrite app_nil_r. reflexivity.
  - rewrite app_assoc, !last_call_snoc, IH.
    destruct (is_log e); reflexivity.
Qed.

Lemma bridge_exit {cfg : Common} fuel arg tunnel fd : forall closed last w s w',
  bridge fuel arg tunnel fd closed last w = Exit s w' -> fatal_exit s w'.
Proof.
  induction fuel as [|fuel IH]; intros closed last w s w' E.
  - cbn [bridge] in E. destruct (closed =? 0); discriminate E.
  - destruct (Z.eqb_spec closed 0) as [->|Hc].
    + destruct w as [[pfd [t [n [r0 [r1 rest]]]]] tr].
      change 0 with FALSE in E. rewrite bridge_pass in E. cbv zeta in E.
      destruct (n =? -1) eqn:En.
      * injection E as <- <-. split; [reflexivity|].
        exists (EPoll fd pfd (poll_timeout (keep_alive arg) t last) n r0 r1).
        cbn [trace]. rewrite <- app_assoc, last_call_app. split; [reflexivity|].
        exact En.
      * destruct (n =? 0).
        { destruct rest as [t' rest']. exact (IH _ _ _ _ _ E). }
        destruct rest as [c1 [c2 rest']].
        destruct (Z.land r0 POLLIN =? 0).
        { exact (IH _ _ _ _ _ E). }
        destruct rest' as [t' rest'']. exact (IH _ _ _ _ _ E).
    + rewrite (bridge_closed _ _ _ _ _ _ _ Hc) in E. discriminate E.
Qed.

(** The loop is left only once a [handle_input] call has left a nonzero
    value in [closed]. *)
Lemma bridge_ok {cfg : Common} fuel arg tunnel fd : forall last w w',
  bridge fuel arg tunnel fd FALSE last w = Ok tt w' ->
  exists tr r1 c1 c2 tail,
    trace w' = tr ++ EHandleInput "tunnel" tunnel fd r1 "handle_tunnel_input" c1 c2
                  :: tail /\
    c2 <> 0 /\ (tail = [] \/ exists t, tail = [ETime t]).
Proof.
  induction fuel as [|fuel IH]; intros last w w' E.
  - discriminate E.
  - destruct w as [[pfd [t [n [r0 [r1 rest]]]]] tr].
    rewrite bridge_pass in E. cbv zeta in E.
    destruct (n =? -1); [discriminate E|].
    destruct (n =? 0).
    { destruct rest as [t' rest']. exact (IH _ _ _ E). }
    destruct rest as [c1 [c2 rest']].
    destruct (Z.eqb_spec c2 0) as [->|Hc2].
    + destruct (Z.land r0 POLLIN =? 0).
      * exact (IH _ _ _ E).
      * destruct rest' as [t' rest'']. exact (IH _ _ _ E).
    + destruct (Z.land r0 POLLIN =? 0).
      * rewrite (bridge_closed _ _ _ _ _ _ _ Hc2) in E. injection E as <-.
        exists ((tr ++ poll_events (keep_alive arg) tunnel fd last pfd t n r0 r1)
                ++ [ELog LogAnnoying "revents[0] = %x, revents[1] = %x, POLLIN = %x";
                    EHandleInput "device or port" tunnel fd r0
                      "handle_device_input" FALSE c1]).
        exists r1, c1, c2, []. split; [|split; [exact Hc2|left; reflexivity]].
        cbn [trace]. unfold input_events. rewrite <- !app_assoc. reflexivity.
      * destruct rest' as [t' rest''].
        rewrite (bridge_closed _ _ _ _ _ _ _ Hc2) in E. injection E as <-.
        exists ((tr ++ poll_events (keep_alive arg) tunnel fd last pfd t n r0 r1)
                ++ [ELog LogAnnoying "revents[0] = %x, revents[1] = %x, POLLIN = %x";
                    EHandleInput "device or port" tunnel fd r0
                      "handle_device_input" FALSE c1]).
        exists r1, c1, c2, [ETime t'].
        split; [|split; [exact Hc2|right; exists t'; reflexivity]].
        cbn [trace]. unfold input_events. rewrite <- !app_assoc. reflexivity.
Qed.

Lemma await_peer_forward arg tunnel fd r rest tr :
  device arg = None ->
  await_peer arg tunnel fd (World (Cons r rest) tr)
  = Ok (fd, r)
      (World rest (tr ++ [ELog LogDebug "waiting for tunnel connection";
                          ETunnelAccept tunnel r])).
Proof.
  intros Hd. unfold await_peer, open_downstream_device. rewrite Hd.
  unfold bind, call, log, emit, ret. cbn [script trace].
  rewrite <- !app_assoc. reflexivity.
Qed.

Lemma await_peer_device arg tunnel fd dev d r rest tr :
  device arg = Some dev -> d <> -1 ->
  await_peer arg tunnel fd (World (Cons d (Cons r rest)) tr)
  = Ok (d, r)
      (World rest
         (tr ++ [ELog LogDebug "waiting for tunnel connection";
                 EOpenDevice dev d;
                 ELog LogDebug ("open_device (" +++ DQ +++ "%s" +++ DQ +++ ") = %d");
                 ETunnelAccept tunnel r])).
Proof.
  intros Hd Hn. apply Z.eqb_neq in Hn.
  unfold await_peer, open_downstream_device. rewrite Hd.
  unfold bind, call, log, emit, ret. cbn [script trace]. rewrite Hn.
  cbn [script trace]. rewrite <- !app_assoc. reflexivity.
Qed.

Lemma await_peer_device_fails arg tunnel fd dev rest tr :
  device arg = Some dev ->
  await_peer arg tunnel fd (World (Cons (-1) rest) tr)
  = Exit 1
      (World rest
         (tr ++ [ELog LogDebug "waiting for tunnel connection";
                 EOpenDevice dev (-1);
                 ELog LogDebug ("open_device (" +++ DQ +++ "%s" +++ DQ +++ ") = %d");
                 ELog LogError "couldn't open %s: %s"])).
Proof.
  intros Hd. unfold await_peer, open_downstream_device. rewrite Hd.
  unfold bind, call, log, emit, ret, log_exit, exit.
  cbn [script trace Z.eqb Pos.eqb]. cbn [script trace].
  rewrite <- !app_assoc. reflexivity.
Qed.

Lemma await_peer_exit arg tunnel fd w s w' :
  await_peer arg tunnel fd w = Exit s w' -> fatal_exit s w'.
Proof.
  destruct w as [[d [r rest]] tr]. destruct (device arg) as [dev|] eqn:Hd.
  - destruct (Z.eqb_spec d (-1)) as [->|Hn].
    + rewrite (await_peer_device_fails _ _ _ dev _ _ Hd). intros E.
      injection E as <- <-. split; [reflexivity|].
      exists (EOpenDevice dev (-1)). cbn [trace]. rewrite last_call_app.
      split; reflexivity.
    + rewrite (await_peer_device _ _ _ dev _ _ _ _ Hd Hn). discriminate.
  - rewrite (await_peer_forward _ _ _ _ _ _ Hd). discriminate.
Qed.

(** What [await_peer] returns is what [tunnel_accept (tunnel)] returned,
    its last call. *)
Lemma await_peer_ok arg tunnel fd w fd' r w' :
  await_peer arg tunnel fd w = Ok (fd', r) w' ->
  exists tr, trace w' = tr ++ [ETunnelAccept tunnel r].
Proof.
  destruct w as [[d [r0 rest]] tr]. destruct (device arg) as [dev|] eqn:Hd.
  - destruct (Z.eqb_spec d (-1)) as [->|Hn].
    + rewrite (await_peer_device_fails _ _ _ dev _ _ Hd). discriminate.
    + rewrite (await_peer_device _ _ _ dev _ _ _ _ Hd Hn). intros E.
      injection E as <- <- <-. eexists. cbn [trace].
      change [ELog LogDebug "waiting for tunnel connection"; EOpenDevice dev d;
              ELog LogDebug ("open_device (" +++ DQ +++ "%s" +++ DQ +++ ") = %d");
              ETunnelAccept tunnel r0]
        with ([ELog LogDebug "waiting for tunnel connection"; EOpenDevice dev d;
               ELog LogDebug ("open_device (" +++ DQ +++ "%s" +++ DQ +++ ") = %d")]
              ++ [ETunnelAccept tunnel r0]).
      rewrite app_assoc. reflexivity.
  - rewrite (await_peer_forward _ _ _ _ _ _ Hd). intros E.
    injection E as <- <- <-. eexists. cbn [trace].
    change [ELog LogDebug "waiting for tunnel connection"; ETunnelAccept tunnel d]
      with ([ELog LogDebug "waiting for tunnel connection"]
            ++ [ETunnelAccept tunnel d]).
    rewrite app_assoc. reflexivity.
Qed.

Lemma connect_forward_port_exit arg fd w s w' :
  connect_forward_port arg fd w = Exit s w' -> fatal_exit s w'.
Proof.
  unfold connect_forward_port. destruct (forward_port arg =? -1); [discriminate|].
  destruct w as [[r [d rest]] tr].
  unfold bind, call, log, emit, ret, log_exit, exit. cbn [script trace].
  destruct (r =? -1) eqn:Er.
  - cbn [script trace]. intros E. injection E as <- <-. split; [reflexivity|].
    exists (ESetAddress (forward_host arg) (forward_port arg) r).
    cbn [trace]. rewrite !last_call_snoc. cbn [is_log fatal]. split; [reflexivity|exact Er].
  - cbn [script trace]. destruct (d =? -1) eqn:Ed.
    + cbn [script trace]. intros E. injection E as <- <-. split; [reflexivity|].
      exists (EDoConnect d).
      cbn [trace]. rewrite !last_call_snoc. cbn [is_log fatal].
      split; [reflexivity|exact Ed].
    + discriminate.
Qed.

Lemma end_session_run tunnel fd w :
  end_session tunnel fd w
  = Ok tt (World (script w) (trace w ++ end_session_events tunnel fd)).
Proof.
  unfold end_session, end_session_events, bind, log, emit. cbn [script trace].
  rewrite <- !app_assoc. reflexivity.
Qed.

Lemma session_exit {cfg : Common} fuel arg tunnel fd w s w' :
  session fuel arg tunnel fd w = Exit s w' -> fatal_exit s w'.
Proof.
  unfold session. intros E.
  apply bind_inv_Exit in E. destruct E as [E|(? & w1 & _ & E)]; [discriminate E|].
  apply bind_inv_Exit in E.
  destruct E as [E|(fd1 & w2 & _ & E)]; [exact (connect_forward_port_exit _ _ _ _ _ E)|].
  apply bind_inv_Exit in E.
  destruct E as [E|(t & w3 & _ & E)].
  { destruct w2 as [[? ?] ?]. discriminate E. }
  apply bind_inv_Exit in E.
  destruct E as [E|([] & w4 & _ & E)]; [exact (bridge_exit _ _ _ _ _ _ _ _ _ E)|].
  apply bind_inv_Exit in E.
  destruct E as [E|(? & w5 & _ & E)]; [|discriminate E].
  rewrite end_session_run in E. discriminate E.
Qed.

(** A session that returns has closed the descriptor and the tunnel, and
    did so after [handle_input] left [closed] set. *)
Lemma session_ok {cfg : Common} fuel arg tunnel fd w fd' w' :
  session fuel arg tunnel fd w = Ok fd' w' ->
  exists tr r1 c1 c2 tail,
    trace w' = tr ++ EHandleInput "tunnel" tunnel fd' r1 "handle_tunnel_input" c1 c2
                  :: tail ++ end_session_events tunnel fd' /\
    c2 <> 0 /\ (tail = [] \/ exists t, tail = [ETime t]).
Proof.
  unfold session. intros E.
  apply bind_inv_Ok in E. destruct E as (? & w1 & _ & E).
  apply bind_inv_Ok in E. destruct E as (fd1 & w2 & _ & E).
  apply bind_inv_Ok in E. destruct E as (t & w3 & _ & E).
  apply bind_inv_Ok in E. destruct E as ([] & w4 & EB & E).
  apply bind_inv_Ok in E. destruct E as (? & w5 & EE & E).
  injection E as <- <-.
  rewrite end_session_run in EE. injection EE as EE. subst w5.
  destruct (bridge_ok _ _ _ _ _ _ _ EB) as (tr & r1 & c1 & c2 & tail & Htr & Hc & Htail).
  exists tr, r1, c1, c2, tail. split; [|split; assumption].
  cbn [trace]. rewrite Htr, <- app_assoc. reflexivity.
Qed.

Lemma serve_never_returns {cfg : Common} fuel arg tunnel : forall fd w w',
  serve fuel arg tunnel fd w <> Ok tt w'.
Proof.
  induction fuel as [|fuel IH]; intros fd w w' E.
  - discriminate E.
  - cbn [serve] in E. apply bind_inv_Ok in E. destruct E as ([fd1 r] & w1 & _ & E).
    cbn [fst snd] in E. destruct (r =? -1).
    + apply bind_inv_Ok in E. destruct E as (? & w2 & _ & E). exact (IH _ _ _ E).
    + apply bind_inv_Ok in E. destruct E as (? & w2 & _ & E). exact (IH _ _ _ E).
Qed.

Lemma serve_exit {cfg : Common} fuel arg tunnel : forall fd w s w',
  serve fuel arg tunnel fd w = Exit s w' -> fatal_exit s w'.
Proof.
  induction fuel as [|fuel IH]; intros fd w s w' E.
  - discriminate E.
  - cbn [serve] in E. apply bind_inv_Exit in E.
    destruct E as [E|([fd1 r] & w1 & _ & E)]; [exact (await_peer_exit _ _ _ _ _ _ E)|].
    cbn [fst snd] in E. destruct (r =? -1).
    + apply bind_inv_Exit in E.
      destruct E as [E|(? & w2 & _ & E)]; [discriminate E|exact (IH _ _ _ _ E)].
    + apply bind_inv_Exit in E.
      destruct E as [E|(? & w2 & _ & E)];
        [exact (session_exit _ _ _ _ _ _ _ E)|exact (IH _ _ _ _ E)].
Qed.

Lemma startup_exit {cfg : Common} arg w s w' :
  startup arg w = Exit s w' -> fatal_exit s w'.
Proof.
  destruct w as [[t [r1 [r2 [r3 rest]]]] tr].
  destruct (Z.eqb_spec t 0) as [->|Ht].
  - rewrite startup_no_tunnel. intros E. injection E as <- <-.
    split; [reflexivity|].
    exists (ETunnelNewServer (port arg) (content_length arg) 0).
    cbn [trace]. rewrite last_call_app. split; reflexivity.
  - rewrite (startup_run _ _ _ _ _ _ _ Ht).
    match goal with |- (_ ;; _) ?w0 = _ -> _ =>
      destruct (write_pid_file_run arg w0) as (w2 & added & EW & _)
    end.
    rewrite (bind_Ok _ _ _ _ _ EW). discriminate.
Qed.

(** ** A failed tunnel_accept *)

Lemma serve_accept_fails {cfg : Common} fuel arg tunnel fd w fd1 w1 :
  await_peer arg tunnel fd w = Ok (fd1, -1) w1 ->
  serve (S fuel) arg tunnel fd w
  = serve fuel arg tunnel fd1
      (World (script w1)
         (trace w1 ++ [ELog LogNotice "couldn't accept connection: %s"])).
Proof.
  intros E. cbn [serve]. rewrite (bind_Ok _ _ _ _ _ E). reflexivity.
Qed.

Lemma serve_accept_succeeds {cfg : Common} fuel arg tunnel fd w fd1 r w1 :
  await_peer arg tunnel fd w = Ok (fd1, r) w1 -> r <> -1 ->
  serve (S fuel) arg tunnel fd w
  = (fd' <- session fuel arg tunnel fd1 ;; serve fuel arg tunnel fd') w1.
Proof.
  intros E Hr. apply Z.eqb_neq in Hr.
  cbn [serve]. rewrite (bind_Ok _ _ _ _ _ E). cbn [fst snd]. rewrite Hr.
  reflexivity.
Qed.

Lemma serve_forward_accept_fails {cfg : Common} fuel arg tunnel fd rest tr :
  device arg = None ->
  serve (S fuel) arg tunnel fd (World (Cons (-1) rest) tr)
  = serve fuel arg tunnel fd
      (World rest
         (tr ++ [ELog LogDebug "waiting for tunnel connection";
                 ETunnelAccept tunnel (-1);
                 ELog LogNotice "couldn't accept connection: %s"])).
Proof.
  intros Hd.
  rewrite (serve_accept_fails fuel arg tunnel fd _ _ _
             (await_peer_forward arg tunnel fd (-1) rest tr Hd)).
  cbn [script trace]. rewrite <- app_assoc. reflexivity.
Qed.

Lemma serve_device_accept_fails {cfg : Common} fuel arg tunnel fd dev d rest tr :
  device arg = Some dev -> d <> -1 ->
  serve (S fuel) arg tunnel fd (World (Cons d (Cons (-1) rest)) tr)
  = serve fuel arg tunnel d (World rest (tr ++ failed_accept_events dev tunnel d)).
Proof.
  intros Hd Hn.
  rewrite (serve_accept_fails fuel arg tunnel fd _ _ _
             (await_peer_device arg tunnel fd dev d (-1) rest tr Hd Hn)).
  cbn [script trace]. rewrite <- app_assoc. reflexivity.
Qed.

(** ** The device descriptors of failed accepts *)

Lemma open_descriptors_app tr l :
  open_descriptors (tr ++ l) = fold_left descriptors_after l (open_descriptors tr).
Proof. unfold open_descriptors. apply fold_left_app. Qed.

Lemma last_cons (fds : list Z) : forall d fd, last (d :: fds) fd = last fds d.
Proof.
  induction fds as [|x fds IH]; intros d fd; [reflexivity|].
  change (last (d :: x :: fds) fd) with (last (x :: fds) fd).
  rewrite (IH x fd), (IH x d). reflexivity.
Qed.

Lemma failed_accepts_run {cfg : Common} arg dev tunnel fds :
  forall fuel fd rest tr,
  device arg = Some dev ->
  Forall (fun d => d <> -1) fds ->
  serve (List.length fds + fuel) arg tunnel fd (World (failed_accepts fds rest) tr)
  = serve fuel arg tunnel (last fds fd)
      (World rest (tr ++ flat_map (failed_accept_events dev tunnel) fds)) /\
  open_descriptors (tr ++ flat_map (failed_accept_events dev tunnel) fds)
  = rev fds ++ open_descriptors tr.
Proof.
  induction fds as [|d fds IH]; intros fuel fd rest tr Hd Hfds.
  - cbn. rewrite app_nil_r. split; reflexivity.
  - inversion Hfds as [|? ? Hn Hfds']; subst.
    cbn [List.length Nat.add failed_accepts flat_map].
    rewrite (serve_device_accept_fails (List.length fds + fuel) arg tunnel fd dev d
               (failed_accepts fds rest) tr Hd Hn).
    destruct (IH fuel d rest (tr ++ failed_accept_events dev tunnel d) Hd Hfds')
      as [IHrun IHopen].
    split.
    + rewrite IHrun.
      rewrite <- app_assoc.
      rewrite last_cons. reflexivity.
    + rewrite app_assoc, IHopen. cbn [rev]. rewrite <- app_assoc. f_equal.
      rewrite open_descriptors_app. cbn [failed_accept_events fold_left descriptors_after].
      apply Z.eqb_neq in Hn. rewrite Hn. reflexivity.
Qed.

(** ** C5: the exit status *)

Lemma session_connect_fails {cfg : Common} fuel arg tunnel fd sa rest tr :
  forward_port arg <> -1 -> sa <> -1 ->
  session fuel arg tunnel fd (World (Cons sa (Cons (-1) rest)) tr)
  = Exit 1
      (World rest
         (tr ++ [ELog LogNotice "connected to FIXME:hostname:port";
                 ESetAddress (forward_host arg) (forward_port arg) sa;
                 EDoConnect (-1);
                 ELog LogDebug ("do_connect (" +++ DQ +++ "%s:%d" +++ DQ
                                +++ ") = %d");
                 ELog LogError ("couldn't connect to %s:%d: %s" +++ LF)])).
Proof.
  intros Hf Hs. apply Z.eqb_neq in Hf. apply Z.eqb_neq in Hs.
  unfold session, connect_forward_port. rewrite Hf.
  unfold bind, call, log, emit, ret, log_exit, exit. cbn [script trace].
  rewrite Hs. cbn [script trace Z.eqb Pos.eqb]. cbn [script trace].
  rewrite <- !app_assoc. reflexivity.
Qed.

Lemma main_exit {cfg : Common} fuel cl w s w' :
  main fuel cl w = Exit s w' ->
  (s = 0 /\ given "h" cl || given "V" cl = true /\
   exists text, last_call (trace w') = Some (EPrint Stdout text))
  \/ fatal_exit s w'.
Proof.
  unfold main. intros E.
  apply bind_inv_Exit in E. destruct E as [E|(st & w1 & _ & E)].
  { pose proof (parse_arguments_cases cl initial_globals w) as HP.
    rewrite E in HP. destruct HP as (added & e & Htr & _ & Hs).
    destruct (parse_exit_status cl s e Hs)
      as [(-> & Hhv & text & ->)|(-> & text & ->)].
    - left. split; [reflexivity|]. split; [exact Hhv|].
      exists text. rewrite Htr, app_assoc, last_call_snoc. reflexivity.
    - right. split; [reflexivity|]. exists (EPrint Stderr text).
      rewrite Htr, app_assoc, last_call_snoc. split; reflexivity. }
  apply bind_inv_Exit in E. destruct E as [E|([] & w2 & _ & E)].
  { rewrite announce_run in E. discriminate E. }
  apply bind_inv_Exit in E. destruct E as [E|(tunnel & w3 & _ & E)].
  { right. exact (startup_exit _ _ _ _ E). }
  apply bind_inv_Exit in E. destruct E as [E|([] & w4 & E & _)].
  { right. exact (serve_exit _ _ _ _ _ _ _ E). }
  exfalso. exact (serve_never_returns _ _ _ _ _ _ E).
Qed.

(** C5, as amended.  The process ends by itself only with status 0 after
    --help or --version, or with status 1 right after one of: a message on
    stderr (a bad command line), a tunnel that could not be created, a
    device that could not be opened, a forward address or connection that
    failed, a failed [poll].  So a failed [poll] and a failed connection to
    the forward host during a session do end the process with status 1,
    while a failed [tunnel_accept] or a session that closes do not end
    it. *)
Theorem exit_status_causes {cfg : Common} fuel cl w :
  (forall s w',
     main fuel cl w = Exit s w' ->
     (s = 0 /\ given "h" cl || given "V" cl = true /\
      exists text, last_call (trace w') = Some (EPrint Stdout text))
     \/ fatal_exit s w') /\
  (forall arg tunnel fd last pfd t r0 r1 rest tr,
     bridge (S fuel) arg tunnel fd FALSE last
       (World (Cons pfd (Cons t (Cons (-1) (Cons r0 (Cons r1 rest))))) tr)
     = Exit 1
         (World rest
            (tr ++ poll_events (keep_alive arg) tunnel fd last pfd t (-1) r0 r1
                ++ [ELog LogError ("poll error: %s" +++ LF)]))) /\
  (forall arg tunnel fd sa rest tr,
     forward_port arg <> -1 -> sa <> -1 ->
     session fuel arg tunnel fd (World (Cons sa (Cons (-1) rest)) tr)
     = Exit 1
         (World rest
            (tr ++ [ELog LogNotice "connected to FIXME:hostname:port";
                    ESetAddress (forward_host arg) (forward_port arg) sa;
                    EDoConnect (-1);
                    ELog LogDebug ("do_connect (" +++ DQ +++ "%s:%d" +++ DQ
                                   +++ ") = %d");
                    ELog LogError ("couldn't connect to %s:%d: %s" +++ LF)]))).
Proof.
  split; [|split].
  - intros s w'. apply main_exit.
  - intros. rewrite bridge_pass. cbv zeta. cbn [Z.eqb Pos.eqb].
    rewrite <- app_assoc. reflexivity.
  - intros. apply session_connect_fails; assumption.
Qed.

(** A failed [poll] in a session, and a failed connection to the forward
    host. *)
Lemma exit_status_causes_witness :
  status_of poll_failure_run = Some 1 /\
  fatal_exit 1 (world_of poll_failure_run) /\
  last_call (trace (world_of poll_failure_run)) = Some (EPoll 3 9 5000 (-1) 0 0) /\
  session (cfg := httptunnel) 2
    (set_forward (defaults (cfg := httptunnel) "hts") (Some "localhost", 23))
    1 (-1) (start [0; -1])
  = Exit 1
      (World (Streams.const 0)
         ([] ++ [ELog LogNotice "connected to FIXME:hostname:port";
                 ESetAddress (Some "localhost") 23 0;
                 EDoConnect (-1);
                 ELog LogDebug ("do_connect (" +++ DQ +++ "%s:%d" +++ DQ
                                +++ ") = %d");
                 ELog LogError ("couldn't connect to %s:%d: %s" +++ LF)])).
Proof.
  assert (E : main (cfg := httptunnel) 2
                (mkCmdline "hts" [opt "d" (Some "/dev/ttyS0")] [])
                (start [1; 0; 0; 0; 3; 0; 100; 9; 100; -1; 0; 0])
              = Exit 1 (world_of poll_failure_run))
    by (vm_compute; reflexivity).
  split; [vm_compute; reflexivity|]. split; [|split].
  - destruct (proj1 (exit_status_causes (cfg := httptunnel) 2
                       (mkCmdline "hts" [opt "d" (Some "/dev/ttyS0")] [])
                       (start [1; 0; 0; 0; 3; 0; 100; 9; 100; -1; 0; 0]))
                1 (world_of poll_failure_run) E) as [(H0 & _)|Hf].
    + discriminate H0.
    + exact Hf.
  - vm_compute. reflexivity.
  - apply (proj2 (proj2 (exit_status_causes (cfg := httptunnel) 2
                           (mkCmdline "hts" [] []) (start [])))
             (set_forward (defaults (cfg := httptunnel) "hts") (Some "localhost", 23))
             1 (-1) 0 (Streams.const 0) []).
    + discriminate.
    + discriminate.
Defined.

(** C5 as stated fails: there is a run in which [poll] fails during a
    session, and one in which the connection to the forward host fails, and
    both end the process with status 1. *)
Lemma poll_and_connect_failure_counterexample :
  ~ (forall o : outcome unit,
       (o = poll_failure_run /\ In (EPoll 3 9 5000 (-1) 0 0) (trace (world_of o)))
       \/ (o = connect_failure_run /\ In (EDoConnect (-1)) (trace (world_of o))) ->
       status_of o <> Some 1).
Proof.
  intros Hclaim.
  apply (Hclaim poll_failure_run).
  - left. split; [reflexivity|]. vm_compute. tauto.
  - vm_compute. reflexivity.
Qed.

Example connect_failure_run_status :
  status_of connect_failure_run = Some 1 /\
  In (EDoConnect (-1)) (trace (world_of connect_failure_run)).
Proof. split; [vm_compute; reflexivity | vm_compute; tauto]. Qed.

(** ** Fuel

    The fuel only bounds the number of passes: a run that ends with some
    fuel ends in the same way with more. *)

Lemma finished_bind {A B} (m : M A) (k : A -> M B) w :
  finished (bind m k w) ->
  finished (m w) /\ forall a w1, m w = Ok a w1 -> finished (k a w1).
Proof.
  unfold bind. destruct (m w) as [a w1|s w1|w1]; intros F.
  - split; [exact I|]. intros a' w1' E. injection E as <- <-. exact F.
  - split; [exact I|]. discriminate.
  - destruct F.
Qed.

Lemma bridge_more_fuel {cfg : Common} fuel arg tunnel fd :
  forall closed last w,
  finished (bridge fuel arg tunnel fd closed last w) ->
  bridge (S fuel) arg tunnel fd closed last w
  = bridge fuel arg tunnel fd closed last w.
Proof.
  induction fuel as [|fuel IH]; intros closed last w F.
  - destruct (Z.eqb_spec closed 0) as [->|Hc].
    + destruct F.
    + rewrite !(bridge_closed _ _ _ _ _ _ _ Hc). reflexivity.
  - destruct (Z.eqb_spec closed 0) as [->|Hc].
    + destruct w as [[pfd [t [n [r0 [r1 rest]]]]] tr].
      change 0 with FALSE in *.
      rewrite bridge_pass in F. rewrite (bridge_pass (S fuel)), (bridge_pass fuel).
      cbv zeta in *.
      destruct (n =? -1); [reflexivity|].
      destruct (n =? 0).
      { destruct rest as [t' rest']. apply IH. exact F. }
      destruct rest as [c1 [c2 rest']].
      destruct (Z.land r0 POLLIN =? 0).
      { apply IH. exact F. }
      destruct rest' as [t' rest'']. apply IH. exact F.
    + rewrite !(bridge_closed _ _ _ _ _ _ _ Hc). reflexivity.
Qed.

Lemma bind_ext {A B} (m : M A) (k k' : A -> M B) w :
  (forall a w1, m w = Ok a w1 -> k a w1 = k' a w1) ->
  bind m k w = bind m k' w.
Proof.
  intros Hk. unfold bind. destruct (m w) as [a w1|s w1|w1]; try reflexivity.
  apply Hk. reflexivity.
Qed.

Lemma bind_same {A B} (m m' : M A) (k : A -> M B) w :
  m w = m' w -> bind m k w = bind m' k w.
Proof. intros E. unfold bind. rewrite E. reflexivity. Qed.

Lemma session_more_fuel {cfg : Common} fuel arg tunnel fd w :
  finished (session fuel arg tunnel fd w) ->
  session (S fuel) arg tunnel fd w = session fuel arg tunnel fd w.
Proof.
  unfold session. intros F.
  apply finished_bind in F. destruct F as [_ F].
  apply bind_ext. intros [] w1 E1. specialize (F _ _ E1).
  apply finished_bind in F. destruct F as [_ F].
  apply bind_ext. intros fd1 w2 E2. specialize (F _ _ E2).
  apply finished_bind in F. destruct F as [_ F].
  apply bind_ext. intros t w3 E3. specialize (F _ _ E3).
  apply finished_bind in F. destruct F as [F _].
  apply bind_same. apply bridge_more_fuel. exact F.
Qed.

Lemma serve_more_fuel {cfg : Common} fuel arg tunnel : forall fd w,
  finished (serve fuel arg tunnel fd w) ->
  serve (S fuel) arg tunnel fd w = serve fuel arg tunnel fd w.
Proof.
  induction fuel as [|fuel IH]; intros fd w F.
  - destruct F.
  - change (serve (S (S fuel)) arg tunnel fd w)
      with ((p <- await_peer arg tunnel fd ;;
             if snd p =? -1 then
               log LogNotice "couldn't accept connection: %s" ;;
               serve (S fuel) arg tunnel (fst p)
             else
               fd' <- session (S fuel) arg tunnel (fst p) ;;
               serve (S fuel) arg tunnel fd') w).
    change (serve (S fuel) arg tunnel fd w)
      with ((p <- await_peer arg tunnel fd ;;
             if snd p =? -1 then
               log LogNotice "couldn't accept connection: %s" ;;
               serve fuel arg tunnel (fst p)
             else
               fd' <- session fuel arg tunnel (fst p) ;;
               serve fuel arg tunnel fd') w) in F |- *.
    apply finished_bind in F. destruct F as [_ F].
    apply bind_ext. intros [fd1 r] w1 EA. specialize (F _ _ EA).
    cbn [fst snd] in *. destruct (r =? -1).
    + apply finished_bind in F. destruct F as [_ F].
      apply bind_ext. intros [] w2 EL. apply IH. exact (F _ _ EL).
    + apply finished_bind in F. destruct F as [Fs F].
      rewrite (bind_same _ _ _ _ (session_more_fuel _ _ _ _ _ Fs)).
      apply bind_ext. intros fd2 w2 ES. apply IH. exact (F _ _ ES).
Qed.

(** What [main] does is the same with more fuel. *)
Lemma main_more_fuel {cfg : Common} fuel cl w :
  finished (main fuel cl w) -> main (S fuel) cl w = main fuel cl w.
Proof.
  unfold main. intros F.
  apply finished_bind in F. destruct F as [_ F].
  apply bind_ext. intros st w1 EP. specialize (F _ _ EP).
  apply finished_bind in F. destruct F as [_ F].
  apply bind_ext. intros [] w2 EA. specialize (F _ _ EA).
  apply finished_bind in F. destruct F as [_ F].
  apply bind_ext. intros t w3 ES. specialize (F _ _ ES).
  apply finished_bind in F. destruct F as [F _].
  apply bind_same. apply serve_more_fuel. exact F.
Qed.

(** * More of parse_arguments and main *)

(** ** Calls added to the trace *)

Lemma adds_ret {A} P (a : A) : adds P (ret a).
Proof. intros w. exists []. split; [symmetry; apply app_nil_r|reflexivity]. Qed.

Lemma adds_exit {A} P s : adds P (exit (A := A) s).
Proof. intros w. exists []. split; [symmetry; apply app_nil_r|reflexivity]. Qed.

Lemma adds_out_of_fuel {A} P : adds P (out_of_fuel (A := A)).
Proof. intros w. exists []. split; [symmetry; apply app_nil_r|reflexivity]. Qed.

Lemma adds_emit P e : P e = true -> adds P (emit e).
Proof.
  intros He w. exists [e]. split; [reflexivity|]. cbn. rewrite He. reflexivity.
Qed.

Lemma adds_call P e : (forall r, P (e r) = true) -> adds P (call e).
Proof.
  intros He [[r rest] tr]. exists [e r]. split; [reflexivity|].
  cbn. rewrite He. reflexivity.
Qed.

Lemma adds_call3 P e : (forall n r0 r1, P (e n r0 r1) = true) -> adds P (call3 e).
Proof.
  intros He [[n [r0 [r1 rest]]] tr]. exists [e n r0 r1]. split; [reflexivity|].
  cbn. rewrite He. reflexivity.
Qed.

Lemma adds_bind {A B} P (m : M A) (k : A -> M B) :
  adds P m -> (forall a, adds P (k a)) -> adds P (bind m k).
Proof.
  intros Hm Hk w. destruct (Hm w) as (a1 & Htr1 & HP1). unfold bind.
  destruct (m w) as [a w1|s w1|w1]; cbn [world_of] in *.
  - destruct (Hk a w1) as (a2 & Htr2 & HP2). exists (a1 ++ a2). split.
    + rewrite Htr2, Htr1, app_assoc. reflexivity.
    + rewrite forallb_app, HP1, HP2. reflexivity.
  - exists a1. split; assumption.
  - exists a1. split; assumption.
Qed.

Lemma adds_when P b m : adds P m -> adds P (when b m).
Proof. intros Hm. destruct b; [exact Hm|apply adds_ret]. Qed.

Lemma adds_weaken {A} (P Q : event -> bool) (m : M A) :
  (forall e, P e = true -> Q e = true) -> adds P m -> adds Q m.
Proof.
  intros HPQ Hm w. destruct (Hm w) as (added & Htr & HP). exists added.
  split; [exact Htr|]. rewrite forallb_forall in *. auto.
Qed.

(** ** The option loop, field by field *)

(** When the [switch] goes on, each field has its old value unless the
    option is the one that sets it. *)
Lemma option_switch_fields {cfg : Common} o st w st' w' :
  option_switch o st w = Ok st' w' ->
  let c := opt_c o in
  me (fst st') = me (fst st) /\
  port (fst st') = port (fst st) /\
  device (fst st') = (if c =? chr "d" then optarg o else device (fst st)) /\
  content_length (fst st') =
    (if c =? chr "c" then to_size_t (atoi_with_postfix (optarg o))
     else content_length (fst st)) /\
  pid_filename (fst st') =
    (if c =? chr "p" then optarg o else pid_filename (fst st)) /\
  strict_content_length (fst st') =
    (if c =? chr "S" then TRUE else strict_content_length (fst st)) /\
  keep_alive (fst st') =
    (if c =? chr "k" then atoi (optarg o) else keep_alive (fst st)) /\
  max_connection_age (fst st') =
    (if c =? chr "M" then atoi (optarg o) else max_connection_age (fst st)) /\
  (forward_host (fst st'), forward_port (fst st')) =
    (if c =? chr "F"
     then name_and_port (optarg o) (forward_host (fst st), forward_port (fst st))
     else (forward_host (fst st), forward_port (fst st))) /\
  (DEBUG_MODE = false -> snd st' = snd st).
Proof.
  destruct o as [c a i], st as [arg g], w as [sc tr].
  unfold option_switch.
  cbn [opt_c optarg option_index fst snd].
  destruct (Z.eqb_spec c 0) as [->|N0].
  { destruct a; cbn; intros E; injection E as <- <-; cbn; repeat split. }
  switch_on c (chr "c").
  { cbn. intros E; injection E as <- <-; cbn; repeat split. }
  switch_on c (chr "d").
  { cbn. intros E; injection E as <- <-; cbn; repeat split. }
  destruct (DEBUG_MODE && (c =? chr "D")) eqn:ED.
  { apply andb_prop in ED. destruct ED as [ED Ec]. apply Z.eqb_eq in Ec. subst c.
    cbn. intros E; injection E as <- <-; cbn; repeat split.
    rewrite ED. discriminate. }
  destruct (DEBUG_MODE && (c =? chr "l")) eqn:EL.
  { apply andb_prop in EL. destruct EL as [EL Ec]. apply Z.eqb_eq in Ec. subst c.
    destruct sc as [h sc']. cbn [bind call script trace].
    destruct (is_NULLF (FILEp_of h)); [discriminate|].
    cbn. intros E; injection E as <- <-; cbn; repeat split.
    rewrite EL. discriminate. }
  switch_on c (chr "F").
  { cbn [forward_port set_forward me].
    destruct (snd (name_and_port a (forward_host arg, forward_port arg)) =? -1);
      [discriminate|].
    cbn. intros E; injection E as <- <-; cbn; repeat split.
    destruct (name_and_port a (forward_host arg, forward_port arg)); reflexivity. }
  switch_on c (chr "h"). { discriminate. }
  switch_on c (chr "k").
  { cbn. intros E; injection E as <- <-; cbn; repeat split. }
  switch_on c (chr "M").
  { cbn. intros E; injection E as <- <-; cbn; repeat split. }
  switch_on c (chr "S").
  { cbn. intros E; injection E as <- <-; cbn; repeat split. }
  switch_on c (chr "V"). { discriminate. }
  switch_on c (chr "p").
  { cbn. intros E; injection E as <- <-; cbn; repeat split. }
  switch_on c (chr "?").
  { cbn. intros E; injection E as <- <-; cbn; repeat split. }
  cbn. intros E; injection E as <- <-; cbn; repeat split.
Qed.

Lemma scan_options_fields {cfg : Common} opts : forall st w st' w',
  scan_options opts st w = Ok st' w' ->
  (me (fst st') = me (fst st) /\
   port (fst st') = port (fst st) /\
   (DEBUG_MODE = false -> snd st' = snd st)) /\
  (Forall (fun o => opt_c o <> -1) opts ->
   device (fst st') =
     match last_optarg (chr "d") opts with
     | Some a => a
     | None => device (fst st)
     end /\
   content_length (fst st') =
     match last_optarg (chr "c") opts with
     | Some a => to_size_t (atoi_with_postfix a)
     | None => content_length (fst st)
     end /\
   pid_filename (fst st') =
     match last_optarg (chr "p") opts with
     | Some a => a
     | None => pid_filename (fst st)
     end /\
   keep_alive (fst st') =
     match last_optarg (chr "k") opts with
     | Some a => atoi a
     | None => keep_alive (fst st)
     end /\
   max_connection_age (fst st') =
     match last_optarg (chr "M") opts with
     | Some a => atoi a
     | None => max_connection_age (fst st)
     end /\
   strict_content_length (fst st') =
     (if existsb (fun o => opt_c o =? chr "S") opts then TRUE
      else strict_content_length (fst st))).
Proof.
  induction opts as [|o opts IH]; intros st w st' w' E.
  - injection E as <- <-. repeat split.
  - cbn [scan_options] in E.
    destruct (Z.eqb_spec (opt_c o) (-1)) as [E1|N1].
    + injection E as <- <-. split; [repeat split|].
      intros W. inversion W as [|? ? W1 _]. contradiction.
    + apply bind_inv_Ok in E. destruct E as (st1 & w1 & ES & E).
      apply option_switch_fields in ES. cbv zeta in ES.
      destruct ES as (Hme & Hport & Hd & Hc & Hp & Hs & Hk & HM & _ & Hg).
      destruct (IH _ _ _ _ E) as [(Ime & Iport & Ig) Ilast].
      split.
      * split; [congruence|]. split; [congruence|].
        intros HD. rewrite (Ig HD). exact (Hg HD).
      * intros W. inversion W as [|? ? _ W']; subst.
        destruct (Ilast W') as (Id & Ic & Ip & Ik & IM & Is).
        cbn [last_optarg existsb].
        rewrite Id, Ic, Ip, Ik, IM, Is, Hd, Hc, Hp, Hk, HM, Hs.
        repeat split.
        { destruct (last_optarg (chr "d") opts); [reflexivity|].
          destruct (opt_c o =? chr "d"); reflexivity. }
        { destruct (last_optarg (chr "c") opts); [reflexivity|].
          destruct (opt_c o =? chr "c"); reflexivity. }
        { destruct (last_optarg (chr "p") opts); [reflexivity|].
          destruct (opt_c o =? chr "p"); reflexivity. }
        { destruct (last_optarg (chr "k") opts); [reflexivity|].
          destruct (opt_c o =? chr "k"); reflexivity. }
        { destruct (last_optarg (chr "M") opts); [reflexivity|].
          destruct (opt_c o =? chr "M"); reflexivity. }
        { destruct (existsb (fun o0 => opt_c o0 =? chr "S") opts);
            [rewrite orb_true_r; reflexivity|].
          rewrite orb_false_r. destruct (opt_c o =? chr "S"); reflexivity. }
Qed.

Lemma when_Ok b (m : M unit) w u w' :
  when b (m ;; exit 1) w = Ok u w' -> b = false /\ w' = w.
Proof.
  destruct b; cbn [when].
  - unfold bind. destruct (m w); discriminate.
  - intros E. injection E as _ <-. split; reflexivity.
Qed.

(** What a [parse_arguments] that returns went through. *)
Lemma parse_arguments_Ok {cfg : Common} cl g0 w arg g w' :
  parse_arguments cl g0 w = Ok (arg, g) w' ->
  exists st,
    scan_options (options cl) (defaults (argv0 cl), g0) w = Ok st w' /\
    g = snd st /\
    (operands cl = [] /\ arg = fst st \/
     exists p, operands cl = [p] /\ arg = set_port (fst st) (atoi (Some p))) /\
    is_NULL (device arg) && (forward_port arg =? -1) = false /\
    negb (is_NULL (device arg)) && negb (forward_port arg =? -1) = false /\
    (debug_level g =? 0) && negb (is_NULLF (debug_file g)) = false /\
    Bool.eqb (is_NULL (device arg)) (forward_port arg =? -1)
    || (port arg =? -1)
    || negb (Bool.eqb (is_NULL (forward_host arg)) (forward_port arg =? -1))
    = false.
Proof.
  unfold parse_arguments. intros E.
  apply bind_inv_Ok in E. destruct E as (st & w1 & ES & E).
  apply bind_inv_Ok in E. destruct E as (arg1 & w2 & EO & E).
  apply bind_inv_Ok in E. destruct E as (u1 & w3 & E1 & E).
  apply bind_inv_Ok in E. destruct E as (u2 & w4 & E2 & E).
  apply bind_inv_Ok in E. destruct E as (u3 & w5 & E3 & E).
  apply bind_inv_Ok in E. destruct E as (u4 & w6 & E4 & E).
  injection E as <- <- <-.
  apply when_Ok in E1. destruct E1 as [C1 ->].
  apply when_Ok in E2. destruct E2 as [C2 ->].
  apply when_Ok in E3. destruct E3 as [C3 ->].
  apply when_Ok in E4. destruct E4 as [C4 ->].
  assert (Hops : w2 = w1 /\
                 (operands cl = [] /\ arg1 = fst st \/
                  exists p, operands cl = [p] /\
                            arg1 = set_port (fst st) (atoi (Some p)))).
  { destruct (operands cl) as [|p [|q ops]].
    - injection EO as <- <-. split; [reflexivity|]. left. split; reflexivity.
    - injection EO as <- <-. split; [reflexivity|]. right. exists p.
      split; reflexivity.
    - discriminate EO. }
  destruct Hops as [-> Hops].
  exists st. repeat (split; [assumption || reflexivity|]). exact C4.
Qed.

(** ** The arguments [main] works with *)

(** X1.  When [parse_arguments] returns, the arguments are consistent:
    exactly one of [device] and [forward_port] is set, [forward_host] is
    set exactly when [forward_port] is, the listening port is not -1, the
    program name is [argv[0]], and there is no log file unless debugging is
    on. *)
Theorem parse_arguments_postcondition {cfg : Common} cl g0 w arg g w' :
  parse_arguments cl g0 w = Ok (arg, g) w' ->
  me arg = argv0 cl /\
  xorb (is_NULL (device arg)) (forward_port arg =? -1) = true /\
  is_NULL (forward_host arg) = (forward_port arg =? -1) /\
  (port arg =? -1) = false /\
  (debug_level g = 0 -> debug_file g = NULLF).
Proof.
  intros E. apply parse_arguments_Ok in E.
  destruct E as (st & ES & -> & Hops & C1 & C2 & C3 & C4).
  destruct (scan_options_fields _ _ _ _ _ ES) as [(Hme & _ & _) _].
  cbn in Hme.
  split.
  { destruct Hops as [[_ ->]|(p & _ & ->)]; exact Hme. }
  destruct (is_NULL (device arg)), (forward_port arg =? -1),
    (port arg =? -1), (is_NULL (forward_host arg));
    try discriminate C1; try discriminate C2; try discriminate C4;
    (repeat split; intros Hd; rewrite Hd in C3; cbn in C3;
     destruct (debug_file (snd st)); [reflexivity|discriminate|discriminate]).
Qed.

(** `hts -F localhost:23 8080`. *)
Lemma parse_arguments_postcondition_witness :
  let cl := mkCmdline "hts" [opt "F" (Some "localhost:23")] ["8080"] in
  let arg := set_port (set_forward (defaults (cfg := httptunnel) "hts")
                         (Some "localhost", 23)) 8080 in
  parse_arguments (cfg := httptunnel) cl initial_globals (start [])
  = Ok (arg, initial_globals) (start []) /\
  me arg = "hts" /\
  xorb (is_NULL (device arg)) (forward_port arg =? -1) = true /\
  is_NULL (forward_host arg) = (forward_port arg =? -1) /\
  (port arg =? -1) = false /\
  (debug_level initial_globals = 0 -> debug_file initial_globals = NULLF).
Proof.
  split; [reflexivity|].
  apply (parse_arguments_postcondition (cfg := httptunnel)
           (mkCmdline "hts" [opt "F" (Some "localhost:23")] ["8080"])
           initial_globals (start []) _ initial_globals (start [])).
  reflexivity.
Defined.

(** X2.  The listening port comes from the operand alone: without one it
    is DEFAULT_HOST_PORT, with one it is [atoi] of it, whatever the
    options; and [parse_arguments] does not return when there are more. *)
Theorem listening_port_from_operand {cfg : Common} cl g0 w arg g w' :
  parse_arguments cl g0 w = Ok (arg, g) w' ->
  match operands cl with
  | [] => port arg = DEFAULT_HOST_PORT
  | [p] => port arg = atoi (Some p)
  | _ :: _ :: _ => False
  end.
Proof.
  intros E. apply parse_arguments_Ok in E.
  destruct E as (st & ES & _ & Hops & _).
  destruct (scan_options_fields _ _ _ _ _ ES) as [(_ & Hport & _) _].
  cbn in Hport.
  destruct Hops as [[-> ->]|(p & -> & ->)]; [exact Hport|reflexivity].
Qed.

(** `hts -d /dev/ttyS0` listens on 8888, `hts -d /dev/ttyS0 8080` on
    8080. *)
Lemma listening_port_from_operand_witness :
  let arg := set_device (defaults (cfg := httptunnel) "hts") (Some "/dev/ttyS0") in
  port arg = 8888 /\ port (set_port arg 8080) = 8080.
Proof.
  split.
  - apply (listening_port_from_operand (cfg := httptunnel)
             (mkCmdline "hts" [opt "d" (Some "/dev/ttyS0")] [])
             initial_globals (start []) _ initial_globals (start [])).
    reflexivity.
  - apply (listening_port_from_operand (cfg := httptunnel)
             (mkCmdline "hts" [opt "d" (Some "/dev/ttyS0")] ["8080"])
             initial_globals (start []) _ initial_globals (start [])).
    reflexivity.
Defined.

(** X3.  Of the options -d, -c, -p, -k and -M the last occurrence counts,
    and an option not given leaves the default; -S, given anywhere, turns
    [strict_content_length] on.  [content_length] is a [size_t]: it holds
    what [atoi_with_postfix] returned (or the default) converted to that
    type, so it is never negative. *)
Theorem last_occurrence_counts {cfg : Common} cl g0 w arg g w' :
  Forall (fun o => opt_c o <> -1) (options cl) ->
  parse_arguments cl g0 w = Ok (arg, g) w' ->
  device arg =
    match last_optarg (chr "d") (options cl) with
    | Some a => a
    | None => None
    end /\
  content_length arg =
    match last_optarg (chr "c") (options cl) with
    | Some a => to_size_t (atoi_with_postfix a)
    | None => to_size_t DEFAULT_CONTENT_LENGTH
    end /\
  0 <= content_length arg < 2 ^ 64 /\
  pid_filename arg =
    match last_optarg (chr "p") (options cl) with
    | Some a => a
    | None => None
    end /\
  keep_alive arg =
    match last_optarg (chr "k") (options cl) with
    | Some a => atoi a
    | None => DEFAULT_KEEP_ALIVE
    end /\
  max_connection_age arg =
    match last_optarg (chr "M") (options cl) with
    | Some a => atoi a
    | None => DEFAULT_CONNECTION_MAX_TIME
    end /\
  strict_content_length arg = (if given "S" cl then TRUE else FALSE).
Proof.
  intros W E. apply parse_arguments_Ok in E.
  destruct E as (st & ES & _ & Hops & _).
  destruct (scan_options_fields _ _ _ _ _ ES) as [_ Hlast].
  specialize (Hlast W). cbn [fst defaults device content_length pid_filename
                              keep_alive max_connection_age
                              strict_content_length] in Hlast.
  destruct Hlast as (Hd & Hc & Hrest).
  assert (Hrange : 0 <= content_length (fst st) < 2 ^ 64).
  { rewrite Hc. destruct (last_optarg (chr "c") (options cl));
      unfold to_size_t; apply Z.mod_pos_bound; reflexivity. }
  destruct Hops as [[_ ->]|(p & _ & ->)];
    (split; [exact Hd|]; split; [exact Hc|]; split; [exact Hrange|exact Hrest]).
Qed.

(** `hts -c -1 -d /dev/ttyS0 -k 9 -d /dev/ttyS1 -k 2 -S`: the -1 stored in
    the [size_t] is 18446744073709551615. *)
Lemma last_occurrence_counts_witness :
  let cl := mkCmdline "hts" [opt "c" (Some "-1");
                             opt "d" (Some "/dev/ttyS0"); opt "k" (Some "9");
                             opt "d" (Some "/dev/ttyS1"); opt "k" (Some "2");
                             opt "S" None] [] in
  exists arg,
    parse_arguments (cfg := httptunnel) cl initial_globals (start [])
    = Ok (arg, initial_globals) (start []) /\
    device arg = Some "/dev/ttyS1" /\
    content_length arg = 18446744073709551615 /\
    0 <= content_length arg < 2 ^ 64 /\
    pid_filename arg = None /\
    keep_alive arg = 2 /\
    max_connection_age arg = 300 /\
    strict_content_length arg = TRUE.
Proof.
  eexists. split; [reflexivity|].
  apply (last_occurrence_counts (cfg := httptunnel)
           (mkCmdline "hts" [opt "c" (Some "-1");
                             opt "d" (Some "/dev/ttyS0"); opt "k" (Some "9");
                             opt "d" (Some "/dev/ttyS1"); opt "k" (Some "2");
                             opt "S" None] [])
           initial_globals (start []) _ initial_globals (start [])).
  - repeat constructor; discriminate.
  - reflexivity.
Defined.

(** X4.  A -F whose argument leaves [forward_port] at -1 ends the process
    with status 1 as soon as it is read: the options and operands after it
    are not looked at, a later --help included. *)
Theorem forward_port_needs_port {cfg : Common} prog pre o rest ops g0 w st w1 :
  Forall (fun o => opt_c o <> -1) pre ->
  scan_options pre (defaults prog, g0) w = Ok st w1 ->
  opt_c o = chr "F" ->
  snd (name_and_port (optarg o) (forward_host (fst st), forward_port (fst st)))
  = -1 ->
  parse_arguments (mkCmdline prog (pre ++ o :: rest) ops) g0 w
  = Exit 1 (World (script w1) (trace w1 ++ [EPrint Stderr (port_hint prog)])).
Proof.
  intros W ES Ec Hp.
  destruct (scan_options_fields _ _ _ _ _ ES) as [(Hme & _) _].
  cbn [fst defaults me] in Hme.
  unfold parse_arguments. cbn [options argv0 operands].
  apply bind_Exit. rewrite (scan_options_app pre _ _ _ W).
  unfold bind at 1. rewrite ES. cbn [scan_options]. rewrite Ec.
  change (chr "F" =? -1) with false. cbv iota.
  apply bind_Exit. unfold option_switch. rewrite Ec.
  change (chr "F" =? 0) with false.
  change (chr "F" =? chr "c") with false.
  change (chr "F" =? chr "d") with false.
  change (chr "F" =? chr "D") with false.
  change (chr "F" =? chr "l") with false.
  change (chr "F" =? chr "F") with true.
  rewrite !andb_false_r. cbv iota zeta.
  destruct (name_and_port (optarg o) (forward_host (fst st), forward_port (fst st)))
    as [h p] eqn:ENP.
  cbn [snd] in Hp. subst p. cbn [set_forward forward_port me].
  change (-1 =? -1) with true. cbv iota.
  rewrite Hme. reflexivity.
Qed.

(** `hts -F localhost --help`. *)
Lemma forward_port_needs_port_witness :
  parse_arguments (cfg := httptunnel)
    (mkCmdline "hts" ([] ++ opt "F" (Some "localhost") :: [opt "h" None]) [])
    initial_globals (start [])
  = Exit 1 (World (script (start []))
              (trace (start []) ++ [EPrint Stderr (port_hint "hts")])).
Proof.
  apply (forward_port_needs_port (cfg := httptunnel) "hts" []
           (opt "F" (Some "localhost")) [opt "h" None] [] initial_globals
           (start []) (defaults (cfg := httptunnel) "hts", initial_globals)
           (start [])).
  - constructor.
  - reflexivity.
  - reflexivity.
  - reflexivity.
Defined.

(** X5.  A build without DEBUG_MODE has no way to change [debug_level] or
    [debug_file]: whatever the options, [main] goes on to detach with
    [daemon (0, 1)] and to open the system log. *)
Theorem release_build_daemonizes {cfg : Common} cl w arg g w' :
  DEBUG_MODE = false ->
  parse_arguments cl initial_globals w = Ok (arg, g) w' ->
  g = initial_globals /\
  start_logging g w'
  = Ok initial_globals
      (World (script w') (trace w' ++ [EDaemon 0 1; EOpenlog "hts"])).
Proof.
  intros HD E. apply parse_arguments_Ok in E.
  destruct E as (st & ES & -> & _).
  destruct (scan_options_fields _ _ _ _ _ ES) as [(_ & _ & Hg) _].
  rewrite (Hg HD). cbn [snd]. split; [reflexivity|].
  unfold start_logging. rewrite HD. destruct w' as [sc tr].
  cbn. rewrite <- app_assoc. reflexivity.
Qed.

(** `hts -d /dev/ttyS0`. *)
Lemma release_build_daemonizes_witness :
  start_logging (cfg := httptunnel) initial_globals (start [])
  = Ok initial_globals (World (script (start []))
                          (trace (start []) ++ [EDaemon 0 1; EOpenlog "hts"])).
Proof.
  apply (release_build_daemonizes (cfg := httptunnel)
           (mkCmdline "hts" [opt "d" (Some "/dev/ttyS0")] [])
           (start []) (set_device (defaults (cfg := httptunnel) "hts")
                         (Some "/dev/ttyS0")) initial_globals (start [])).
  - reflexivity.
  - reflexivity.
Defined.

(** ** The two globals in a build with DEBUG_MODE *)

Lemma option_switch_globals {cfg : Common} o st w st' w' :
  option_switch o st w = Ok st' w' ->
  debug_level (snd st') =
    (if DEBUG_MODE && (opt_c o =? chr "D")
     then (if is_NULL (optarg o) then 1 else atoi (optarg o))
     else debug_level (snd st)) /\
  (DEBUG_MODE && (opt_c o =? chr "l") = false ->
   debug_file (snd st') = debug_file (snd st)).
Proof.
  destruct o as [c a i], st as [arg g], w as [sc tr].
  unfold option_switch.
  cbn [opt_c optarg option_index fst snd].
  destruct (Z.eqb_spec c 0) as [->|N0].
  { destruct a; cbn; intros E; injection E as <- <-; cbn;
      (split; [destruct DEBUG_MODE; reflexivity|reflexivity]). }
  switch_on c (chr "c").
  { cbn. intros E; injection E as <- <-; cbn.
    split; [destruct DEBUG_MODE; reflexivity|reflexivity]. }
  switch_on c (chr "d").
  { cbn. intros E; injection E as <- <-; cbn.
    split; [destruct DEBUG_MODE; reflexivity|reflexivity]. }
  destruct (DEBUG_MODE && (c =? chr "D")) eqn:ED.
  { cbn. intros E; injection E as <- <-; cbn. split; reflexivity. }
  destruct (DEBUG_MODE && (c =? chr "l")) eqn:EL.
  { destruct sc as [h sc']. cbn [bind call script trace].
    destruct (is_NULLF (FILEp_of h)); [discriminate|].
    cbn. intros E; injection E as <- <-; cbn. split; [reflexivity|discriminate]. }
  switch_on c (chr "F").
  { cbn [forward_port set_forward me].
    destruct (snd (name_and_port a (forward_host arg, forward_port arg)) =? -1);
      [discriminate|].
    cbn. intros E; injection E as <- <-; cbn. split; reflexivity. }
  switch_on c (chr "h"). { discriminate. }
  switch_on c (chr "k").
  { cbn. intros E; injection E as <- <-; cbn. split; reflexivity. }
  switch_on c (chr "M").
  { cbn. intros E; injection E as <- <-; cbn. split; reflexivity. }
  switch_on c (chr "S").
  { cbn. intros E; injection E as <- <-; cbn. split; reflexivity. }
  switch_on c (chr "V"). { discriminate. }
  switch_on c (chr "p").
  { cbn. intros E; injection E as <- <-; cbn. split; reflexivity. }
  switch_on c (chr "?").
  { cbn. intros E; injection E as <- <-; cbn. split; reflexivity. }
  cbn. intros E; injection E as <- <-; cbn. split; reflexivity.
Qed.

Lemma scan_options_globals {cfg : Common} opts : forall st w st' w',
  DEBUG_MODE = true ->
  Forall (fun o => opt_c o <> -1) opts ->
  scan_options opts st w = Ok st' w' ->
  debug_level (snd st') =
    match last_optarg (chr "D") opts with
    | Some a => if is_NULL a then 1 else atoi a
    | None => debug_level (snd st)
    end /\
  (existsb (fun o => opt_c o =? chr "l") opts = false ->
   debug_file (snd st') = debug_file (snd st)).
Proof.
  intros st w st' w' HD W. revert st w st' w'.
  induction W as [|o opts N1 W IH]; intros st w st' w' E.
  - injection E as <- <-. split; reflexivity.
  - cbn [scan_options] in E. apply Z.eqb_neq in N1. rewrite N1 in E.
    apply bind_inv_Ok in E. destruct E as (st1 & w1 & ES & E).
    apply option_switch_globals in ES. rewrite HD in ES. cbn [andb] in ES.
    destruct ES as [Hl Hf]. destruct (IH _ _ _ _ E) as [Il If].
    cbn [last_optarg existsb]. split.
    + rewrite Il, Hl. destruct (last_optarg (chr "D") opts); [reflexivity|].
      destruct (opt_c o =? chr "D"); reflexivity.
    + intros Hn. apply orb_false_elim in Hn. destruct Hn as [Hn1 Hn2].
      rewrite (If Hn2). exact (Hf Hn1).
Qed.

(** X15.  In a build with DEBUG_MODE the debug level is that of the last
    -D (1 when it comes without a level, 0 when there is none).  Without
    -l no log file is open; if the level is then not 0, [main] does not
    call [daemon] and the log goes to stdout. *)
Theorem debug_build_logs_to_stdout {cfg : Common} cl w arg g w' :
  DEBUG_MODE = true ->
  Forall (fun o => opt_c o <> -1) (options cl) ->
  parse_arguments cl initial_globals w = Ok (arg, g) w' ->
  debug_level g =
    match last_optarg (chr "D") (options cl) with
    | Some a => if is_NULL a then 1 else atoi a
    | None => 0
    end /\
  (given "l" cl = false ->
   debug_file g = NULLF /\
   (debug_level g <> 0 ->
    start_logging g w'
    = Ok {| debug_level := debug_level g; debug_file := stdoutF |} w')).
Proof.
  intros HD W E. apply parse_arguments_Ok in E.
  destruct E as (st & ES & -> & _).
  destruct (scan_options_globals _ _ _ _ _ HD W ES) as [Hl Hf].
  cbn [snd initial_globals debug_level debug_file] in Hl, Hf.
  split; [exact Hl|]. intros Hg. specialize (Hf Hg). split; [exact Hf|].
  intros Hn. unfold start_logging. rewrite HD, Hf.
  apply Z.eqb_neq in Hn. rewrite Hn. reflexivity.
Qed.

(** `hts -D -d /dev/ttyS0` in the build with DEBUG_MODE. *)
Lemma debug_build_logs_to_stdout_witness :
  let cl := mkCmdline "hts" [opt "D" None; opt "d" (Some "/dev/ttyS0")] [] in
  let g := {| debug_level := 1; debug_file := NULLF |} in
  debug_level g = 1 /\
  (given "l" cl = false ->
   debug_file g = NULLF /\
   (debug_level g <> 0 ->
    start_logging (cfg := httptunnel_debug) g (start [])
    = Ok {| debug_level := debug_level g; debug_file := stdoutF |} (start []))).
Proof.
  apply (debug_build_logs_to_stdout (cfg := httptunnel_debug)
           (mkCmdline "hts" [opt "D" None; opt "d" (Some "/dev/ttyS0")] [])
           (start [])
           (set_device (defaults (cfg := httptunnel_debug) "hts")
              (Some "/dev/ttyS0"))
           {| debug_level := 1; debug_file := NULLF |} (start [])).
  - reflexivity.
  - repeat constructor; discriminate.
  - reflexivity.
Defined.

(** ** The calls of a session and of the accept loop *)

Lemma adds_bind_stuck {A B} P (m : M A) (k : A -> M B) :
  adds P m -> (forall w a w', m w <> Ok a w') -> adds P (bind m k).
Proof.
  intros Hm Hs w. destruct (Hm w) as (a1 & Htr1 & HP1). unfold bind.
  destruct (m w) as [a w1|s w1|w1] eqn:E; cbn [world_of] in *.
  - exfalso. exact (Hs _ _ _ E).
  - exists a1. split; assumption.
  - exists a1. split; assumption.
Qed.

Lemma poll_timeout_fits keep_alive t last :
  (0 <=? poll_timeout keep_alive t last)
  && (poll_timeout keep_alive t last <=? INT_MAX) = true.
Proof.
  rewrite poll_timeout_to_int.
  pose proof (to_int_range (1000 * (keep_alive - (t - last)))) as H.
  apply andb_true_intro. split; [apply Z.leb_le|apply Z.leb_le]; unfold INT_MAX in *; lia.
Qed.

Lemma bridge_adds {cfg : Common} fuel arg tunnel fd : forall closed last,
  adds (bridge_call tunnel fd) (bridge fuel arg tunnel fd closed last).
Proof.
  induction fuel as [|fuel IH]; intros closed last; cbn [bridge];
    (destruct (closed =? 0); [|apply adds_ret]).
  - apply adds_out_of_fuel.
  - apply adds_bind; [apply adds_call; intros; cbn; apply Z.eqb_refl|intros pfd].
    apply adds_bind; [apply adds_call; intros; reflexivity|intros t].
    apply adds_bind; [apply adds_emit; reflexivity|intros _].
    apply adds_bind.
    { apply adds_call3. intros n r0 r1. cbn [bridge_call].
      rewrite Z.eqb_refl. apply poll_timeout_fits. }
    intros p.
    apply adds_bind; [apply adds_emit; reflexivity|intros _].
    destruct (fst (fst p) =? -1).
    { apply adds_bind; [apply adds_emit; reflexivity|intros _]. apply adds_exit. }
    destruct (fst (fst p) =? 0).
    { apply adds_bind; [apply adds_emit; reflexivity|intros _].
      apply adds_bind;
        [apply adds_emit; cbn; rewrite Z.eqb_refl; reflexivity|intros _].
      apply adds_bind; [apply adds_call; intros; reflexivity|intros t'].
      apply IH. }
    apply adds_bind; [apply adds_emit; reflexivity|intros _].
    apply adds_bind;
      [apply adds_call; intros; cbn; rewrite !Z.eqb_refl; reflexivity|intros c1].
    apply adds_bind;
      [apply adds_call; intros; cbn; rewrite !Z.eqb_refl; reflexivity|intros c2].
    apply adds_bind; [|intros t'; apply IH].
    destruct (Z.land (snd (fst p)) POLLIN =? 0);
      [apply adds_ret|apply adds_call; intros; reflexivity].
Qed.

(** X6.  While a session lasts (the [while (!closed)] loop) the program
    only asks the tunnel for its descriptor, reads the clock, calls [poll]
    on the session's descriptor with a timeout between 0 and INT_MAX, sends
    one byte of padding, hands input to the two handlers and logs: it
    opens, closes, accepts and prints nothing, however the loop ends. *)
Theorem session_loop_calls {cfg : Common} fuel arg tunnel fd closed last w :
  exists added,
    trace (world_of (bridge fuel arg tunnel fd closed last w)) = trace w ++ added /\
    forallb (bridge_call tunnel fd) added = true.
Proof. exact (bridge_adds fuel arg tunnel fd closed last w). Qed.

Lemma bridge_call_serve_call tunnel fd e :
  bridge_call tunnel fd e = true -> serve_call tunnel e = true.
Proof.
  destruct e; cbn; try discriminate; try (intros; assumption).
  - intros H. apply andb_prop in H. destruct H as [H1 H2].
    apply andb_prop in H1. destruct H1 as [_ H1]. rewrite H1, H2. reflexivity.
  - intros H. apply andb_prop in H. destruct H as [H _]. exact H.
Qed.

Lemma await_peer_adds arg tunnel fd :
  adds (serve_call tunnel) (await_peer arg tunnel fd).
Proof.
  unfold await_peer.
  apply adds_bind; [apply adds_emit; reflexivity|intros _].
  apply adds_bind.
  { unfold open_downstream_device. destruct (device arg) as [dev|]; [|apply adds_ret].
    apply adds_bind; [apply adds_call; intros; reflexivity|intros d].
    apply adds_bind; [apply adds_emit; reflexivity|intros _].
    destruct (d =? -1); [|apply adds_ret].
    apply adds_bind; [apply adds_emit; reflexivity|intros _]. apply adds_exit. }
  intros d.
  apply adds_bind; [apply adds_call; intros; cbn; apply Z.eqb_refl|intros r].
  apply adds_ret.
Qed.

Lemma session_adds {cfg : Common} fuel arg tunnel fd :
  adds (serve_call tunnel) (session fuel arg tunnel fd).
Proof.
  unfold session.
  apply adds_bind; [apply adds_emit; reflexivity|intros _].
  apply adds_bind.
  { unfold connect_forward_port. destruct (forward_port arg =? -1); [apply adds_ret|].
    apply adds_bind; [apply adds_call; intros; reflexivity|intros r].
    destruct (r =? -1).
    { apply adds_bind; [apply adds_emit; reflexivity|intros _]. apply adds_exit. }
    apply adds_bind; [apply adds_call; intros; reflexivity|intros d].
    apply adds_bind; [apply adds_emit; reflexivity|intros _].
    destruct (d =? -1); [|apply adds_ret].
    apply adds_bind; [apply adds_emit; reflexivity|intros _]. apply adds_exit. }
  intros d.
  apply adds_bind; [apply adds_call; intros; reflexivity|intros t].
  apply adds_bind.
  { apply (adds_weaken (bridge_call tunnel d)); [apply bridge_call_serve_call|].
    apply bridge_adds. }
  intros _.
  apply adds_bind; [|intros _; apply adds_ret].
  unfold end_session.
  apply adds_bind; [apply adds_emit; reflexivity|intros _].
  apply adds_bind; [apply adds_emit; reflexivity|intros _].
  apply adds_bind; [apply adds_emit; cbn; apply Z.eqb_refl|intros _].
  apply adds_emit; reflexivity.
Qed.

Lemma serve_adds {cfg : Common} fuel arg tunnel : forall fd,
  adds (serve_call tunnel) (serve fuel arg tunnel fd).
Proof.
  induction fuel as [|fuel IH]; intros fd; cbn [serve].
  - apply adds_out_of_fuel.
  - apply adds_bind; [apply await_peer_adds|intros p].
    destruct (snd p =? -1).
    + apply adds_bind; [apply adds_emit; reflexivity|intros _]. apply IH.
    + apply adds_bind; [apply session_adds|intros d]. apply IH.
Qed.

(** X7.  The accept loop works on the one tunnel it was given: every
    [tunnel_accept], [tunnel_pollin_fd], [tunnel_padding], [handle_input]
    and [tunnel_close] is on that handle.  It never creates or destroys a
    tunnel, makes no [printf] or [fprintf] call of its own (what it reports
    goes through the log functions of common.h), and never calls [poll]
    with a negative timeout. *)
Theorem accept_loop_calls {cfg : Common} fuel arg tunnel fd w :
  exists added,
    trace (world_of (serve fuel arg tunnel fd w)) = trace w ++ added /\
    forallb (serve_call tunnel) added = true.
Proof. exact (serve_adds fuel arg tunnel fd w). Qed.

(** ** Descriptors over one session *)

Lemma keeps_descriptors_fold added : forall open,
  forallb keeps_descriptors added = true ->
  fold_left descriptors_after added open = open.
Proof.
  induction added as [|e added IH]; intros open H; [reflexivity|].
  cbn [forallb] in H. apply andb_prop in H. destruct H as [He H].
  cbn [fold_left]. rewrite <- (IH open H) at 2. f_equal.
  destruct e; try discriminate He; reflexivity.
Qed.

Lemma bridge_call_keeps_descriptors tunnel fd e :
  bridge_call tunnel fd e = true -> keeps_descriptors e = true.
Proof. destruct e; cbn; intros H; try discriminate H; reflexivity. Qed.

Lemma bridge_keeps_descriptors {cfg : Common} fuel arg tunnel fd closed last w :
  open_descriptors (trace (world_of (bridge fuel arg tunnel fd closed last w)))
  = open_descriptors (trace w).
Proof.
  destruct (bridge_adds fuel arg tunnel fd closed last w) as (added & -> & H).
  rewrite open_descriptors_app. apply keeps_descriptors_fold.
  rewrite forallb_forall in *. intros e He.
  exact (bridge_call_keeps_descriptors _ _ _ (H e He)).
Qed.

Lemma remove_one_head fd open : remove_one fd (fd :: open) = open.
Proof. cbn. rewrite Z.eqb_refl. reflexivity. Qed.

(** The descriptors after the steps of lines 322-336 have returned. *)
Lemma await_peer_descriptors arg tunnel fd w fd1 r w1 :
  await_peer arg tunnel fd w = Ok (fd1, r) w1 ->
  match device arg with
  | None => fd1 = fd /\ open_descriptors (trace w1) = open_descriptors (trace w)
  | Some _ => open_descriptors (trace w1) = fd1 :: open_descriptors (trace w)
  end.
Proof.
  destruct w as [[d [r' rest]] tr]. destruct (device arg) as [dev|] eqn:ED.
  - destruct (Z.eq_dec d (-1)) as [->|Hd].
    + rewrite (await_peer_device_fails _ _ _ _ _ _ ED). discriminate.
    + rewrite (await_peer_device _ _ _ _ _ _ _ _ ED Hd).
      intros E. injection E as <- <- <-. cbn [trace].
      rewrite open_descriptors_app. cbn [fold_left descriptors_after].
      apply Z.eqb_neq in Hd. rewrite Hd. reflexivity.
  - rewrite (await_peer_forward _ _ _ _ _ _ ED).
    intros E. injection E as <- <- <-. cbn [trace].
    rewrite open_descriptors_app. split; reflexivity.
Qed.

(** The descriptors after a session that ran to its end. *)
Lemma session_descriptors {cfg : Common} fuel arg tunnel fd w fd' w' :
  session fuel arg tunnel fd w = Ok fd' w' ->
  if forward_port arg =? -1
  then fd' = fd /\
       open_descriptors (trace w') = remove_one fd (open_descriptors (trace w))
  else open_descriptors (trace w') = open_descriptors (trace w).
Proof.
  unfold session. intros E.
  apply bind_inv_Ok in E. destruct E as (u1 & w1 & E1 & E).
  apply bind_inv_Ok in E. destruct E as (d & w2 & E2 & E).
  apply bind_inv_Ok in E. destruct E as (t & w3 & E3 & E).
  apply bind_inv_Ok in E. destruct E as (u4 & w4 & E4 & E).
  apply bind_inv_Ok in E. destruct E as (u5 & w5 & E5 & E).
  injection E as <- <-.
  rewrite end_session_run in E5. injection E5 as _ <-. cbn [trace].
  pose proof (bridge_keeps_descriptors fuel arg tunnel d FALSE t w3) as HB.
  rewrite E4 in HB. cbn [world_of] in HB.
  rewrite open_descriptors_app. cbn [end_session_events fold_left descriptors_after].
  rewrite HB.
  assert (H3 : open_descriptors (trace w3) = open_descriptors (trace w2)).
  { destruct w2 as [[t' rest] tr]. injection E3 as _ <-. cbn [trace].
    rewrite open_descriptors_app. reflexivity. }
  rewrite H3.
  assert (H1 : open_descriptors (trace w1) = open_descriptors (trace w)).
  { injection E1 as _ <-. cbn [trace]. rewrite open_descriptors_app. reflexivity. }
  unfold connect_forward_port in E2.
  destruct (forward_port arg =? -1).
  - injection E2 as <- <-. rewrite H1. split; reflexivity.
  - apply bind_inv_Ok in E2. destruct E2 as (r & w6 & E6 & E2).
    destruct w1 as [[r' [d' rest]] tr]. injection E6 as <- <-.
    destruct (r' =? -1).
    { apply bind_inv_Ok in E2. destruct E2 as (? & ? & _ & E2). discriminate E2. }
    apply bind_inv_Ok in E2. destruct E2 as (d1 & w7 & E7 & E2).
    injection E7 as <- <-.
    apply bind_inv_Ok in E2. destruct E2 as (u8 & w8 & E8 & E2).
    injection E8 as _ <-.
    destruct (d' =? -1) eqn:Ed.
    { apply bind_inv_Ok in E2. destruct E2 as (? & ? & _ & E2). discriminate E2. }
    injection E2 as <- <-. cbn [trace script] in *.
    rewrite !open_descriptors_app. cbn [fold_left descriptors_after].
    rewrite Ed, remove_one_head. exact H1.
Qed.

(** X8.  With exactly one of [device] and [forward_port] set, as
    [parse_arguments] leaves them, an iteration of the accept loop whose
    session runs to its end closes the descriptor it obtained: the loop
    goes on with the downstream descriptors that were open before the
    iteration. *)
Theorem session_closes_its_descriptor {cfg : Common}
    fuel arg tunnel fd w fd1 r w1 fd2 w2 :
  xorb (is_NULL (device arg)) (forward_port arg =? -1) = true ->
  await_peer arg tunnel fd w = Ok (fd1, r) w1 ->
  r <> -1 ->
  session fuel arg tunnel fd1 w1 = Ok fd2 w2 ->
  serve (S fuel) arg tunnel fd w = serve fuel arg tunnel fd2 w2 /\
  open_descriptors (trace w2) = open_descriptors (trace w).
Proof.
  intros Hx EA Hr ES. split.
  - rewrite (serve_accept_succeeds _ _ _ _ _ _ _ _ EA Hr).
    apply bind_Ok. exact ES.
  - apply await_peer_descriptors in EA. apply session_descriptors in ES.
    destruct (device arg) as [dev|]; cbn [is_NULL xorb] in Hx.
    + destruct (forward_port arg =? -1); [|discriminate Hx].
      destruct ES as [_ ->]. rewrite EA. apply remove_one_head.
    + destruct (forward_port arg =? -1); [discriminate Hx|].
      destruct EA as [_ <-]. exact ES.
Qed.

(** `hts -d /dev/ttyS0`, the tunnel being 7: the device opens as
    descriptor 3, a peer is accepted, and the first [poll] finds the tunnel
    closed. *)
Lemma session_closes_its_descriptor_witness :
  let arg := set_device (defaults (cfg := httptunnel) "hts") (Some "/dev/ttyS0") in
  let w := start [3; 0; 100; 4; 100; 1; 0; 1; 0; 1] in
  let w1 := world_of (await_peer arg 7 (-1) w) in
  let w2 := world_of (session (cfg := httptunnel) 1 arg 7 3 w1) in
  serve (cfg := httptunnel) 2 arg 7 (-1) w = serve (cfg := httptunnel) 1 arg 7 3 w2 /\
  open_descriptors (trace w2) = open_descriptors (trace w).
Proof.
  intros arg w w1 w2.
  apply (session_closes_its_descriptor (cfg := httptunnel) 1 arg 7 (-1) w 3 0 w1 3 w2).
  - reflexivity.
  - vm_compute. reflexivity.
  - discriminate.
  - vm_compute. reflexivity.
Defined.

(** ** Keep-alive bytes *)

Lemma count_app f l l' : count f (l ++ l') = (count f l + count f l')%nat.
Proof. unfold count. rewrite filter_app, length_app. reflexivity. Qed.

(** X9.  Over a whole session, however it ends, the padding bytes sent
    are as many as the [poll] calls that timed out: a keep-alive byte goes
    out for every timeout and for nothing else. *)
Theorem padding_once_per_timeout {cfg : Common} fuel arg tunnel fd :
  forall closed last w,
  exists added,
    trace (world_of (bridge fuel arg tunnel fd closed last w)) = trace w ++ added /\
    count is_padding added = count is_timeout added.
Proof.
  induction fuel as [|fuel IH]; intros closed last w.
  - exists []. split; [|reflexivity]. rewrite app_nil_r.
    cbn [bridge]. destruct (closed =? 0); reflexivity.
  - destruct (Z.eqb_spec closed 0) as [->|Hc].
    2:{ exists []. rewrite (bridge_closed _ _ _ _ _ _ _ Hc), app_nil_r.
        split; reflexivity. }
    destruct w as [[pfd [t [n [r0 [r1 rest]]]]] tr].
    change 0 with FALSE. rewrite bridge_pass. cbv zeta. cbn [trace].
    destruct (Z.eqb_spec n (-1)) as [->|Hn1].
    { eexists. cbn [world_of trace]. rewrite <- app_assoc.
      split; [reflexivity|]. reflexivity. }
    destruct (Z.eqb_spec n 0) as [->|Hn0].
    { destruct rest as [t' rest'].
      destruct (IH FALSE t'
                  (World rest'
                     ((tr ++ poll_events (keep_alive arg) tunnel fd last pfd t 0 r0 r1)
                      ++ [ELog LogVerbose "poll() timed out";
                          ETunnelPadding tunnel 1; ETime t'])))
        as (added & -> & Hcount).
      cbn [trace]. rewrite <- !app_assoc.
      exists (poll_events (keep_alive arg) tunnel fd last pfd t 0 r0 r1
              ++ [ELog LogVerbose "poll() timed out";
                  ETunnelPadding tunnel 1; ETime t'] ++ added).
      split; [reflexivity|].
      rewrite !count_app, Hcount. reflexivity. }
    assert (Hpoll : count is_timeout
                      (poll_events (keep_alive arg) tunnel fd last pfd t n r0 r1) = 0%nat).
    { unfold count. cbn. apply Z.eqb_neq in Hn0. rewrite Hn0. reflexivity. }
    destruct rest as [c1 [c2 rest']].
    destruct (Z.land r0 POLLIN =? 0).
    { destruct (IH c2 last
                  (World rest'
                     ((tr ++ poll_events (keep_alive arg) tunnel fd last pfd t n r0 r1)
                      ++ input_events tunnel fd r0 r1 FALSE c1 c2)))
        as (added & -> & Hcount).
      cbn [trace]. rewrite <- !app_assoc.
      exists (poll_events (keep_alive arg) tunnel fd last pfd t n r0 r1
              ++ input_events tunnel fd r0 r1 FALSE c1 c2 ++ added).
      split; [reflexivity|].
      rewrite !count_app, Hcount, Hpoll. reflexivity. }
    destruct rest' as [t' rest''].
    destruct (IH c2 t'
                (World rest''
                   ((tr ++ poll_events (keep_alive arg) tunnel fd last pfd t n r0 r1)
                    ++ input_events tunnel fd r0 r1 FALSE c1 c2 ++ [ETime t'])))
      as (added & -> & Hcount).
    cbn [trace]. rewrite <- !app_assoc.
    exists (poll_events (keep_alive arg) tunnel fd last pfd t n r0 r1
            ++ input_events tunnel fd r0 r1 FALSE c1 c2 ++ [ETime t'] ++ added).
    split; [reflexivity|].
    rewrite !count_app, Hcount, Hpoll. reflexivity.
Qed.

(** ** Start-up *)

(** X10.  When [tunnel_new_server] returns NULL, [main] logs the error and
    ends the process with status 1: no option is set on a tunnel, SIGPIPE is
    left alone, no PID file is written and nothing is accepted. *)
Theorem tunnel_creation_failure {cfg : Common} fuel cl w arg g w1 rest :
  parse_arguments cl initial_globals w = Ok (arg, g) w1 ->
  script w1 = Cons 0 rest ->
  main fuel cl w
  = Exit 1
      (World rest
         (trace w1 ++ announce_events g
                   ++ [ETunnelNewServer (port arg) (content_length arg) 0;
                       ELog LogError "couldn't create tunnel"])).
Proof.
  intros EP Hs. unfold main. rewrite (bind_Ok _ _ _ _ _ EP). cbn [fst snd].
  rewrite (bind_Ok _ _ _ _ _ (announce_run g w1)).
  apply bind_Exit. rewrite Hs, startup_no_tunnel, <- app_assoc. reflexivity.
Qed.

(** `hts -d /dev/ttyS0` when no tunnel can be created. *)
Lemma tunnel_creation_failure_witness :
  main (cfg := httptunnel) 1 (mkCmdline "hts" [opt "d" (Some "/dev/ttyS0")] [])
    (start [])
  = Exit 1
      (World (Streams.const 0)
         (announce_events (cfg := httptunnel) initial_globals
          ++ [ETunnelNewServer 8888 65536 0;
              ELog LogError "couldn't create tunnel"])).
Proof.
  apply (tunnel_creation_failure (cfg := httptunnel) 1
           (mkCmdline "hts" [opt "d" (Some "/dev/ttyS0")] []) (start [])
           (set_device (defaults (cfg := httptunnel) "hts") (Some "/dev/ttyS0"))
           initial_globals (start []) (Streams.const 0)).
  - reflexivity.
  - exact (Streams.unfold_Stream (Streams.const 0)).
Defined.

(** X11.  Once [tunnel_new_server] has returned a tunnel, start-up runs to
    its end and hands that tunnel to the accept loop: whatever
    [tunnel_setopt], [fopen], [getpid] and [fclose] return, the process is
    not ended. *)
Theorem startup_completes_with_tunnel {cfg : Common} arg t rest tr :
  t <> 0 ->
  exists w', startup arg (World (Cons t rest) tr) = Ok t w'.
Proof.
  intros Ht. destruct rest as [r1 [r2 [r3 rest]]].
  rewrite (startup_run _ _ _ _ _ _ _ Ht).
  match goal with |- exists w', bind _ _ ?w = _ =>
    destruct (write_pid_file_run arg w) as (w' & added & E & _)
  end.
  exists w'. rewrite (bind_Ok _ _ _ _ _ E). reflexivity.
Qed.

(** `hts -d /dev/ttyS0 -p /var/run/hts.pid`: the three [tunnel_setopt] calls
    fail and so does [fopen]. *)
Lemma startup_completes_with_tunnel_witness :
  exists w',
    startup (cfg := httptunnel)
      (set_pid_filename
         (set_device (defaults (cfg := httptunnel) "hts") (Some "/dev/ttyS0"))
         (Some "/var/run/hts.pid"))
      (World (Cons 7 (answers [-1; -1; -1; 0; 13])) [])
    = Ok 7 w'.
Proof.
  apply (startup_completes_with_tunnel (cfg := httptunnel)
           (set_pid_filename
              (set_device (defaults (cfg := httptunnel) "hts") (Some "/dev/ttyS0"))
              (Some "/var/run/hts.pid"))
           7 (answers [-1; -1; -1; 0; 13]) []).
  discriminate.
Defined.

(** X12.  A PID file that cannot be opened is reported on stderr with the
    [errno] text and nothing more: nothing is written or closed, [getpid]
    is not called, and start-up returns the tunnel. *)
Theorem pid_file_open_failure {cfg : Common} arg path t r1 r2 r3 e rest tr :
  pid_filename arg = Some path ->
  t <> 0 ->
  startup arg
    (World (Cons t (Cons r1 (Cons r2 (Cons r3 (Cons 0 (Cons e rest)))))) tr)
  = Ok t
      (World rest
         (tr ++ [ETunnelNewServer (port arg) (content_length arg) t]
             ++ setopt_events t "strict_content_length"
                  (strict_content_length arg) r1
             ++ setopt_events t "keep_alive" (keep_alive arg) r2
             ++ setopt_events t "max_connection_age" (max_connection_age arg) r3
             ++ [ESignalSIGPIPE (if DEBUG_MODE then "log_sigpipe" else "SIG_IGN");
                 EFopen (Some path) "w+" 0;
                 EErrno e;
                 EPrint Stderr ("Couldn't open pid file " +++ path +++ ": "
                                +++ strerror e +++ LF)])).
Proof.
  intros Hp Ht. rewrite (startup_run _ _ _ _ _ _ _ Ht).
  unfold write_pid_file. rewrite Hp.
  unfold bind, call, print, emit, ret. cbn [script trace].
  change (0 =? 0) with true. cbv iota. cbn [script trace].
  rewrite <- !app_assoc. reflexivity.
Qed.

(** `hts -d /dev/ttyS0 -p /var/run/hts.pid` when the file cannot be
    opened. *)
Lemma pid_file_open_failure_witness :
  startup (cfg := httptunnel)
    (set_pid_filename
       (set_device (defaults (cfg := httptunnel) "hts") (Some "/dev/ttyS0"))
       (Some "/var/run/hts.pid"))
    (World (Cons 7 (Cons 0 (Cons 0 (Cons 0 (Cons 0 (Cons 13 (Streams.const 0))))))) [])
  = Ok 7
      (World (Streams.const 0)
         [ETunnelNewServer 8888 65536 7;
          ETunnelSetopt 7 "strict_content_length" 0 0;
          ETunnelSetopt 7 "keep_alive" 5 0;
          ETunnelSetopt 7 "max_connection_age" 300 0;
          ESignalSIGPIPE "SIG_IGN";
          EFopen (Some "/var/run/hts.pid") "w+" 0;
          EErrno 13;
          EPrint Stderr ("Couldn't open pid file /var/run/hts.pid: error 13" +++ LF)]).
Proof.
  apply (pid_file_open_failure (cfg := httptunnel)
           (set_pid_filename
              (set_device (defaults (cfg := httptunnel) "hts") (Some "/dev/ttyS0"))
              (Some "/var/run/hts.pid"))
           "/var/run/hts.pid" 7 0 0 0 13 (Streams.const 0) []).
  - reflexivity.
  - discriminate.
Defined.

(** ** What main never does *)

Lemma option_switch_adds {cfg : Common} P o st :
  (forall f s, P (EPrint f s) = true) ->
  (forall p m r, P (EFopen p m r) = true) ->
  adds P (option_switch o st).
Proof.
  intros HP HF. unfold option_switch, usage, log_exit. cbv zeta.
  repeat first
    [ apply adds_ret
    | apply adds_exit
    | apply adds_emit; apply HP
    | apply adds_call; intros; apply HF
    | apply adds_when
    | apply adds_bind; [|intros ?]
    | match goal with |- adds _ (if ?b then _ else _) => destruct b end ].
Qed.

Lemma scan_options_adds {cfg : Common} P opts :
  (forall f s, P (EPrint f s) = true) ->
  (forall p m r, P (EFopen p m r) = true) ->
  forall st, adds P (scan_options opts st).
Proof.
  intros HP HF. induction opts as [|o opts IH]; intros st; cbn [scan_options].
  - apply adds_ret.
  - destruct (opt_c o =? -1); [apply adds_ret|].
    apply adds_bind; [apply option_switch_adds; assumption|exact IH].
Qed.

Lemma parse_arguments_adds {cfg : Common} P cl g0 :
  (forall f s, P (EPrint f s) = true) ->
  (forall p m r, P (EFopen p m r) = true) ->
  adds P (parse_arguments cl g0).
Proof.
  intros HP HF. unfold parse_arguments, usage.
  apply adds_bind; [apply scan_options_adds; assumption|intros st].
  cbv zeta.
  apply adds_bind.
  { destruct (operands cl) as [|p [|q ops]]; try apply adds_ret.
    apply adds_bind; [apply adds_emit; apply HP|intros _; apply adds_exit]. }
  intros arg.
  repeat first
    [ apply adds_ret
    | apply adds_exit
    | apply adds_emit; apply HP
    | apply adds_when
    | apply adds_bind; [|intros ?] ].
Qed.

Lemma startup_adds {cfg : Common} arg :
  adds (fun e => negb (is_destroy e)) (startup arg).
Proof.
  unfold startup, create_tunnel, set_options, ignore_sigpipe, write_pid_file,
    log_exit.
  repeat first
    [ apply adds_ret
    | apply adds_exit
    | apply adds_emit; reflexivity
    | apply adds_call; intros; reflexivity
    | apply adds_when
    | apply adds_bind; [|intros ?]
    | match goal with |- adds _ (if ?b then _ else _) => destruct b end
    | match goal with |- adds _ (match ?b with Some _ => _ | None => _ end) =>
        destruct b end ].
Qed.

Lemma serve_call_not_destroy tunnel e :
  serve_call tunnel e = true -> negb (is_destroy e) = true.
Proof. destruct e; cbn; intros H; try discriminate H; reflexivity. Qed.

Lemma serve_stuck {cfg : Common} fuel arg tunnel fd w a w' :
  serve fuel arg tunnel fd w <> Ok a w'.
Proof. destruct a. apply serve_never_returns. Qed.

(** X13.  [main] never comes back from the accept loop: the lines after it
    (417-420) are never run.  Whatever the command line and the
    environment, [main] does not return, and no [tunnel_destroy] is among
    the calls it makes: the process ends through an [exit] elsewhere, or
    not at all. *)
Theorem main_never_destroys_tunnel {cfg : Common} fuel cl w :
  match main fuel cl w with
  | Ok _ _ => False
  | _ => True
  end /\
  exists added,
    trace (world_of (main fuel cl w)) = trace w ++ added /\
    existsb is_destroy added = false.
Proof.
  split.
  - unfold main.
    destruct (parse_arguments cl initial_globals w) as [st w1|s w1|w1] eqn:EP;
      [rewrite (bind_Ok _ _ _ _ _ EP)|rewrite (bind_Exit _ _ _ _ _ EP); exact I|].
    2:{ unfold bind. rewrite EP. exact I. }
    rewrite (bind_Ok _ _ _ _ _ (announce_run (snd st) w1)).
    match goal with |- match bind _ _ ?w with _ => _ end => set (w2 := w) end.
    destruct (startup (fst st) w2) as [t w3|s w3|w3] eqn:ES;
      [rewrite (bind_Ok _ _ _ _ _ ES)|rewrite (bind_Exit _ _ _ _ _ ES); exact I|].
    2:{ unfold bind. rewrite ES. exact I. }
    unfold bind.
    destruct (serve fuel (fst st) t (-1) w3) as [a w4|s w4|w4] eqn:EV;
      [|exact I|exact I].
    exfalso. exact (serve_stuck _ _ _ _ _ _ _ EV).
  - assert (H : adds (fun e => negb (is_destroy e)) (main fuel cl)).
    { unfold main.
      apply adds_bind; [apply parse_arguments_adds; reflexivity|intros st].
      apply adds_bind.
      { unfold announce, start_logging, log_arguments.
        repeat first
          [ apply adds_ret
          | apply adds_emit; reflexivity
          | apply adds_when
          | apply adds_bind; [|intros ?]
          | match goal with |- adds _ (if ?b then _ else _) => destruct b end ]. }
      intros _.
      apply adds_bind; [apply startup_adds|intros t].
      apply adds_bind_stuck; [|intros; apply serve_stuck].
      apply (adds_weaken (serve_call t)); [apply serve_call_not_destroy|].
      apply serve_adds. }
    destruct (H w) as (added & Htr & HP). exists added. split; [exact Htr|].
    clear Htr. induction added as [|e added IH]; [reflexivity|].
    cbn [forallb existsb] in *. apply andb_prop in HP. destruct HP as [He HP].
    rewrite (IH HP). destruct (is_destroy e); [discriminate He|reflexivity].
Qed.

(** ** A failed accept when forwarding to a port *)

(** X14.  With --forward-port and no device, an iteration whose
    [tunnel_accept] fails obtains no descriptor: the loop goes on with the
    same [fd] and the same open descriptors. *)
Theorem failed_accept_keeps_descriptors {cfg : Common} fuel arg tunnel fd w fd1 w1 :
  device arg = None ->
  await_peer arg tunnel fd w = Ok (fd1, -1) w1 ->
  serve (S fuel) arg tunnel fd w
  = serve fuel arg tunnel fd
      (World (script w1)
         (trace w1 ++ [ELog LogNotice "couldn't accept connection: %s"])) /\
  open_descriptors (trace w1 ++ [ELog LogNotice "couldn't accept connection: %s"])
  = open_descriptors (trace w).
Proof.
  intros Hd EA. pose proof (await_peer_descriptors _ _ _ _ _ _ _ EA) as HA.
  rewrite Hd in HA. destruct HA as [-> HA]. split.
  - exact (serve_accept_fails _ _ _ _ _ _ _ EA).
  - rewrite open_descriptors_app. exact HA.
Qed.

(** `hts -F localhost:23`, the tunnel being 7: [tunnel_accept] fails. *)
Lemma failed_accept_keeps_descriptors_witness :
  let arg := set_forward (defaults (cfg := httptunnel) "hts")
               (Some "localhost", 23) in
  let w1 := World (Streams.const 0)
              [ELog LogDebug "waiting for tunnel connection";
               ETunnelAccept 7 (-1)] in
  serve (cfg := httptunnel) 1 arg 7 (-1) (start [-1])
  = serve (cfg := httptunnel) 0 arg 7 (-1)
      (World (script w1)
         (trace w1 ++ [ELog LogNotice "couldn't accept connection: %s"])) /\
  open_descriptors (trace w1 ++ [ELog LogNotice "couldn't accept connection: %s"])
  = open_descriptors (trace (start [-1])).
Proof.
  apply (failed_accept_keeps_descriptors (cfg := httptunnel) 0
           (set_forward (defaults (cfg := httptunnel) "hts") (Some "localhost", 23))
           7 (-1) (start [-1]) (-1)
           (World (Streams.const 0)
              [ELog LogDebug "waiting for tunnel connection";
               ETunnelAccept 7 (-1)])).
  - reflexivity.
  - reflexivity.
Defined.

(** * The two loops, on the trace *)

(** ** What a run has added so far *)

Lemma bridge_trace_grows {cfg : Common} fuel arg tunnel fd closed last w :
  exists more,
    trace (world_of (bridge fuel arg tunnel fd closed last w)) = trace w ++ more.
Proof.
  destruct (bridge_adds fuel arg tunnel fd closed last w) as (more & H & _).
  exists more. exact H.
Qed.

Lemma serve_trace_grows {cfg : Common} fuel arg tunnel fd w :
  exists more, trace (world_of (serve fuel arg tunnel fd w)) = trace w ++ more.
Proof.
  destruct (serve_adds fuel arg tunnel fd w) as (more & H & _).
  exists more. exact H.
Qed.

Lemma session_trace_starts {cfg : Common} fuel arg tunnel fd w :
  exists more,
    trace (world_of (session fuel arg tunnel fd w))
    = trace w ++ ELog LogNotice "connected to FIXME:hostname:port" :: more.
Proof.
  unfold session.
  match goal with
  | |- context [bind (log ?l ?s) ?k w] =>
      change (bind (log l s) k w)
        with (k tt (World (script w) (trace w ++ [ELog l s])));
      assert (H : adds (serve_call tunnel) (k tt))
  end.
  { cbv beta.
    apply adds_bind.
    { unfold connect_forward_port.
      destruct (forward_port arg =? -1); [apply adds_ret|].
      apply adds_bind; [apply adds_call; intros; reflexivity|intros r].
      destruct (r =? -1).
      { apply adds_bind; [apply adds_emit; reflexivity|intros _]. apply adds_exit. }
      apply adds_bind; [apply adds_call; intros; reflexivity|intros d].
      apply adds_bind; [apply adds_emit; reflexivity|intros _].
      destruct (d =? -1); [|apply adds_ret].
      apply adds_bind; [apply adds_emit; reflexivity|intros _]. apply adds_exit. }
    intros d.
    apply adds_bind; [apply adds_call; intros; reflexivity|intros t].
    apply adds_bind.
    { apply (adds_weaken (bridge_call tunnel d)); [apply bridge_call_serve_call|].
      apply bridge_adds. }
    intros _.
    apply adds_bind; [|intros _; apply adds_ret].
    unfold end_session.
    apply adds_bind; [apply adds_emit; reflexivity|intros _].
    apply adds_bind; [apply adds_emit; reflexivity|intros _].
    apply adds_bind; [apply adds_emit; cbn; apply Z.eqb_refl|intros _].
    apply adds_emit; reflexivity. }
  cbv beta in *.
  match goal with
  | |- context [world_of (?m ?w1)] => destruct (H w1) as (more & Htr & _)
  end.
  exists more. rewrite Htr. cbn [trace]. rewrite <- app_assoc. reflexivity.
Qed.

(** From the head of the outer loop to what follows [tunnel_accept]. *)
Lemma serve_after_await {cfg : Common} fuel arg tunnel fd w fd1 r w1 :
  await_peer arg tunnel fd w = Ok (fd1, r) w1 ->
  exists more,
    trace (world_of (serve (S fuel) arg tunnel fd w)) = trace w1 ++ more /\
    (r <> -1 ->
     exists more',
       more = ELog LogNotice "connected to FIXME:hostname:port" :: more').
Proof.
  intros EA. destruct (Z.eq_dec r (-1)) as [->|Hr].
  - rewrite (serve_accept_fails _ _ _ _ _ _ _ EA).
    match goal with
    | |- context [serve fuel arg tunnel fd1 ?w2] =>
        destruct (serve_trace_grows fuel arg tunnel fd1 w2) as (more & Htr)
    end.
    rewrite Htr. cbn [trace]. rewrite <- app_assoc.
    eexists. split; [reflexivity|]. intros H. contradiction.
  - rewrite (serve_accept_succeeds _ _ _ _ _ _ _ _ EA Hr).
    destruct (session_trace_starts fuel arg tunnel fd1 w1) as (more1 & H1).
    unfold bind.
    destruct (session fuel arg tunnel fd1 w1) as [fd2 w2|s w2|w2];
      cbn [world_of] in *.
    + destruct (serve_trace_grows fuel arg tunnel fd2 w2) as (more2 & H2).
      rewrite H2, H1, <- app_assoc. cbn [app].
      eexists. split; [reflexivity|]. intros _. eexists. reflexivity.
    + rewrite H1. eexists. split; [reflexivity|]. intros _. eexists. reflexivity.
    + rewrite H1. eexists. split; [reflexivity|]. intros _. eexists. reflexivity.
Qed.

(** The head of the outer loop, when there is no device. *)
Lemma serve_forward_accept {cfg : Common} fuel arg tunnel fd r rest tr :
  device arg = None ->
  exists more,
    trace (world_of (serve (S fuel) arg tunnel fd (World (Cons r rest) tr)))
    = tr ++ [ELog LogDebug "waiting for tunnel connection";
             ETunnelAccept tunnel r] ++ more /\
    (r <> -1 ->
     exists more',
       more = ELog LogNotice "connected to FIXME:hostname:port" :: more').
Proof.
  intros Hd.
  destruct (serve_after_await fuel arg tunnel fd _ _ _ _
              (await_peer_forward arg tunnel fd r rest tr Hd))
    as (more & Htr & Hmore).
  exists more. split; [|exact Hmore].
  rewrite Htr. cbn [trace]. rewrite <- app_assoc. reflexivity.
Qed.

(** The head of the outer loop, when the device opens. *)
Lemma serve_device_accept {cfg : Common} fuel arg tunnel fd dev d r rest tr :
  device arg = Some dev -> d <> -1 ->
  exists more,
    trace (world_of (serve (S fuel) arg tunnel fd (World (Cons d (Cons r rest)) tr)))
    = tr ++ [ELog LogDebug "waiting for tunnel connection";
             EOpenDevice dev d;
             ELog LogDebug ("open_device (" +++ DQ +++ "%s" +++ DQ +++ ") = %d");
             ETunnelAccept tunnel r] ++ more /\
    (r <> -1 ->
     exists more',
       more = ELog LogNotice "connected to FIXME:hostname:port" :: more').
Proof.
  intros Hd Hn.
  destruct (serve_after_await fuel arg tunnel fd _ _ _ _
              (await_peer_device arg tunnel fd dev d r rest tr Hd Hn))
    as (more & Htr & Hmore).
  exists more. split; [|exact Hmore].
  rewrite Htr. cbn [trace]. rewrite <- app_assoc. reflexivity.
Qed.

(** The head of the outer loop, when the device does not open. *)
Lemma serve_device_fails {cfg : Common} fuel arg tunnel fd dev rest tr :
  device arg = Some dev ->
  serve (S fuel) arg tunnel fd (World (Cons (-1) rest) tr)
  = Exit 1
      (World rest
         (tr ++ [ELog LogDebug "waiting for tunnel connection";
                 EOpenDevice dev (-1);
                 ELog LogDebug ("open_device (" +++ DQ +++ "%s" +++ DQ +++ ") = %d");
                 ELog LogError "couldn't open %s: %s"])).
Proof.
  intros Hd. cbn [serve]. apply bind_Exit.
  apply (await_peer_device_fails _ _ _ dev). exact Hd.
Qed.

Lemma refused_accepts_run {cfg : Common} arg tunnel fd n :
  forall fuel rest tr,
  device arg = None ->
  serve (n + fuel) arg tunnel fd (World (refused_accepts n rest) tr)
  = serve fuel arg tunnel fd
      (World rest (tr ++ List.concat (repeat (refused_accept_events tunnel) n))).
Proof.
  induction n as [|n IH]; intros fuel rest tr Hd.
  - cbn. rewrite app_nil_r. reflexivity.
  - cbn [Nat.add refused_accepts repeat List.concat].
    rewrite (serve_forward_accept_fails _ _ _ _ _ _ Hd).
    rewrite (IH fuel rest _ Hd). rewrite <- app_assoc. reflexivity.
Qed.

(** ** C2: padding on timeout *)

(** A pass of the bridge loop starts with these calls, whatever [poll]
    answers. *)
Lemma bridge_polls_first {cfg : Common} fuel arg tunnel fd last pfd t n r0 r1 rest tr :
  exists more,
    trace (world_of (bridge (S fuel) arg tunnel fd FALSE last
                       (World (Cons pfd (Cons t (Cons n (Cons r0 (Cons r1 rest)))))
                          tr)))
    = tr ++ poll_events (keep_alive arg) tunnel fd last pfd t n r0 r1 ++ more.
Proof.
  rewrite bridge_pass. cbv zeta.
  destruct (n =? -1).
  { eexists. cbn [world_of trace]. rewrite <- app_assoc. reflexivity. }
  destruct (n =? 0).
  { destruct rest as [t' rest'].
    match goal with
    | |- context [bridge fuel arg tunnel fd FALSE t' ?w] =>
        destruct (bridge_trace_grows fuel arg tunnel fd FALSE t' w) as (more & Htr)
    end.
    rewrite Htr. cbn [trace]. rewrite <- !app_assoc. eexists. reflexivity. }
  destruct rest as [c1 [c2 rest']].
  destruct (Z.land r0 POLLIN =? 0).
  { match goal with
    | |- context [bridge fuel arg tunnel fd c2 last ?w] =>
        destruct (bridge_trace_grows fuel arg tunnel fd c2 last w) as (more & Htr)
    end.
    rewrite Htr. cbn [trace]. rewrite <- !app_assoc. eexists. reflexivity. }
  destruct rest' as [t' rest''].
  match goal with
  | |- context [bridge fuel arg tunnel fd c2 t' ?w] =>
      destruct (bridge_trace_grows fuel arg tunnel fd c2 t' w) as (more & Htr)
  end.
  rewrite Htr. cbn [trace]. rewrite <- !app_assoc. eexists. reflexivity.
Qed.

(** C2.  Whenever [poll] returns 0 the pass of the bridge loop makes
    exactly one tunnel call, [tunnel_padding (tunnel, 1)], reads the clock
    into [last_tunnel_write] and loops: the timeout of the next [poll] is
    counted from that reading.  But a padding byte does not follow every
    idle period of [keep_alive] seconds: the timeout is computed in an
    [int], and when the time since the last write is so long that the
    product does not fit, the value handed to [poll] can be far above the
    keep-alive interval.  In the run below the keep-alive is 5 seconds, the
    clock reads 0 when the session starts and 1700000000 at the first pass,
    and [poll] is told to wait 807054216 ms where the formula gives 0. *)
Theorem padding_on_timeout_but_timeout_wraps :
  (forall (cfg : Common) fuel arg tunnel fd last
          pfd t r0 r1 t' pfd2 t2 n2 r02 r12 rest tr,
     exists more,
       trace (world_of
                (bridge (S (S fuel)) arg tunnel fd FALSE last
                   (World (Cons pfd (Cons t (Cons 0 (Cons r0 (Cons r1 (Cons t'
                             (Cons pfd2 (Cons t2 (Cons n2 (Cons r02 (Cons r12
                                rest)))))))))))
                      tr)))
       = tr ++ [ETunnelPollinFd tunnel pfd;
                ETime t;
                ELog LogAnnoying "poll () ...";
                EPoll fd pfd (poll_timeout (keep_alive arg) t last) 0 r0 r1;
                ELog LogAnnoying "... = %d";
                ELog LogVerbose "poll() timed out";
                ETunnelPadding tunnel 1;
                ETime t';
                ETunnelPollinFd tunnel pfd2;
                ETime t2;
                ELog LogAnnoying "poll () ...";
                EPoll fd pfd2 (poll_timeout (keep_alive arg) t2 t') n2 r02 r12;
                ELog LogAnnoying "... = %d"]
            ++ more) /\
  (exists pre post,
     trace (world_of clock_step_run)
     = pre ++ [ETime 0;
               ETunnelPollinFd 1 9;
               ETime 1700000000;
               ELog LogAnnoying "poll () ...";
               EPoll 3 9 807054216 0 0 0]
           ++ post) /\
  poll_timeout 5 1700000000 0 = 807054216 /\
  Z.max 0 (5 - (1700000000 - 0)) * 1000 = 0.
Proof.
  split; [|split; [|split]].
  - intros cfg fuel arg tunnel fd last pfd t r0 r1 t' pfd2 t2 n2 r02 r12 rest tr.
    rewrite bridge_pass. cbv zeta. change (0 =? -1) with false.
    change (0 =? 0) with true. cbv iota.
    match goal with
    | |- context [bridge (S fuel) arg tunnel fd FALSE t' (World _ ?tr1)] =>
        destruct (bridge_polls_first fuel arg tunnel fd t' pfd2 t2 n2 r02 r12
                    rest tr1) as (more & Htr)
    end.
    exists more. rewrite Htr. unfold poll_events.
    rewrite <- !app_assoc. reflexivity.
  - exists (firstn 21 (trace (world_of clock_step_run))),
      (skipn 26 (trace (world_of clock_step_run))).
    vm_compute. reflexivity.
  - vm_compute. reflexivity.
  - reflexivity.
Qed.

(** ** C6: the end of a session *)









(** ** C7: a failed tunnel_accept *)

(** C7.  A [tunnel_accept] that returns -1 ends the iteration with a log
    message and nothing else.  With no device, after any number of such
    failures in a row the process calls [tunnel_accept] again on the same
    tunnel, which it has neither closed nor destroyed.  With a device, the
    next iteration opens the device once more before it accepts: if the
    device opens, [tunnel_accept] is called again on the same tunnel; if it
    does not, the process ends with status 1. *)
Theorem accept_failure_continues {cfg : Common} fuel arg tunnel fd rest tr :
  (device arg = None ->
   forall n r,
   exists more,
     trace (world_of (serve (n + S fuel) arg tunnel fd
                        (World (refused_accepts n (Cons r rest)) tr)))
     = tr ++ List.concat (repeat (refused_accept_events tunnel) n)
          ++ [ELog LogDebug "waiting for tunnel connection";
              ETunnelAccept tunnel r]
          ++ more) /\
  (forall dev fds,
     device arg = Some dev ->
     Forall (fun d => d <> -1) fds ->
     (forall d r,
        d <> -1 ->
        exists more,
          trace (world_of (serve (List.length fds + S fuel) arg tunnel fd
                             (World (failed_accepts fds (Cons d (Cons r rest))) tr)))
          = tr ++ flat_map (failed_accept_events dev tunnel) fds
               ++ [ELog LogDebug "waiting for tunnel connection";
                   EOpenDevice dev d;
                   ELog LogDebug ("open_device (" +++ DQ +++ "%s" +++ DQ
                                  +++ ") = %d");
                   ETunnelAccept tunnel r]
               ++ more) /\
     serve (List.length fds + S fuel) arg tunnel fd
       (World (failed_accepts fds (Cons (-1) rest)) tr)
     = Exit 1
         (World rest
            (tr ++ flat_map (failed_accept_events dev tunnel) fds
                ++ [ELog LogDebug "waiting for tunnel connection";
                    EOpenDevice dev (-1);
                    ELog LogDebug ("open_device (" +++ DQ +++ "%s" +++ DQ
                                   +++ ") = %d");
                    ELog LogError "couldn't open %s: %s"]))).
Proof.
  split.
  - intros Hd n r. rewrite (refused_accepts_run _ _ _ _ _ _ _ Hd).
    destruct (serve_forward_accept fuel arg tunnel fd r rest
                (tr ++ List.concat (repeat (refused_accept_events tunnel) n)) Hd)
      as (more & Htr & _).
    exists more. rewrite Htr, <- app_assoc. reflexivity.
  - intros dev fds Hd Hfds. split.
    + intros d r Hn.
      rewrite (proj1 (failed_accepts_run arg dev tunnel fds (S fuel) fd
                        (Cons d (Cons r rest)) tr Hd Hfds)).
      destruct (serve_device_accept fuel arg tunnel (last fds fd) dev d r rest
                  (tr ++ flat_map (failed_accept_events dev tunnel) fds) Hd Hn)
        as (more & Htr & _).
      exists more. rewrite Htr, <- app_assoc. reflexivity.
    + rewrite (proj1 (failed_accepts_run arg dev tunnel fds (S fuel) fd
                        (Cons (-1) rest) tr Hd Hfds)).
      rewrite (serve_device_fails _ _ _ _ dev _ _ Hd), <- app_assoc. reflexivity.
Qed.

(** `hts -F localhost:23` with two failed accepts in a row, and
    `hts -d /dev/ttyS0` with two, after which the device opens as
    descriptor 5, or does not open. *)
Lemma accept_failure_continues_witness :
  let fwd := set_forward (defaults (cfg := httptunnel) "hts") (Some "localhost", 23) in
  let dev := set_device (defaults (cfg := httptunnel) "hts") (Some "/dev/ttyS0") in
  (exists more,
     trace (world_of (serve (cfg := httptunnel) 3 fwd 1 (-1) (start [-1; -1; 0])))
     = [ELog LogDebug "waiting for tunnel connection";
        ETunnelAccept 1 (-1);
        ELog LogNotice "couldn't accept connection: %s";
        ELog LogDebug "waiting for tunnel connection";
        ETunnelAccept 1 (-1);
        ELog LogNotice "couldn't accept connection: %s";
        ELog LogDebug "waiting for tunnel connection";
        ETunnelAccept 1 0] ++ more) /\
  (exists more,
     trace (world_of (serve (cfg := httptunnel) 3 dev 1 (-1)
                        (start [3; -1; 4; -1; 5; 0])))
     = failed_accept_events "/dev/ttyS0" 1 3
       ++ failed_accept_events "/dev/ttyS0" 1 4
       ++ [ELog LogDebug "waiting for tunnel connection";
           EOpenDevice "/dev/ttyS0" 5;
           ELog LogDebug ("open_device (" +++ DQ +++ "%s" +++ DQ +++ ") = %d");
           ETunnelAccept 1 0] ++ more) /\
  serve (cfg := httptunnel) 3 dev 1 (-1) (start [3; -1; 4; -1; -1])
  = Exit 1
      (World (Streams.const 0)
         (failed_accept_events "/dev/ttyS0" 1 3
          ++ failed_accept_events "/dev/ttyS0" 1 4
          ++ [ELog LogDebug "waiting for tunnel connection";
              EOpenDevice "/dev/ttyS0" (-1);
              ELog LogDebug ("open_device (" +++ DQ +++ "%s" +++ DQ +++ ") = %d");
              ELog LogError "couldn't open %s: %s"])).
Proof.
  intros fwd dev.
  destruct (accept_failure_continues (cfg := httptunnel) 0 fwd 1 (-1)
              (Streams.const 0) []) as [Hfwd _].
  destruct (accept_failure_continues (cfg := httptunnel) 0 dev 1 (-1)
              (Streams.const 0) []) as [_ Hdev].
  destruct (Hdev "/dev/ttyS0" [3; 4] eq_refl) as [Hopen Hfail].
  { repeat constructor; discriminate. }
  split; [|split].
  - exact (Hfwd eq_refl 2%nat 0).
  - apply (Hopen 5 0). discriminate.
  - exact Hfail.
Defined.

(** C7 as stated fails with a device: after the failed accept the device
    does not open again, and the process ends with status 1 instead of
    accepting a new peer. *)
Lemma accept_failure_device_counterexample :
  ~ (forall o : outcome unit,
       o = failed_accept_then_device_run ->
       In (ETunnelAccept 1 (-1)) (trace (world_of o)) ->
       status_of o <> Some 1).
Proof.
  intros Hclaim.
  apply (Hclaim failed_accept_then_device_run eq_refl).
  - vm_compute. tauto.
  - vm_compute. reflexivity.
Qed.

(** ** C9: the device descriptor of a failed accept *)

(** C9.  With a device, each iteration of the outer loop opens the device
    and then calls [tunnel_accept]; when that fails the iteration ends with
    a log message and no [close].  So the run goes through as many such
    iterations as [fds] is long, and at the end of them every descriptor
    that [open_device] returned is still open, on top of those that were
    open before. *)
Theorem failed_accepts_leak_descriptors {cfg : Common}
    arg dev tunnel fds fuel fd rest tr :
  device arg = Some dev ->
  Forall (fun d => d <> -1) fds ->
  (exists more,
     trace (world_of (serve (List.length fds + fuel) arg tunnel fd
                        (World (failed_accepts fds rest) tr)))
     = tr ++ flat_map (failed_accept_events dev tunnel) fds ++ more) /\
  open_descriptors
    (trace (world_of (serve (List.length fds) arg tunnel fd
                        (World (failed_accepts fds rest) tr))))
  = rev fds ++ open_descriptors tr.
Proof.
  intros Hd Hfds. split.
  - rewrite (proj1 (failed_accepts_run arg dev tunnel fds fuel fd rest tr Hd Hfds)).
    destruct (serve_trace_grows fuel arg tunnel (last fds fd)
                (World rest (tr ++ flat_map (failed_accept_events dev tunnel) fds)))
      as (more & Htr).
    exists more. rewrite Htr. cbn [trace]. rewrite <- app_assoc. reflexivity.
  - destruct (failed_accepts_run arg dev tunnel fds 0%nat fd rest tr Hd Hfds)
      as [Hrun Hopen].
    rewrite Nat.add_0_r in Hrun. rewrite Hrun. exact Hopen.
Qed.

(** Three failed accepts in a row on `hts -d /dev/ttyS0`: descriptors 3, 4
    and 5 are open afterwards. *)
Lemma failed_accepts_leak_descriptors_witness :
  let arg := set_device (defaults (cfg := httptunnel) "hts") (Some "/dev/ttyS0") in
  (exists more,
     trace (world_of (serve (cfg := httptunnel) 4 arg 1 (-1)
                        (start [3; -1; 4; -1; 5; -1])))
     = failed_accept_events "/dev/ttyS0" 1 3
       ++ failed_accept_events "/dev/ttyS0" 1 4
       ++ failed_accept_events "/dev/ttyS0" 1 5 ++ more) /\
  open_descriptors
    (trace (world_of (serve (cfg := httptunnel) 3 arg 1 (-1)
                        (start [3; -1; 4; -1; 5; -1]))))
  = [5; 4; 3].
Proof.
  apply (failed_accepts_leak_descriptors (cfg := httptunnel)
           (set_device (defaults (cfg := httptunnel) "hts") (Some "/dev/ttyS0"))
           "/dev/ttyS0" 1 [3; 4; 5] 1%nat (-1) (Streams.const 0) []).
  - reflexivity.
  - repeat constructor; discriminate.
Defined.
